(** * Walk-forward evaluation of forecasting models

    A shallow embedding of [darts/models/forecasting/forecasting_model.py]:
    the scheduling of prediction times, the training window, the retrain
    policy, the walk-forward loop of [historical_forecasts], the scoring of
    [backtest] and the sub-sampling of [gridsearch].

    Timestamps are integers (positions of a [RangeIndex], or the ticks of a
    [DatetimeIndex] with a fixed step).  The values of series and of
    metrics are rationals: their arithmetic is exact and none of them is
    not-a-number.  The one float product the code truncates to an integer,
    the number of sampled combinations, is rounded as binary64 rounds it. *)

From Stdlib Require Import String ZArith QArith Qround List Bool Lia.
Import ListNotations.
Open Scope Z_scope.

(** ** Exceptions and outcomes *)

Inductive Error : Type :=
| ValueError (msg : string)
| TypeError (msg : string)
| IndexError
| InvalidStart
| EmptyForecastRange
| ModelError (msg : string).

(** What a Python call can do: return, raise, or loop forever. *)
Inductive Outcome (A : Type) : Type :=
| Ok (a : A)
| Raise (e : Error)
| Diverge.

Arguments Ok {A} a.
Arguments Raise {A} e.
Arguments Diverge {A}.

Definition obind {A B : Type} (o : Outcome A) (f : A -> Outcome B) : Outcome B :=
  match o with
  | Ok a => f a
  | Raise e => Raise e
  | Diverge => Diverge
  end.

Definition omap {A B : Type} (f : A -> B) (o : Outcome A) : Outcome B :=
  obind o (fun a => Ok (f a)).

(** ** Time series *)

Module TS.

(** One row of values: one entry per component. *)
Definition Row : Type := list Q.

(** Modelled from the spec: the container [TimeSeries] is defined in
    [darts.timeseries], outside the module embedded here.  A series is an
    ordered sequence of value rows on a regular time grid
    [start_time + i * freq], together with its column names and the
    series-level metadata. *)
Record TimeSeries : Type := mkTimeSeries {
  start_time : Z;
  freq : Z;
  values : list Row;
  has_datetime_index : bool;
  columns : list string;
  static_covariates : option (list (string * Q));
  hierarchy : option (list (string * list string))
}.

Definition len (s : TimeSeries) : Z := Z.of_nat (length (values s)).

Definition with_values (s : TimeSeries) (start : Z) (vs : list Row) : TimeSeries :=
  {| start_time := start; freq := freq s; values := vs;
     has_datetime_index := has_datetime_index s; columns := columns s;
     static_covariates := static_covariates s; hierarchy := hierarchy s |}.

(** Python's indexing of a sequence of [n] elements: negative positions
    count from the end. *)
Definition py_index (n i : Z) : option Z :=
  if (0 <=? i) && (i <? n) then Some i
  else if (- n <=? i) && (i <? 0) then Some (n + i)
  else None.

(** [series.time_index[i]] *)
Definition time_index (s : TimeSeries) (i : Z) : Outcome Z :=
  match py_index (len s) i with
  | Some j => Ok (start_time s + j * freq s)
  | None => Raise IndexError
  end.

Definition end_time (s : TimeSeries) : Outcome Z := time_index s (-1).

(** The timestamps of a series, in order. *)
Definition times (s : TimeSeries) : list Z :=
  map (fun i => start_time s + Z.of_nat i * freq s) (seq 0 (length (values s))).

(** Division rounded up. *)
Definition cdiv (a b : Z) : Z := - ((- a) / b).

(** Modelled from the spec: [TimeSeries.drop_after] is defined in
    [darts.timeseries].  It drops the split point and everything after it;
    that the split point itself goes is what [residuals] relies on when it
    calls [time_index[min_train_series_length]] the "first index not
    contained in the first training set". *)
Definition drop_after (s : TimeSeries) (t : Z) : TimeSeries :=
  with_values s (start_time s)
    (firstn (Z.to_nat (cdiv (t - start_time s) (freq s))) (values s)).

(** [series[-k:]] for [1 <= k]. *)
Definition last_points (s : TimeSeries) (k : Z) : TimeSeries :=
  let d := Z.max 0 (len s - k) in
  with_values s (start_time s + d * freq s) (skipn (Z.to_nat d) (values s)).

(** The three ways of giving [start]. *)
Inductive Start : Type :=
| StartFloat (p : Q)
| StartInt (i : Z)
| StartTimestamp (t : Z).

Definition in_series (s : TimeSeries) (t : Z) : bool :=
  existsb (Z.eqb t) (times s).

(** Modelled from the spec: [TimeSeries.get_timestamp_at_point] is defined
    in [darts.timeseries].  A fraction is scaled along the series, an
    integer indexes the time index, a timestamp passes through; a point
    outside the series is an invalid start.  (The test
    [test_historical_forecast] fixes the scaling: 0.8 on 100 points gives 21
    prediction times, so the fraction is taken of [len - 1].) *)
Definition get_timestamp_at_point (s : TimeSeries) (p : Start) : Outcome Z :=
  match p with
  | StartFloat q =>
      if Qle_bool 0 q && Qle_bool q 1 && (0 <? len s)
      then time_index s (Qfloor (inject_Z (len s - 1) * q))
      else Raise InvalidStart
  | StartInt i =>
      if (0 <=? i) && (i <? len s) then time_index s i else Raise InvalidStart
  | StartTimestamp t =>
      if in_series s t then Ok t else Raise InvalidStart
  end.

(** Truthiness of an optional series: [None] and the empty series are
    false. *)
Definition truthy (o : option TimeSeries) : bool :=
  match o with
  | Some s => negb (len s =? 0)
  | None => false
  end.

End TS.
Import TS.

(** ** The prediction times *)

(** [_get_last_prediction_time] *)
Definition _get_last_prediction_time (series : TimeSeries) (forecast_horizon : Z)
    (overlap_end : bool) : Outcome Z :=
  if overlap_end then time_index series (-1)
  else time_index series (- forecast_horizon).

(** The [while] loop that extends [pred_times]: the times appended after
    [cur].  [None] when the fuel runs out. *)
Fixpoint extend_pred_times (fuel : nat) (step last_valid cur : Z) : option (list Z) :=
  if cur <? last_valid then
    match fuel with
    | O => None
    | S fuel' =>
        match extend_pred_times fuel' step last_valid (cur + step) with
        | Some rest => Some ((cur + step) :: rest)
        | None => None
        end
    end
  else Some [].

(** Lines 455-462: the list starts at [start], grows by [freq * stride] while
    its last element is before [last_valid_pred_time], and loses its last
    element when that one overshot.  The fuel [last_valid - start] is enough
    whenever the step is positive; with a step of zero or less the loop of
    the source does not end either. *)
Definition build_pred_times (step last_valid start : Z) : Outcome (list Z) :=
  match extend_pred_times (Z.to_nat (last_valid - start)) step last_valid start with
  | None => Diverge
  | Some rest =>
      let pred_times := start :: rest in
      Ok (if last pred_times 0 >? last_valid then removelast pred_times
          else pred_times)
  end.

(** ** The retrain policy *)

(** A callable given as [retrain], with the part of its signature that the
    loop looks at: whether it declares [past_covariates] and
    [future_covariates].  It receives the counter, the prediction time, the
    training series and the two covariate windows. *)
Record RetrainCallable : Type := mkRetrainCallable {
  takes_past_covariates : bool;
  takes_future_covariates : bool;
  call : nat -> Z -> TimeSeries -> option TimeSeries -> option TimeSeries -> bool
}.

(** [retrain: Union[bool, int, Callable[..., bool]]] *)
Inductive Retrain : Type :=
| RetrainBool (b : bool)
| RetrainInt (k : Z)
| RetrainFn (f : RetrainCallable).

Definition is_callable (r : Retrain) : bool :=
  match r with RetrainFn _ => true | _ => false end.

(** [int(retrain)] for a boolean or an integer. *)
Definition int_of_retrain (r : Retrain) : Z :=
  match r with
  | RetrainBool b => if b then 1 else 0
  | RetrainInt k => k
  | RetrainFn _ => 0
  end.

(** Truthiness of [retrain] for a boolean or an integer. *)
Definition retrain_truthy (r : Retrain) : bool :=
  match r with
  | RetrainBool b => b
  | RetrainInt k => negb (k =? 0)
  | RetrainFn _ => true
  end.

(** [lambda counter: counter % int(retrain) == 0 if retrain else False] *)
Definition retrain_lambda (r : Retrain) (counter : nat) : bool :=
  if retrain_truthy r then Z.of_nat counter mod int_of_retrain r =? 0 else false.

(** Modelled from the spec: [_retrain_wrapper] is defined in [darts.utils].
    It hands the callable the arguments that its signature declares, and
    keeps that signature. *)
Definition _retrain_wrapper (f : RetrainCallable) : RetrainCallable := f.

(** Lines 428-442: the retrain function of a run.  The lambda built for a
    boolean or an integer declares [counter] only. *)
Definition make_retrain_func (r : Retrain) : Outcome RetrainCallable :=
  match r with
  | RetrainBool _ =>
      Ok (_retrain_wrapper
            (mkRetrainCallable false false
               (fun counter _ _ _ _ => retrain_lambda r counter)))
  | RetrainInt k =>
      if 0 <=? k
      then Ok (_retrain_wrapper
                 (mkRetrainCallable false false
                    (fun counter _ _ _ _ => retrain_lambda r counter)))
      else Raise (ValueError "retrain argument must be either bool, positive int or Callable (returning bool)")
  | RetrainFn f => Ok (_retrain_wrapper f)
  end.

(** ** Models *)

(** What [historical_forecasts] asks of a model: the class-level queries,
    and the [_fit_wrapper] and [_predict_wrapper] of the subclass over the
    model's own state [S].  Prediction reads the state; only fitting yields
    a new one. *)
Record ForecastingModel (S : Type) : Type := mkForecastingModel {
  _supports_non_retrainable_historical_forecasts : bool;
  min_train_series_length : Z;
  fit_wrapper : S -> TimeSeries -> option TimeSeries -> option TimeSeries -> Outcome S;
  predict_wrapper :
    S -> Z -> TimeSeries -> option TimeSeries -> option TimeSeries -> Z -> Outcome TimeSeries
}.

Arguments _supports_non_retrainable_historical_forecasts {S} _.
Arguments min_train_series_length {S} _.
Arguments fit_wrapper {S} _ _ _ _ _.
Arguments predict_wrapper {S} _ _ _ _ _ _ _.

(** The state of a model instance: the flag [_fit_called] of the base class
    and what the subclass learnt. *)
Record ModelState (S : Type) : Type := mkModelState {
  _fit_called : bool;
  learnt : S
}.

Arguments mkModelState {S} _ _.
Arguments _fit_called {S} _.
Arguments learnt {S} _.

(** The calls that leave the loop, in order. *)
Inductive Event : Type :=
| RetrainQuery (counter : nat) (pred_time : Z) (train_series : TimeSeries)
    (past_covariates future_covariates : option TimeSeries)
| FitCall (counter : nat) (pred_time : Z) (series : TimeSeries)
    (past_covariates future_covariates : option TimeSeries)
| PredictCall (counter : nat) (pred_time : Z) (n : Z) (series : TimeSeries)
    (past_covariates future_covariates : option TimeSeries) (num_samples : Z).

(** ** The engine monad: the model instance and the log of calls *)

Record World (S : Type) : Type := mkWorld {
  model : ModelState S;
  trace : list Event
}.

Arguments mkWorld {S} _ _.
Arguments model {S} _.
Arguments trace {S} _.

Definition Eng (S A : Type) : Type := World S -> World S * Outcome A.

Definition ret {S A : Type} (a : A) : Eng S A := fun w => (w, Ok a).

Definition bind {S A B : Type} (m : Eng S A) (f : A -> Eng S B) : Eng S B :=
  fun w =>
    match m w with
    | (w', Ok a) => f a w'
    | (w', Raise e) => (w', Raise e)
    | (w', Diverge) => (w', Diverge)
    end.

Definition lift {S A : Type} (o : Outcome A) : Eng S A := fun w => (w, o).

Definition emit {S : Type} (e : Event) : Eng S unit :=
  fun w => (mkWorld (model w) (trace w ++ [e]), Ok tt).

Definition get_fit_called {S : Type} : Eng S bool :=
  fun w => (w, Ok (_fit_called (model w))).

Declare Scope eng_scope.
Delimit Scope eng_scope with eng.
Notation "x <- m ;; k" := (bind m (fun x => k))
  (at level 61, m at next level, right associativity) : eng_scope.
Notation "m ;;; k" := (bind m (fun _ => k))
  (at level 61, right associativity) : eng_scope.
Open Scope eng_scope.

(** ** Index construction and series assembly *)

(** A regular index: first value, step and number of entries. *)
Record TimeIndex : Type := mkTimeIndex {
  ix_start : Z;
  ix_step : Z;
  ix_len : nat
}.

(** [pd.RangeIndex(start, stop, step)]: a step of zero is refused. *)
Definition RangeIndex (start stop step : Z) : Outcome TimeIndex :=
  if step =? 0 then Raise (ValueError "Step must not be zero")
  else if 0 <? step
       then Ok (mkTimeIndex start step (Z.to_nat (cdiv (stop - start) step)))
       else Ok (mkTimeIndex start step (Z.to_nat (cdiv (start - stop) (- step)))).

(** Whether consecutive times are [step] apart. *)
Fixpoint conforms (step : Z) (ts : list Z) : bool :=
  match ts with
  | t1 :: ((t2 :: _) as rest) => (t2 - t1 =? step) && conforms step rest
  | _ => true
  end.

(** [pd.DatetimeIndex(times, freq=step)]: the times must conform to the
    frequency passed. *)
Definition DatetimeIndex (ts : list Z) (step : Z) : Outcome TimeIndex :=
  if conforms step ts then Ok (mkTimeIndex (hd 0 ts) step (List.length ts))
  else Raise (ValueError "Inferred frequency does not conform to passed frequency").

(** Modelled from the spec: [TimeSeries.from_times_and_values] is defined
    in [darts.timeseries].  It builds the series over the given index, and
    refuses an index whose length is not the number of value rows. *)
Definition from_times_and_values (ix : TimeIndex) (vals : list Row) (datetime : bool)
    (cols : list string) (sc : option (list (string * Q)))
    (hier : option (list (string * list string))) : Outcome TimeSeries :=
  if Nat.eqb (ix_len ix) (List.length vals)
  then Ok (mkTimeSeries (ix_start ix) (ix_step ix) vals datetime cols sc hier)
  else Raise (ValueError "times and values must have the same length").

(** [seq[i]] on a Python list. *)
Definition list_get {A : Type} (l : list A) (i : Z) : Outcome A :=
  match py_index (Z.of_nat (List.length l)) i with
  | Some j =>
      match nth_error l (Z.to_nat j) with
      | Some a => Ok a
      | None => Raise IndexError
      end
  | None => Raise IndexError
  end.

(** ** historical_forecasts *)

(** The keyword arguments of [historical_forecasts]. *)
Record Args : Type := mkArgs {
  series : TimeSeries;
  past_covariates : option TimeSeries;
  future_covariates : option TimeSeries;
  num_samples : Z;
  train_length : option Z;
  start : Start;
  forecast_horizon : Z;
  stride : Z;
  retrain : Retrain;
  overlap_end : bool;
  last_points_only : bool
}.

(** What one iteration keeps: the last point of its forecast, or the whole
    forecast. *)
Inductive Kept : Type :=
| LastPoint (time : Z) (value : Row)
| Whole (forecast : TimeSeries).

(** What the run returns. *)
Inductive Forecasts : Type :=
| Assembled (s : TimeSeries)
| Segments (l : list TimeSeries).

(** Lines 475-477: the training series of one iteration. *)
Definition build_train (series : TimeSeries) (train_length : option Z) (pred_time : Z)
    : TimeSeries :=
  let train := drop_after series pred_time in
  match train_length with
  | Some l =>
      if negb (l =? 0) && (len train >? l) then last_points train l else train
  | None => train
  end.

(** Lines 485-492: the covariate windows handed to the retrain function. *)
Definition retrain_past_window (rf : RetrainCallable) (a : Args) (pred_time : Z)
    : option TimeSeries :=
  match past_covariates a with
  | Some pc =>
      if truthy (Some pc) && takes_past_covariates rf
      then Some (drop_after pc pred_time) else None
  | None => None
  end.

Definition retrain_future_window (rf : RetrainCallable) (a : Args) (pred_time : Z)
    : Outcome (option TimeSeries) :=
  match future_covariates a with
  | Some fc =>
      if truthy (Some fc) && takes_future_covariates rf
      then obind (end_time (series a)) (fun e =>
             Ok (Some (drop_after fc
                         (Z.min (pred_time + freq (series a) * forecast_horizon a) e))))
      else Ok None
  | None => Ok None
  end.

Section Engine.

Variable St : Type.
Variable M : ForecastingModel St.

(** [self._fit_wrapper(...)]: every [fit] of the source ends with
    [self._fit_called = True]. *)
Definition _fit_wrapper (counter : nat) (pred_time : Z) (train : TimeSeries)
    (pc fc : option TimeSeries) : Eng St unit :=
  emit (FitCall counter pred_time train pc fc) ;;;
  fun w =>
    match fit_wrapper M (learnt (model w)) train pc fc with
    | Ok s' => (mkWorld (mkModelState true s') (trace w), Ok tt)
    | Raise e => (w, Raise e)
    | Diverge => (w, Diverge)
    end.

(** [self._predict_wrapper(...)] *)
Definition _predict_wrapper (counter : nat) (pred_time : Z) (n : Z) (train : TimeSeries)
    (pc fc : option TimeSeries) (ns : Z) : Eng St TimeSeries :=
  emit (PredictCall counter pred_time n train pc fc ns) ;;;
  fun w => (w, predict_wrapper M (learnt (model w)) n train pc fc ns).

(** Lines 481-493: [(not self._fit_called) or retrain_func(...)].  The
    retrain function, and the windows it is given, are evaluated only when
    the model has been fit. *)
Definition should_retrain (rf : RetrainCallable) (a : Args) (counter : nat)
    (pred_time : Z) (train : TimeSeries) : Eng St bool :=
  fitted <- get_fit_called ;;
  if negb fitted then ret true
  else
    let pw := retrain_past_window rf a pred_time in
    fw <- lift (retrain_future_window rf a pred_time) ;;
    emit (RetrainQuery counter pred_time train pw fw) ;;;
    ret (call rf counter pred_time train pw fw).

(** Lines 474-512: one iteration of the loop. *)
Definition iteration (rf : RetrainCallable) (a : Args) (counter : nat) (pred_time : Z)
    : Eng St Kept :=
  let train := build_train (series a) (train_length a) pred_time in
  go <- should_retrain rf a counter pred_time train ;;
  (if go : bool
   then _fit_wrapper counter pred_time train (past_covariates a) (future_covariates a)
   else ret tt) ;;;
  forecast <- _predict_wrapper counter pred_time (forecast_horizon a) train
                (past_covariates a) (future_covariates a) (num_samples a) ;;
  if last_points_only a
  then
    v <- lift (list_get (values forecast) (-1)) ;;
    t <- lift (end_time forecast) ;;
    ret (LastPoint t v)
  else ret (Whole forecast).

(** Line 473: [for _counter, pred_time in enumerate(iterator)]. *)
Fixpoint walk (rf : RetrainCallable) (a : Args) (counter : nat) (pred_times : list Z)
    : Eng St (list Kept) :=
  match pred_times with
  | [] => ret []
  | pred_time :: rest =>
      k <- iteration rf a counter pred_time ;;
      ks <- walk rf a (S counter) rest ;;
      ret (k :: ks)
  end.

Definition kept_times (ks : list Kept) : list Z :=
  flat_map (fun k => match k with LastPoint t _ => [t] | Whole _ => [] end) ks.

Definition kept_values (ks : list Kept) : list Row :=
  flat_map (fun k => match k with LastPoint _ v => [v] | Whole _ => [] end) ks.

Definition kept_forecasts (ks : list Kept) : list TimeSeries :=
  flat_map (fun k => match k with LastPoint _ _ => [] | Whole f => [f] end) ks.

(** Lines 514-536: the result. *)
Definition assemble (a : Args) (ks : list Kept) : Outcome Forecasts :=
  if last_points_only a then
    let last_points_times := kept_times ks in
    let last_points_values := kept_values ks in
    let s := series a in
    obind
      (if has_datetime_index s
       then DatetimeIndex last_points_times (freq s * stride a)
       else
         obind (list_get last_points_times 0) (fun first =>
         obind (list_get last_points_times (-1)) (fun final =>
         RangeIndex first (final + 1) (freq s * stride a))))
      (fun ix =>
         omap Assembled
           (from_times_and_values ix last_points_values (has_datetime_index s)
              (columns s) (static_covariates s) (hierarchy s)))
  else Ok (Segments (kept_forecasts ks)).

(** Lines 399-426: the checks on [retrain] and [train_length]. *)
Definition check_retrain_supported (a : Args) : Outcome unit :=
  if (is_callable (retrain a) || negb (int_of_retrain (retrain a) =? 1))
     && negb (_supports_non_retrainable_historical_forecasts M)
  then Raise (ValueError "model does not support historical forecastings with retrain set to False")
  else Ok tt.

Definition check_train_length (a : Args) : Outcome unit :=
  match train_length a with
  | Some l =>
      if l <? 1 then Raise (ValueError "If not None, train_length needs to be positive.")
      else if l <? min_train_series_length M
           then Raise (ValueError "train_length is too small for the training requirements of this model")
           else Ok tt
  | None => Ok tt
  end.

(** Lines 447-462: the prediction times of a run. *)
Definition scheduled_pred_times (a : Args) : Outcome (list Z) :=
  obind (get_timestamp_at_point (series a) (start a)) (fun start_ts =>
  obind (_get_last_prediction_time (series a) (forecast_horizon a) (overlap_end a))
    (fun last_valid_pred_time =>
  build_pred_times (freq (series a) * stride a) last_valid_pred_time start_ts)).

(** The body of [historical_forecasts], lines 399-536. *)
Definition historical_forecasts_body (a : Args) : Eng St Forecasts :=
  lift (check_retrain_supported a) ;;;
  lift (check_train_length a) ;;;
  rf <- lift (make_retrain_func (retrain a)) ;;
  pred_times <- lift (scheduled_pred_times a) ;;
  ks <- walk rf a 0 pred_times ;;
  lift (assemble a ks).

(** Modelled from the spec: [_historical_forecasts_general_checks], which
    the decorator [_with_sanity_checks] runs before the body, is defined in
    [darts.utils].  The horizon and the stride are positive integers, the
    start lies in the series, and a start past the last admissible
    prediction time leaves no prediction time at all. *)
Definition _historical_forecasts_sanity_checks (a : Args) : Outcome unit :=
  if forecast_horizon a <=? 0
  then Raise (ValueError "The provided forecasting horizon must be a positive integer.")
  else if stride a <=? 0
  then Raise (ValueError "The provided stride parameter must be a positive integer.")
  else
    obind (get_timestamp_at_point (series a) (start a)) (fun start_ts =>
      match _get_last_prediction_time (series a) (forecast_horizon a) (overlap_end a) with
      | Ok last_valid =>
          if start_ts >? last_valid then Raise EmptyForecastRange else Ok tt
      | _ => Raise EmptyForecastRange
      end).

(** [historical_forecasts] as decorated. *)
Definition historical_forecasts (a : Args) : Eng St Forecasts :=
  lift (_historical_forecasts_sanity_checks a) ;;;
  historical_forecasts_body a.

(** A run on a model instance, with a fresh log. *)
Definition run_historical_forecasts (a : Args) (m : ModelState St)
    : World St * Outcome Forecasts :=
  historical_forecasts a (mkWorld m []).

End Engine.

(** ** backtest *)

Definition Metric : Type := TimeSeries -> TimeSeries -> Q.

(** [metric]: one function or a list of functions. *)
Inductive MetricArg : Type :=
| OneMetric (f : Metric)
| MetricList (l : list Metric).

(** What [backtest] can return: a number, a list of numbers, or a list of
    rows. *)
Inductive Score : Type :=
| Scalar (x : Q)
| Vector (l : list Q)
| Matrix (rows : list (list Q)).

(** [np.mean] of a list of numbers. *)
Definition np_mean (l : list Q) : Q :=
  (fold_right Qplus 0 l / inject_Z (Z.of_nat (List.length l)))%Q.

(** [reduction(np.array(errors), axis=0)] for a reduction that, like
    [np.mean], collapses the axis it is given: one value per column.  An
    empty list of rows makes a one-dimensional empty array, which reduces to
    a single number. *)
Definition reduce_axis0 (red : list Q -> Q) (ncols : nat) (rows : list (list Q)) : Score :=
  match rows with
  | [] => Scalar (red [])
  | _ => Vector (map (fun j => red (map (fun row => nth j row 0%Q) rows)) (seq 0 ncols))
  end.

(** [errors[0]] *)
Definition score_first (sc : Score) : Outcome Score :=
  match sc with
  | Scalar _ => Raise IndexError
  | Vector l => omap Scalar (list_get l 0)
  | Matrix rows => omap Vector (list_get rows 0)
  end.

(** Lines 660-679: scoring the forecasts. *)
Definition score_forecasts (a : Args) (metric : MetricArg)
    (reduction : option (list Q -> Q)) (forecasts : Forecasts) : Outcome Score :=
  let metrics := match metric with OneMetric f => [f] | MetricList l => l end in
  obind
    (match last_points_only a, forecasts with
     | true, Assembled fc => Ok (Vector (map (fun metric_f => metric_f (series a) fc) metrics))
     | false, Segments fcs =>
         let errors :=
           map (fun forecast => map (fun metric_f => metric_f (series a) forecast) metrics) fcs in
         match reduction with
         | Some red => Ok (reduce_axis0 red (List.length metrics) errors)
         | None => Ok (Matrix errors)
         end
     | _, _ => Raise (TypeError "forecasts do not match last_points_only")
     end)
    (fun errors =>
       if (1 <? List.length metrics)%nat then Ok errors else score_first errors).

(** [backtest], lines 645-679. *)
Definition backtest {St : Type} (M : ForecastingModel St) (a : Args) (metric : MetricArg)
    (reduction : option (list Q -> Q)) : Eng St Score :=
  forecasts <- historical_forecasts St M a ;;
  lift (score_forecasts a metric reduction forecasts).

(** ** gridsearch: sampling the parameter combinations *)

(** [n_random_samples: Optional[Union[int, float]]], when given. *)
Inductive NRandomSamples : Type :=
| NInt (n : Z)
| NFloat (x : Q).

(** [int(x)] on a number: truncation towards zero. *)
Definition py_int (x : Q) : Z :=
  if Qle_bool 0 x then Qfloor x else Qceiling x.

(** [round(x)]: to the nearest integer, halves to the even one. *)
Definition py_round (x : Q) : Z :=
  let f := Qfloor x in
  match (x - inject_Z f ?= 1 # 2)%Q with
  | Lt => f
  | Gt => f + 1
  | Eq => if Z.even f then f else f + 1
  end.

(** *** Double-precision numbers

    A Python float is a binary64 number: 53 significant bits, the last
    place never below [2^-1074], results rounded to the nearest number, a
    tie to the one with an even significand.  [fl q] is the float nearest to
    the rational [q]; every finite float is the [fl] of its own value.
    Numbers beyond the largest float, which round to infinity, are kept as
    they round: nothing below compares them with anything but [0.0] and
    [1.0]. *)

(** [q / 2^p]. *)
Definition scale (q : Q) (p : Z) : Q :=
  if 0 <? p then (q / inject_Z (2 ^ p))%Q else (q * inject_Z (2 ^ (- p)))%Q.

(** [m * 2^p]. *)
Definition unscale (m : Z) (p : Z) : Q :=
  if 0 <? p then inject_Z (m * 2 ^ p) else (inject_Z m / inject_Z (2 ^ (- p)))%Q.

(** The exponent [e] with [2^e <= q < 2^(e+1)], for a positive [q]. *)
Definition floor_log2 (q : Q) : Z :=
  let e0 := Z.log2 (Qnum q) - Z.log2 (Z.pos (Qden q)) in
  if Qle_bool (unscale 1 e0) q then e0 else e0 - 1.

(** The float nearest to a positive rational: its significand is the
    rational in units of the last place, rounded. *)
Definition fl_pos (q : Q) : Q :=
  let p := Z.max (floor_log2 q - 52) (-1074) in
  unscale (py_round (scale q p)) p.

Definition fl (q : Q) : Q :=
  match Qnum q with
  | Z0 => 0%Q
  | Zpos _ => fl_pos q
  | Zneg _ => (- fl_pos (- q))%Q
  end.

Fixpoint remove_nth {A : Type} (j : nat) (l : list A) : list A :=
  match l, j with
  | [], _ => []
  | _ :: t, O => t
  | h :: t, S j' => h :: remove_nth j' t
  end.

(** [random.sample(population, k)] for [k <= len(population)], drawing
    without replacement; [rnd] is the stream of random numbers consumed. *)
Fixpoint draw {A : Type} (rnd : list nat) (population : list A) (k : nat) : list A :=
  match k with
  | O => []
  | S k' =>
      let j := (hd O rnd mod List.length population)%nat in
      match nth_error population j with
      | Some x => x :: draw (tl rnd) (remove_nth j population) k'
      | None => []
      end
  end.

(** [random.sample]: a sample larger than the population, or negative, is an
    error. *)
Definition sample {A : Type} (rnd : list nat) (population : list A) (k : Z)
    : Outcome (list A) :=
  if (0 <=? k) && (k <=? Z.of_nat (List.length population))
  then Ok (draw rnd population (Z.to_nat k))
  else Raise (ValueError "Sample larger than population or is negative").

(** [_sample_params], lines 984-1002.  A float [n_random_samples] is
    given by a rational [x] that it is nearest to; the int [len(params)] is
    converted to a float and the product of the two floats is rounded before
    [int] truncates it. *)
Definition _sample_params {A : Type} (rnd : list nat) (params : list A)
    (n_random_samples : NRandomSamples) : Outcome (list A) :=
  match n_random_samples with
  | NInt n =>
      if (0 <? n) && (n <=? Z.of_nat (List.length params))
      then sample rnd params n
      else Raise (ValueError "If supplied as an integer, n_random_samples must be greater than 0 and less than or equal to the size of the cartesian product of the hyperparameters.")
  | NFloat x =>
      if negb (Qle_bool (fl x) 0) && Qle_bool (fl x) 1
      then sample rnd params
             (py_int (fl (fl x * fl (inject_Z (Z.of_nat (List.length params))))))
      else Raise (ValueError "If supplied as a float, n_random_samples must be greater than 0.0 and less than 1.0.")
  end.

(** Lines 826-832 of [gridsearch]: the combinations that are evaluated. *)
Definition gridsearch_combinations {A : Type} (rnd : list nat) (params_cross_product : list A)
    (n_random_samples : option NRandomSamples) : Outcome (list A) :=
  match n_random_samples with
  | Some n => _sample_params rnd params_cross_product n
  | None => Ok params_cross_product
  end.

(** ** Example models and series *)

Module Examples.

Definition row (x : Z) : Row := [inject_Z x].

(** Five points at times 0..4. *)
Definition ts5 : TimeSeries :=
  mkTimeSeries 0 1 (map row [10; 11; 12; 13; 14]) false ["y"%string] None None.

(** A covariate over the same times. *)
Definition cov5 : TimeSeries :=
  mkTimeSeries 0 1 (map row [1; 2; 3; 4; 5]) false ["c"%string] None None.

(** A model that counts its fits and forecasts the last value it is shown,
    [n] times, on the [n] timestamps that follow the series. *)
Definition naive : ForecastingModel nat :=
  mkForecastingModel nat true 1
    (fun fits _ _ _ => Ok (S fits))
    (fun _ n s _ _ _ =>
       obind (end_time s) (fun e =>
       obind (list_get (values s) (-1)) (fun v =>
       Ok (with_values s (e + freq s) (repeat v (Z.to_nat n)))))).

(** The same model as a class that must be retrained every time. *)
Definition naive_local : ForecastingModel nat :=
  mkForecastingModel nat false 1 (fit_wrapper naive) (predict_wrapper naive).

Definition unfitted : ModelState nat := mkModelState false O.
Definition fitted : ModelState nat := mkModelState true 1%nat.

Definition args0 : Args :=
  mkArgs ts5 None None 1 None (StartInt 2) 1 1 (RetrainBool true) false true.


(** Retraining at every second iteration, from time 1 on. *)
Definition args_every2 : Args :=
  mkArgs ts5 None None 1 None (StartInt 1) 1 1 (RetrainInt 2) false true.

(** No retraining, given as [False] and as [0]. *)
Definition args_never : Args :=
  mkArgs ts5 None None 1 None (StartInt 2) 1 1 (RetrainBool false) false true.

Definition args_zero : Args :=
  mkArgs ts5 None None 1 None (StartInt 2) 1 1 (RetrainInt 0) false true.

(** A training window of two points. *)
Definition args_window : Args :=
  mkArgs ts5 None None 1 (Some 2) (StartInt 2) 1 1 (RetrainBool true) false true.

(** A start after the last valid prediction time: with a horizon of 2 the
    last valid time is 3. *)
Definition args_late : Args :=
  mkArgs ts5 None None 1 None (StartInt 4) 2 1 (RetrainBool true) false true.

(** Whole forecasts instead of last points. *)
Definition args_segments : Args :=
  mkArgs ts5 None None 1 None (StartInt 2) 1 1 (RetrainBool true) false false.

(** Two simple metrics: the first value of the forecast, and the number of
    its points. *)
Definition first_value : Metric :=
  fun _ forecast =>
    match values forecast with
    | (x :: _) :: _ => x
    | _ => 0%Q
    end.

Definition point_count : Metric :=
  fun _ forecast => inject_Z (len forecast).

(** A horizon of two points, from time 1 on. *)
Definition args_horizon2 : Args :=
  mkArgs ts5 None None 1 None (StartInt 1) 2 1 (RetrainBool true) false true.

(** The retrain function of a run with [retrain = True]. *)
Definition always : RetrainCallable :=
  _retrain_wrapper
    (mkRetrainCallable false false
       (fun counter _ _ _ _ => retrain_lambda (RetrainBool true) counter)).

End Examples.
(** ** Vocabulary of the properties *)

(** The iterations at which the model was fit, read off the log. *)
Definition fit_counters (tr : list Event) : list nat :=
  flat_map (fun e => match e with FitCall c _ _ _ _ => [c] | _ => [] end) tr.

(** What [(not self._fit_called) or retrain_func(...)] evaluates to at one
    iteration, given the flag. *)
Definition retrain_decision (rf : RetrainCallable) (a : Args) (counter : nat)
    (pred_time : Z) (fit_called : bool) : Outcome bool :=
  if negb fit_called then Ok true
  else
    obind (retrain_future_window rf a pred_time) (fun fw =>
      Ok (call rf counter pred_time
            (build_train (series a) (train_length a) pred_time)
            (retrain_past_window rf a pred_time) fw)).


Definition is_last_point (k : Kept) : bool :=
  match k with LastPoint _ _ => true | Whole _ => false end.

(** The same arguments with another [retrain]. *)
Definition with_retrain (a : Args) (r : Retrain) : Args :=
  mkArgs (series a) (past_covariates a) (future_covariates a) (num_samples a)
    (train_length a) (start a) (forecast_horizon a) (stride a) r
    (overlap_end a) (last_points_only a).







(** The calls to [predict], read off the log: counter, prediction time,
    horizon and series. *)
Definition predict_calls (tr : list Event) : list (nat * Z * Z * TimeSeries) :=
  flat_map
    (fun e => match e with
              | PredictCall c t n s _ _ _ => [(c, t, n, s)]
              | _ => []
              end) tr.

(** Whether the retrain function asks for a fit at iteration [fst ct], of
    prediction time [snd ct], on a model that has been fit. *)
Definition callable_says (rf : RetrainCallable) (a : Args) (ct : nat * Z) : bool :=
  match retrain_decision rf a (fst ct) (snd ct) true with
  | Ok true => true
  | _ => false
  end.

(** ** ModelMeta: the parameters recorded at model creation *)

Module ModelMeta.

Section Call.

(** The values that are passed to a constructor. *)
Variable V : Type.

(** An [OrderedDict] from parameter names to values; [None] stands for the
    marker [inspect.Parameter.empty] of a parameter without default. *)
Definition OrderedDict : Type := list (string * option V).

(** [d[k]], when [k] is a key. *)
Fixpoint od_get (k : string) (d : OrderedDict) : option (option V) :=
  match d with
  | [] => None
  | (k', v) :: t => if String.eqb k k' then Some v else od_get k t
  end.

(** [d[k] = v]: an existing key keeps its place, a new key goes last. *)
Fixpoint od_set (k : string) (v : option V) (d : OrderedDict) : OrderedDict :=
  match d with
  | [] => [(k, v)]
  | (k', v') :: t =>
      if String.eqb k k' then (k, v) :: t else (k', v') :: od_set k v t
  end.

(** [d.pop(k)] *)
Fixpoint od_pop (k : string) (d : OrderedDict) : OrderedDict :=
  match d with
  | [] => []
  | (k', v') :: t => if String.eqb k k' then t else (k', v') :: od_pop k t
  end.

Definition is_empty (v : option V) : bool :=
  match v with None => true | Some _ => false end.

(** [ModelMeta.__call__], lines 67-97: what is stored in [_model_call] and
    passed on to [__init__].  [sig] is the signature of [__init__], with
    the defaults; [args] and [kwargs] are the arguments of the call. *)
Definition __call__ (sig : list (string * option V)) (args : list V)
    (kwargs : list (string * V)) : OrderedDict :=
  (* 1) all default values from the signature *)
  let all_params : OrderedDict :=
    filter (fun p => negb (String.eqb (fst p) "self")) sig in
  (* 2) fill params with positional args *)
  let all_params :=
    fold_left (fun d pa => od_set (fst pa) (Some (snd pa)) d)
      (combine (map fst all_params) args) all_params in
  (* 3) remove args which were not set *)
  let remove_params := map fst (filter (fun kv => is_empty (snd kv)) all_params) in
  let all_params := fold_left (fun d param => od_pop param d) remove_params all_params in
  (* 4) update with the keyword arguments *)
  fold_left (fun d kv => od_set (fst kv) (Some (snd kv)) d) kwargs all_params.

(** The parameters of the signature, without [self]. *)
Definition parameters (sig : list (string * option V)) : list (string * option V) :=
  filter (fun p => negb (String.eqb (fst p) "self")) sig.

(** The value a keyword dictionary gives to [k]. *)
Fixpoint kw_get (k : string) (kwargs : list (string * V)) : option V :=
  match kwargs with
  | [] => None
  | (k', v) :: t => if String.eqb k k' then Some v else kw_get k t
  end.

End Call.

Arguments od_get {V} _ _.
Arguments od_set {V} _ _ _.
Arguments od_pop {V} _ _.
Arguments is_empty {V} _.
Arguments __call__ {V} _ _ _.
Arguments parameters {V} _.
Arguments kw_get {V} _ _.

End ModelMeta.

(** ** gridsearch *)

Module Gridsearch.

(** [itertools.product] of the lists: the last list varies fastest. *)
Fixpoint product {A : Type} (lists : list (list A)) : list (list A) :=
  match lists with
  | [] => [[]]
  | l :: rest => flat_map (fun x => map (cons x) (product rest)) l
  end.

(** Modelled from the spec: [_parallel_apply] is defined in [darts.utils].
    It evaluates the function on every element and returns the results in
    the order of the elements; an evaluation that raises ends the search. *)
Fixpoint _parallel_apply {A B : Type} (fn : A -> Outcome B) (iterator : list A)
    : Outcome (list B) :=
  match iterator with
  | [] => Ok []
  | x :: rest =>
      obind (fn x) (fun y =>
      obind (_parallel_apply fn rest) (fun ys => Ok (y :: ys)))
  end.

(** [min(errors)] on numbers, any two of which compare: the first of the
    smallest elements; an empty list is an error.  (An error that is
    not-a-number has no place among the rationals of this development.) *)
Definition py_min (errors : list Q) : Outcome Q :=
  match errors with
  | [] => Raise (ValueError "min() arg is an empty sequence")
  | x :: rest => Ok (fold_left (fun m y => if Qle_bool m y then m else y) rest x)
  end.

(** [errors.index(x)]: the first position whose element equals [x]. *)
Fixpoint py_list_index (x : Q) (errors : list Q) : Outcome nat :=
  match errors with
  | [] => Raise (ValueError "x is not in list")
  | y :: rest => if Qeq_bool y x then Ok O else omap S (py_list_index x rest)
  end.

(** [float(error)] on what [backtest] returned. *)
Definition py_float (sc : Score) : Outcome Q :=
  match sc with
  | Scalar x => Ok x
  | _ => Raise (TypeError "float() argument must be a string or a real number")
  end.

Definition set_kw {V : Type} (k : string) (v : V) (d : list (string * V))
    : list (string * V) :=
  map (fun kv => if String.eqb (fst kv) k then (k, v) else kv) d.

Section Search.

(** The values of the hyper-parameters, with their truthiness, and the
    model name prefixed with the time of the evaluation. *)
Variable V : Type.
Variable truthy_value : V -> bool.
Variable stamp : V -> V.

Variable St : Type.

(** A model class: what calling [model_class] on the parameters builds,
    the state of the new instance, and its [fitted_values] once fit, if it
    has any. *)
Record ModelClass : Type := mkModelClass {
  construct : list (string * V) -> ForecastingModel St;
  initial_state : list (string * V) -> St;
  has_fitted_values : bool;
  fitted_values : St -> list Row
}.

Variable model_class : ModelClass.
Variable parameters : list (string * list V).
Variable series : TimeSeries.
Variable past_covariates : option TimeSeries.
Variable future_covariates : option TimeSeries.
Variable forecast_horizon : option Z.
Variable stride : Z.
Variable start : Start.
Variable last_points_only : bool.
Variable val_series : option TimeSeries.
Variable use_fitted_values : bool.
Variable metric : Metric.
Variable reduction : option (list Q -> Q).
Variable n_random_samples : option NRandomSamples.

(** The random numbers that [sample] consumes. *)
Variable rnd : list nat.

(** [dict(list(zip(parameters.keys(), param_combination)))] *)
Definition param_dict (param_combination : list V) : list (string * V) :=
  combine (map fst parameters) param_combination.

(** Lines 839-880. *)
Definition _evaluate_combination (param_combination : list V) : Outcome Q :=
  let param_combination_dict := param_dict param_combination in
  let param_combination_dict :=
    match ModelMeta.kw_get "model_name" param_combination_dict with
    | Some name =>
        if truthy_value name
        then set_kw "model_name" (stamp name) param_combination_dict
        else param_combination_dict
    | None => param_combination_dict
    end in
  let model := construct model_class param_combination_dict in
  let fresh := initial_state model_class param_combination_dict in
  if use_fitted_values then
    obind (fit_wrapper model fresh series past_covariates future_covariates) (fun st =>
    obind (from_times_and_values
             (mkTimeIndex (start_time series) (freq series) (List.length (values series)))
             (fitted_values model_class st) (has_datetime_index series) [] None None)
      (fun fitted => Ok (metric series fitted)))
  else
    match val_series with
    | None =>
        match forecast_horizon with
        | Some h =>
            obind
              (snd (backtest model
                      (mkArgs series past_covariates future_covariates 1 None start h
                         stride (RetrainBool true) false last_points_only)
                      (OneMetric metric) reduction
                      (mkWorld (mkModelState false fresh) [])))
              py_float
        | None => Raise (TypeError "forecast_horizon is None")
        end
    | Some val =>
        obind (fit_wrapper model fresh series past_covariates future_covariates) (fun st =>
        obind (predict_wrapper model st (len val) series past_covariates
                 future_covariates 1)
          (fun pred => Ok (metric val pred)))
    end.

Definition b2n (b : bool) : nat := if b then 1 else 0.

Definition is_some {A : Type} (o : option A) : bool :=
  match o with Some _ => true | None => false end.

(** The number of modes that the arguments select. *)
Definition modes_selected : nat :=
  (b2n (is_some forecast_horizon) + b2n (is_some val_series) + b2n use_fitted_values)%nat.

(** [gridsearch], lines 796-894: the best parameters, an untrained model
    built from them, and their error. *)
Definition gridsearch : Outcome (ForecastingModel St * list (string * V) * Q) :=
  if negb (Nat.eqb modes_selected 1)
  then Raise (ValueError "Please pass exactly one of the arguments forecast_horizon, val_target_series or use_fitted_values.")
  else
    obind
      (if use_fitted_values then
         if has_fitted_values model_class then Ok tt
         else Raise (ValueError "The model must have a fitted_values attribute to compare with the train TimeSeries")
       else
         match val_series with
         | Some val =>
             if Nat.eqb (List.length (columns series)) (List.length (columns val))
             then Ok tt
             else Raise (ValueError "Training and validation series require the same number of components.")
         | None => Ok tt
         end) (fun _ =>
    let params_cross_product := product (map snd parameters) in
    obind (gridsearch_combinations rnd params_cross_product n_random_samples)
      (fun params_cross_product =>
    obind (_parallel_apply _evaluate_combination params_cross_product) (fun errors =>
    obind (py_min errors) (fun min_error =>
    obind (py_list_index min_error errors) (fun i =>
    obind (list_get params_cross_product (Z.of_nat i)) (fun best =>
    let best_param_combination := param_dict best in
    Ok (construct model_class best_param_combination, best_param_combination,
        min_error))))))).

End Search.

Arguments construct {V St} _ _.
Arguments initial_state {V St} _ _.
Arguments has_fitted_values {V St} _.
Arguments fitted_values {V St} _ _.

End Gridsearch.

(** ** The model classes *)

(** Modelled from the spec: [TimeSeries._assert_univariate] is defined in
    [darts.timeseries].  A series is univariate when it has one
    component. *)
Definition _assert_univariate (s : TimeSeries) : Outcome unit :=
  if Nat.eqb (List.length (columns s)) 1 then Ok tt
  else Raise (ValueError "Only univariate series are supported").

(** [FutureCovariatesLocalForecastingModel], with the methods of
    [ForecastingModel] that it inherits. *)
Module FutureCovariatesLocal.

(** The attributes of an instance; [learnt] is what [_fit] keeps. *)
Module Self.
Record t (St : Type) : Type := mk {
  training_series : option TimeSeries;
  _fit_called : bool;
  _expect_covariate : bool;
  learnt : St
}.
Arguments mk {St} _ _ _ _.
Arguments training_series {St} _.
Arguments _fit_called {St} _.
Arguments _expect_covariate {St} _.
Arguments learnt {St} _.
End Self.

Section Class.

Variable St : Type.

(** Three operations of [darts.timeseries] that the class uses, and that
    are taken as they come: whether two series have the same time index,
    the part of a series on the times of another, and the slice of a series
    between two times. *)
Variable has_same_time_as : TimeSeries -> TimeSeries -> bool.
Variable slice_intersect : TimeSeries -> TimeSeries -> TimeSeries.
Variable slice_times : TimeSeries -> Z -> Z -> TimeSeries.

(** What a concrete subclass provides; [_fit] and [_predict] read the
    instance, and [_fit] gives what the instance has learnt. *)
Record Subclass : Type := mkSubclass {
  min_train_series_length : Z;
  _supports_range_index : Outcome bool;
  _is_probabilistic : bool;
  _fit : Self.t St -> TimeSeries -> option TimeSeries -> Outcome St;
  _predict : Self.t St -> Z -> option TimeSeries -> Z -> Outcome TimeSeries
}.

Variable C : Subclass.

(** [ForecastingModel.fit], lines 136-148.  An instance of this class skips
    the univariate check. *)
Definition base_fit (is_future_covariates_local : bool) (self : Self.t St)
    (series : TimeSeries) : Self.t St * Outcome unit :=
  match (if is_future_covariates_local then Ok tt else _assert_univariate series) with
  | Ok _ =>
      if len series <? min_train_series_length C
      then (self, Raise (ValueError "Train series only contains too few elements"))
      else
        let self :=
          Self.mk (Some series) true (Self._expect_covariate self) (Self.learnt self) in
        if negb (has_datetime_index series)
        then
          match _supports_range_index C with
          | Ok _ => (self, Ok tt)
          | Raise e => (self, Raise e)
          | Diverge => (self, Diverge)
          end
        else (self, Ok tt)
  | Raise e => (self, Raise e)
  | Diverge => (self, Diverge)
  end.

(** [ForecastingModel.predict], lines 200-216. *)
Definition base_predict (self : Self.t St) (n : Z) (num_samples : Z) : Outcome unit :=
  if negb (Self._fit_called self)
  then Raise (ValueError "The model must be fit before calling predict().")
  else if negb (_is_probabilistic C) && (num_samples >? 1)
  then Raise (ValueError "num_samples > 1 is only supported for probabilistic models.")
  else Ok tt.

(** [fit], lines 1442-1457.  The instance is returned with the outcome:
    what was assigned before an exception stays assigned. *)
Definition fit (self : Self.t St) (series : TimeSeries)
    (future_covariates : option TimeSeries) : Self.t St * Outcome unit :=
  let checked :=
    match future_covariates with
    | Some fc =>
        let fc :=
          if negb (has_same_time_as series fc) then slice_intersect fc series else fc in
        if has_same_time_as series fc
        then
          (Self.mk (Self.training_series self) (Self._fit_called self) true
             (Self.learnt self), Ok (Some fc))
        else (self, Raise (ValueError "The provided future_covariates series must contain at least the same time steps/indices as the target series."))
    | None => (self, Ok None)
    end in
  match checked with
  | (self, Ok fc) =>
      match base_fit true self series with
      | (self, Ok _) =>
          match _fit C self series fc with
          | Ok st =>
              (Self.mk (Self.training_series self) (Self._fit_called self)
                 (Self._expect_covariate self) st, Ok tt)
          | Raise e => (self, Raise e)
          | Diverge => (self, Diverge)
          end
      | (self, Raise e) => (self, Raise e)
      | (self, Diverge) => (self, Diverge)
      end
  | (self, Raise e) => (self, Raise e)
  | (self, Diverge) => (self, Diverge)
  end.

(** [predict], lines 1494-1541. *)
Definition predict (self : Self.t St) (n : Z) (future_covariates : option TimeSeries)
    (num_samples : Z) : Outcome TimeSeries :=
  obind (base_predict self n num_samples) (fun _ =>
  if Self._expect_covariate self && negb (Gridsearch.is_some future_covariates)
  then Raise (ValueError "The model has been trained with future_covariates variable. Some matching future_covariates variables have to be provided to predict().")
  else if negb (Self._expect_covariate self) && Gridsearch.is_some future_covariates
  then Raise (ValueError "The model has been trained without future_covariates variable, but the future_covariates parameter provided to predict() is not None.")
  else
    obind
      (match future_covariates with
       | Some fc =>
           match Self.training_series self with
           | Some training =>
               obind (end_time training) (fun e =>
               let start := e + freq training in
               obind (end_time fc) (fun fc_end =>
               if fc_end <? start
               then Raise (ValueError "the provided future_covariates series must contain at least the next n time steps/indices after the end of the target series")
               else
                 let offset := if has_datetime_index fc then n - 1 else n in
                 let fc := slice_times fc start (start + offset * freq training) in
                 if len fc =? n then Ok (Some fc)
                 else Raise (ValueError "the provided future_covariates series must contain at least the next n time steps/indices after the end of the target series")))
           | None => Raise (TypeError "training_series is None")
           end
       | None => Ok None
       end)
      (fun fc => _predict C self n fc num_samples)).

(** The class as [historical_forecasts] sees it: [_fit_wrapper] (lines
    1555-1561) and [_predict_wrapper] (lines 1563-1573) leave the past
    covariates out; retraining cannot be skipped. *)
Definition as_forecasting_model : ForecastingModel (Self.t St) :=
  mkForecastingModel (Self.t St) false (min_train_series_length C)
    (fun self series _ future_covariates =>
       match fit self series future_covariates with
       | (self', Ok _) => Ok self'
       | (_, Raise e) => Raise e
       | (_, Diverge) => Diverge
       end)
    (fun self n _ _ future_covariates num_samples =>
       predict self n future_covariates num_samples).

End Class.

Arguments min_train_series_length {St} _.
Arguments _supports_range_index {St} _.
Arguments _is_probabilistic {St} _.
Arguments _fit {St} _ _ _ _.
Arguments _predict {St} _ _ _ _ _.

End FutureCovariatesLocal.

(** [GlobalForecastingModel]: what its [fit] records and its [predict]
    checks. *)
Module GlobalModel.

(** One series or a sequence of series. *)
Inductive SeriesArg : Type :=
| Single (s : TimeSeries)
| Several (l : list TimeSeries).

Module Self.
Record t : Type := mk {
  training_series : option TimeSeries;
  static_covariates : option (list (string * Q));
  past_covariate_series : option SeriesArg;
  future_covariate_series : option SeriesArg;
  _expect_past_covariates : bool;
  _expect_future_covariates : bool;
  _fit_called : bool
}.
End Self.

(** [fit], lines 1169-1183. *)
Definition fit (self : Self.t) (series : SeriesArg)
    (past_covariates future_covariates : option SeriesArg) : Outcome Self.t :=
  match series with
  | Single s =>
      Ok (Self.mk (Some s) (TS.static_covariates s)
            (match past_covariates with
             | Some pc => Some pc
             | None => Self.past_covariate_series self
             end)
            (match future_covariates with
             | Some fc => Some fc
             | None => Self.future_covariate_series self
             end)
            (Self._expect_past_covariates self)
            (Self._expect_future_covariates self)
            true)
  | Several l =>
      obind (list_get l 0) (fun first =>
      Ok (Self.mk (Self.training_series self) (TS.static_covariates first)
            (Self.past_covariate_series self)
            (Self.future_covariate_series self)
            (Gridsearch.is_some past_covariates || Self._expect_past_covariates self)
            (Gridsearch.is_some future_covariates || Self._expect_future_covariates self)
            true))
  end.

(** The checks of [predict], lines 1236-1250, after those of
    [ForecastingModel.predict], lines 200-216. *)
Definition predict (is_probabilistic : bool) (self : Self.t) (n : Z)
    (series : option SeriesArg) (past_covariates future_covariates : option SeriesArg)
    (num_samples : Z) : Outcome unit :=
  if negb (Self._fit_called self)
  then Raise (ValueError "The model must be fit before calling predict().")
  else if negb is_probabilistic && (num_samples >? 1)
  then Raise (ValueError "num_samples > 1 is only supported for probabilistic models.")
  else if Self._expect_past_covariates self && negb (Gridsearch.is_some past_covariates)
  then Raise (ValueError "The model has been trained with past covariates. Some matching past_covariates have to be provided to predict().")
  else if Self._expect_future_covariates self
          && negb (Gridsearch.is_some future_covariates)
  then Raise (ValueError "The model has been trained with future covariates. Some matching future_covariates have to be provided to predict().")
  else Ok tt.

(** A succession of calls to [fit]. *)
Fixpoint fits (self : Self.t)
    (calls : list (SeriesArg * option SeriesArg * option SeriesArg)) : Outcome Self.t :=
  match calls with
  | [] => Ok self
  | (series, pc, fc) :: rest => obind (fit self series pc fc) (fun self' => fits self' rest)
  end.

End GlobalModel.

(** ** More example runs *)

Module MoreExamples.
Import Examples.


(** A negative [retrain], and a [train_length] of zero. *)
Definition args_negative : Args :=
  mkArgs ts5 None None 1 None (StartInt 2) 1 1 (RetrainInt (-1)) false true.

Definition args_no_window : Args :=
  mkArgs ts5 None None 1 (Some 0) (StartInt 2) 1 1 (RetrainBool true) false true.

(** A callable that asks for a fit at the odd iterations. *)
Definition at_odd : RetrainCallable :=
  mkRetrainCallable true false (fun counter _ _ _ _ => Nat.odd counter).

Definition args_at_odd : Args :=
  mkArgs ts5 (Some cov5) None 1 None (StartInt 1) 1 1 (RetrainFn at_odd) false true.

(** A constructor signature: [self], a parameter without default and one
    with a default. *)
Definition signature : list (string * option Z) :=
  [("self"%string, None); ("lags"%string, None);
   ("output_chunk_length"%string, Some 1)].

(** The value of a series at a time of its index. *)
Definition value_at (s : TimeSeries) (t : Z) : Q :=
  nth (Z.to_nat ((t - start_time s) / freq s)) (map (fun r => hd 0%Q r) (values s)) 0%Q.

(** The squared error of the first point of a forecast. *)
Definition squared_error : Metric :=
  fun actual forecast =>
    let d := (first_value actual forecast - value_at actual (start_time forecast))%Q in
    (d * d)%Q.

(** A model that forecasts the last value it is shown plus a shift. *)
Definition shifted (shift : Z) : ForecastingModel nat :=
  mkForecastingModel nat true 1
    (fun fits _ _ _ => Ok (S fits))
    (fun _ n s _ _ _ =>
       obind (end_time s) (fun e =>
       obind (list_get (values s) (-1)) (fun v =>
       Ok (with_values s (e + freq s)
             (repeat (map (fun x => (x + inject_Z shift)%Q) v) (Z.to_nat n)))))).

(** The class of these models: the shift is the hyper-parameter [shift]. *)
Definition shifted_class : Gridsearch.ModelClass Z nat :=
  Gridsearch.mkModelClass Z nat
    (fun params =>
       shifted (match ModelMeta.kw_get "shift" params with Some k => k | None => 0 end))
    (fun _ => O) false (fun _ => []).

Definition grid : list (string * list Z) :=
  [("shift"%string, [2; 0; 1]); ("unused"%string, [7])].

(** A search in expanding-window mode, on the whole grid. *)
Definition search_expanding (parameters : list (string * list Z))
    : Outcome (ForecastingModel nat * list (string * Z) * Q) :=
  Gridsearch.gridsearch Z (fun v => negb (v =? 0)) (fun v => v) nat shifted_class
    parameters ts5 None None (Some 1) 1 (StartInt 2) false None false squared_error
    (Some np_mean) None [].

(** The operations on series used by the local models, on regular
    indexes. *)
Definition same_time (s1 s2 : TimeSeries) : bool :=
  (start_time s1 =? start_time s2) && (freq s1 =? freq s2) && (len s1 =? len s2).

Definition between (s : TimeSeries) (first final : Z) : TimeSeries :=
  let lo := Z.to_nat (cdiv (first - start_time s) (freq s)) in
  let hi := Z.to_nat ((final - start_time s) / freq s + 1) in
  with_values s (start_time s + Z.of_nat lo * freq s)
    (skipn lo (firstn hi (values s))).

Definition on_times_of (s other : TimeSeries) : TimeSeries :=
  match end_time other with
  | Ok e => between s (start_time other) e
  | _ => s
  end.

(** A local model with future covariates that needs three points and
    forecasts the last value of its training series. *)
Definition last_value_class : FutureCovariatesLocal.Subclass unit :=
  FutureCovariatesLocal.mkSubclass unit 3 (Ok true) false
    (fun _ _ _ => Ok tt)
    (fun self n _ _ =>
       match FutureCovariatesLocal.Self.training_series self with
       | Some s =>
           obind (end_time s) (fun e =>
           obind (list_get (values s) (-1)) (fun v =>
           Ok (with_values s (e + freq s) (repeat v (Z.to_nat n)))))
       | None => Raise (ValueError "not fit")
       end).

Definition new_instance : FutureCovariatesLocal.Self.t unit :=
  FutureCovariatesLocal.Self.mk None false false tt.

Definition new_global : GlobalModel.Self.t :=
  GlobalModel.Self.mk None None None None false false false.

End MoreExamples.

(** [l] is made of the elements at distinct positions of [population]: a
    selection without repeats. *)
Definition drawn_from {A : Type} (population l : list A) : Prop :=
  exists positions : list nat,
    NoDup positions /\
    Forall2 (fun i x => nth_error population i = Some x) positions l.

(** The forecast origin of an iteration: the end of its training window.
    The training series stops one step before the prediction time
    ([drop_after] leaves the prediction time out), and the forecast starts
    immediately after it, at the prediction time. *)
Definition forecast_origin (a : Args) (pred_time : Z) : Z :=
  pred_time - freq (series a).

(** The state of the model after fitting it, in order, at the given
    iterations, each time on the training series of the prediction time
    and with the covariates of the run. *)
Fixpoint fit_at {St : Type} (M : ForecastingModel St) (a : Args) (its : list (nat * Z))
    (st : St) : Outcome St :=
  match its with
  | [] => Ok st
  | (_, pred_time) :: rest =>
      obind (fit_wrapper M st (build_train (series a) (train_length a) pred_time)
               (past_covariates a) (future_covariates a))
            (fit_at M a rest)
  end.

(** The model with which an iteration predicts: fit on the training series
    when the retrain decision says so, as the iteration found it
    otherwise. *)
Definition model_after_fit {St : Type} (M : ForecastingModel St) (rf : RetrainCallable)
    (a : Args) (counter : nat) (pred_time : Z) (m : ModelState St)
    : Outcome (ModelState St) :=
  obind (retrain_decision rf a counter pred_time (_fit_called m)) (fun go =>
    if go : bool
    then omap (mkModelState true)
           (fit_wrapper M (learnt m) (build_train (series a) (train_length a) pred_time)
              (past_covariates a) (future_covariates a))
    else Ok m).

(** The models with which the iterations of a run predict, one after the
    other. *)
Fixpoint models_along {St : Type} (M : ForecastingModel St) (rf : RetrainCallable)
    (a : Args) (counter : nat) (pred_times : list Z) (m : ModelState St)
    : Outcome (list (ModelState St)) :=
  match pred_times with
  | [] => Ok []
  | pred_time :: rest =>
      obind (model_after_fit M rf a counter pred_time m) (fun m' =>
        omap (cons m') (models_along M rf a (S counter) rest m'))
  end.

(** [forecast] is what [predict] returns at [pred_time] on the model [m]:
    [forecast_horizon] steps from the training series of that time. *)
Definition predicted_by {St : Type} (M : ForecastingModel St) (a : Args)
    (m : ModelState St) (pred_time : Z) (forecast : TimeSeries) : Prop :=
  predict_wrapper M (learnt m) (forecast_horizon a)
    (build_train (series a) (train_length a) pred_time)
    (past_covariates a) (future_covariates a) (num_samples a) = Ok forecast.

(** What an iteration keeps of its forecast. *)
Definition kept_of (a : Args) (forecast : TimeSeries) (k : Kept) : Prop :=
  if last_points_only a
  then exists t v, k = LastPoint t v /\
                   end_time forecast = Ok t /\ list_get (values forecast) (-1) = Ok v
  else k = Whole forecast.

(** * Properties *)

(** ** Series and windows *)





(** ** The prediction times *)

Lemma extend_pred_times_bound (fuel : nat) (step last_valid cur : Z) (rest : list Z) :
  extend_pred_times fuel step last_valid cur = Some rest ->
  Forall (fun t => t < last_valid) (removelast (cur :: rest)).
Proof.
  revert cur rest. induction fuel as [|fuel IH]; intros cur rest H; simpl in H.
  - destruct (cur <? last_valid); [discriminate|]. injection H as <-. constructor.
  - destruct (cur <? last_valid) eqn:Hc.
    + destruct (extend_pred_times fuel step last_valid (cur + step)) as [r|] eqn:Hr;
        [|discriminate].
      injection H as <-. apply IH in Hr.
      change (removelast (cur :: (cur + step) :: r))
        with (cur :: removelast ((cur + step) :: r)).
      constructor; [lia | exact Hr].
    + injection H as <-. constructor.
Qed.

(** The loop stops within the fuel it is given when the step is positive. *)
Lemma extend_pred_times_fuel (fuel : nat) (step last_valid cur : Z) :
  0 < step -> (Z.to_nat (last_valid - cur) <= fuel)%nat ->
  exists rest, extend_pred_times fuel step last_valid cur = Some rest.
Proof.
  intros Hs. revert cur. induction fuel as [|fuel IH]; intros cur Hf; simpl.
  - destruct (cur <? last_valid) eqn:Hc; [lia | eauto].
  - destruct (cur <? last_valid) eqn:Hc; [|eauto].
    destruct (IH (cur + step)) as [r Hr]; [lia|]. rewrite Hr. eauto.
Qed.

Lemma build_pred_times_terminates (step last_valid start : Z) :
  0 < step -> exists l, build_pred_times step last_valid start = Ok l.
Proof.
  intros Hs. unfold build_pred_times.
  destruct (extend_pred_times_fuel (Z.to_nat (last_valid - start)) step last_valid start Hs)
    as [r Hr]; [lia|].
  rewrite Hr. eauto.
Qed.

Lemma removelast_last_split (l : list Z) :
  l <> [] -> l = removelast l ++ [last l 0].
Proof. intros H. now apply app_removelast_last. Qed.

(** No prediction time lies after the last valid one. *)
Lemma build_pred_times_bound (step last_valid start : Z) (l : list Z) :
  build_pred_times step last_valid start = Ok l ->
  Forall (fun t => t <= last_valid) l.
Proof.
  unfold build_pred_times.
  destruct (extend_pred_times _ step last_valid start) as [rest|] eqn:He;
    [|discriminate].
  apply extend_pred_times_bound in He.
  assert (Hne : start :: rest <> []) by discriminate.
  remember (start :: rest) as pts eqn:Hpts. clear Hpts.
  cbv zeta. intros H. injection H as <-.
  assert (Hrl : Forall (fun t => t <= last_valid) (removelast pts)).
  { eapply Forall_impl; [|exact He]. simpl; intros; lia. }
  destruct (last pts 0 >? last_valid) eqn:Hl; [exact Hrl|].
  rewrite (removelast_last_split pts Hne).
  apply Forall_app. split; [exact Hrl|]. constructor; [lia | constructor].
Qed.

(** The list is empty exactly when the start is already too late. *)
Lemma build_pred_times_empty (step last_valid start : Z) :
  build_pred_times step last_valid start = Ok [] <-> last_valid < start.
Proof.
  unfold build_pred_times. split.
  - destruct (extend_pred_times _ step last_valid start) as [rest|] eqn:He;
      [|discriminate].
    cbv zeta. destruct rest as [|x r].
    + simpl. destruct (start >? last_valid) eqn:Hg; [lia | discriminate].
    + change (removelast (start :: x :: r)) with (start :: removelast (x :: r)).
      destruct (last (start :: x :: r) 0 >? last_valid); discriminate.
  - intros Hlt. replace (Z.to_nat (last_valid - start)) with O by lia. simpl.
    destruct (start <? last_valid) eqn:Hc; [lia|]. simpl.
    destruct (start >? last_valid) eqn:Hg; [reflexivity | lia].
Qed.

Lemma extend_pred_times_progression (fuel : nat) (step last_valid cur : Z) (rest : list Z) :
  extend_pred_times fuel step last_valid cur = Some rest ->
  cur :: rest =
  map (fun i => cur + Z.of_nat i * step) (seq 0 (S (List.length rest))).
Proof.
  revert cur rest. induction fuel as [|fuel IH]; intros cur rest H; simpl in H.
  - destruct (cur <? last_valid); [discriminate|]. injection H as <-.
    simpl. f_equal. lia.
  - destruct (cur <? last_valid).
    + destruct (extend_pred_times fuel step last_valid (cur + step)) as [r|] eqn:Hr;
        [|discriminate].
      injection H as <-. apply IH in Hr. rewrite Hr at 1.
      change (seq 0 (S (List.length ((cur + step) :: r))))
        with (0%nat :: seq 1 (S (List.length r))).
      rewrite <- seq_shift, map_cons, map_map. f_equal; [lia|].
      apply map_ext. intros i. lia.
    + injection H as <-. simpl. f_equal. lia.
Qed.

(** The prediction times start at [start] and are [step] apart. *)
Lemma build_pred_times_progression (step last_valid start : Z) (l : list Z) :
  build_pred_times step last_valid start = Ok l ->
  l = map (fun i => start + Z.of_nat i * step) (seq 0 (List.length l)).
Proof.
  unfold build_pred_times.
  destruct (extend_pred_times _ step last_valid start) as [rest|] eqn:He;
    [|discriminate].
  apply extend_pred_times_progression in He. cbv zeta.
  remember (List.length rest) as n eqn:Hn.
  assert (Hlen : List.length (start :: rest) = S n) by (simpl; congruence).
  remember (start :: rest) as pts eqn:Hpts. clear Hpts Hn rest.
  destruct (last pts 0 >? last_valid); intros H; injection H as <-.
  - subst pts. rewrite seq_S, map_app. cbn [map].
    rewrite removelast_last, length_map, length_seq. reflexivity.
  - rewrite Hlen. exact He.
Qed.

Lemma py_index_spec (n i j : Z) :
  py_index n i = Some j ->
  (0 <= i < n /\ j = i) \/ (- n <= i < 0 /\ j = n + i).
Proof.
  unfold py_index.
  destruct ((0 <=? i) && (i <? n)) eqn:H1.
  - intros H; injection H as <-. left. lia.
  - destruct ((- n <=? i) && (i <? 0)) eqn:H2; [|discriminate].
    intros H; injection H as <-. right. lia.
Qed.

Lemma time_index_spec (s : TimeSeries) (i t : Z) :
  time_index s i = Ok t ->
  exists j, py_index (len s) i = Some j /\ t = start_time s + j * freq s.
Proof.
  unfold time_index. destruct (py_index (len s) i) as [j|]; [|discriminate].
  intros H; injection H as <-. eauto.
Qed.

Lemma scheduled_pred_times_spec (a : Args) (l : list Z) :
  scheduled_pred_times a = Ok l ->
  exists start_ts last_valid,
    get_timestamp_at_point (series a) (start a) = Ok start_ts /\
    _get_last_prediction_time (series a) (forecast_horizon a) (overlap_end a)
      = Ok last_valid /\
    build_pred_times (freq (series a) * stride a) last_valid start_ts = Ok l.
Proof.
  unfold scheduled_pred_times.
  destruct (get_timestamp_at_point (series a) (start a)) as [ts| |]; try discriminate.
  destruct (_get_last_prediction_time _ _ _) as [lv| |]; try discriminate.
  simpl. eauto.
Qed.

Lemma time_index_returns (s : TimeSeries) (i : Z) : time_index s i <> Diverge.
Proof. unfold time_index. destruct (py_index (len s) i); discriminate. Qed.

Lemma get_timestamp_at_point_returns (s : TimeSeries) (p : Start) :
  get_timestamp_at_point s p <> Diverge.
Proof.
  destruct p as [q|i|t]; simpl.
  - destruct (Qle_bool 0 q && Qle_bool q 1 && (0 <? len s));
      [apply time_index_returns | discriminate].
  - destruct ((0 <=? i) && (i <? len s)); [apply time_index_returns | discriminate].
  - destruct (in_series s t); discriminate.
Qed.

(** A run whose step is positive has its prediction times. *)
Lemma scheduled_pred_times_terminates (a : Args) :
  0 < freq (series a) * stride a -> scheduled_pred_times a <> Diverge.
Proof.
  intros Hs. unfold scheduled_pred_times.
  pose proof (get_timestamp_at_point_returns (series a) (start a)) as Hg.
  destruct (get_timestamp_at_point (series a) (start a)) as [ts| |];
    simpl; try discriminate; [|contradiction].
  assert (Hl : _get_last_prediction_time (series a) (forecast_horizon a) (overlap_end a)
               <> Diverge).
  { unfold _get_last_prediction_time.
    destruct (overlap_end a); apply time_index_returns. }
  destruct (_get_last_prediction_time _ _ _) as [lv| |];
    simpl; try discriminate; [|contradiction].
  destruct (build_pred_times_terminates _ lv ts Hs) as [l ->]. discriminate.
Qed.

(** ** The training window *)

Lemma seq_add_map (d s n : nat) : seq (d + s) n = map (Nat.add d) (seq s n).
Proof.
  revert s. induction n as [|n IH]; intros s; simpl; [reflexivity|].
  f_equal. rewrite <- IH. f_equal. lia.
Qed.

Lemma times_last_points (s : TimeSeries) (k : Z) :
  times (last_points s k) = skipn (Z.to_nat (Z.max 0 (len s - k))) (times s).
Proof.
  unfold times, last_points. cbv zeta. simpl.
  set (d := Z.to_nat (Z.max 0 (len s - k))).
  rewrite skipn_map, skipn_seq, length_skipn.
  rewrite (Nat.add_comm 0 d), seq_add_map, map_map. apply map_ext. intros i.
  rewrite Nat2Z.inj_add. unfold d. rewrite Z2Nat.id by lia. ring.
Qed.

Lemma len_last_points (s : TimeSeries) (k : Z) :
  0 <= k -> len (last_points s k) = len s - Z.max 0 (len s - k).
Proof.
  intros Hk. unfold last_points, len. cbv zeta. simpl. rewrite length_skipn. lia.
Qed.

Lemma check_train_length_ok {St : Type} (M : ForecastingModel St) (a : Args) (l : Z) :
  check_train_length St M a = Ok tt -> train_length a = Some l -> 1 <= l.
Proof.
  unfold check_train_length. intros H Htl. rewrite Htl in H.
  destruct (l <? 1) eqn:Hl; [discriminate | lia].
Qed.

(** C6: when [train_length] is set the training series of an iteration is
    made of the trailing points of the prefix that ends at the prediction
    time, and has [min(train_length, len(prefix))] points; when it is unset
    the training series is the whole prefix. *)
Theorem build_train_window {St : Type} (M : ForecastingModel St) (a : Args) (pred_time : Z) :
  check_train_length St M a = Ok tt ->
  let prefix := drop_after (series a) pred_time in
  let train := build_train (series a) (train_length a) pred_time in
  match train_length a with
  | Some l =>
      let kept := Z.min l (len prefix) in
      len train = kept /\
      values train = skipn (Z.to_nat (len prefix - kept)) (values prefix) /\
      times train = skipn (Z.to_nat (len prefix - kept)) (times prefix)
  | None => train = prefix
  end.
Proof.
  intros Hc. cbv zeta.
  destruct (train_length a) as [l|] eqn:Htl; [|reflexivity].
  pose proof (check_train_length_ok M a l Hc Htl) as Hl.
  unfold build_train.
  set (prefix := drop_after (series a) pred_time).
  replace (l =? 0) with false by lia. simpl.
  destruct (len prefix >? l) eqn:Hgt.
  - replace (Z.min l (len prefix)) with l by lia.
    replace (len prefix - l) with (Z.max 0 (len prefix - l)) by lia.
    split; [|split].
    + rewrite len_last_points by lia. lia.
    + reflexivity.
    + apply times_last_points.
  - replace (Z.min l (len prefix)) with (len prefix) by lia.
    replace (len prefix - len prefix) with 0 by lia.
    simpl. auto.
Qed.

(** ** Errors before the first iteration *)

(** C5: when the loop of the source leaves no prediction time, the run
    raises the empty-range error before anything is done to the model. *)
Theorem empty_schedule_raises {St : Type} (M : ForecastingModel St) (a : Args)
    (m : ModelState St) :
  0 < forecast_horizon a ->
  0 < stride a ->
  scheduled_pred_times a = Ok [] ->
  run_historical_forecasts St M a m = (mkWorld m [], Raise EmptyForecastRange).
Proof.
  intros Hh Hs Hsch.
  apply scheduled_pred_times_spec in Hsch.
  destruct Hsch as (ts & lv & Hts & Hlv & Hb).
  apply build_pred_times_empty in Hb.
  unfold run_historical_forecasts, historical_forecasts, bind, lift,
    _historical_forecasts_sanity_checks.
  replace (forecast_horizon a <=? 0) with false by lia.
  replace (stride a <=? 0) with false by lia.
  rewrite Hts. simpl. rewrite Hlv.
  replace (ts >? lv) with true by lia. reflexivity.
Qed.

(** Without the sanity checks the body goes on with no prediction time:
    it returns the empty list of forecasts when whole forecasts are asked
    for. *)
Lemma body_without_pred_times {St : Type} (M : ForecastingModel St) (a : Args)
    (w : World St) (rf : RetrainCallable) :
  check_retrain_supported St M a = Ok tt ->
  check_train_length St M a = Ok tt ->
  make_retrain_func (retrain a) = Ok rf ->
  scheduled_pred_times a = Ok [] ->
  last_points_only a = false ->
  historical_forecasts_body St M a w = (w, Ok (Segments [])).
Proof.
  intros H1 H2 H3 H4 H5.
  unfold historical_forecasts_body, bind, lift.
  rewrite H1, H2, H3, H4. simpl. unfold assemble. rewrite H5. reflexivity.
Qed.

(** ** One iteration *)

Lemma fit_counters_app (l1 l2 : list Event) :
  fit_counters (l1 ++ l2) = fit_counters l1 ++ fit_counters l2.
Proof. unfold fit_counters. apply flat_map_app. Qed.

Ltac break_match :=
  match goal with
  | |- context [match ?x with _ => _ end] =>
      lazymatch x with
      | context [match _ with _ => _ end] => fail
      | _ => destruct x eqn:?
      end
  end.

Ltac unfold_eng :=
  unfold iteration, should_retrain, _fit_wrapper, _predict_wrapper,
    bind, ret, lift, emit, get_fit_called.

Section IterationFacts.

Variable St : Type.
Variable M : ForecastingModel St.

(** The fits of one iteration follow the retrain decision; an iteration
    that does not fit leaves the model as it was. *)
Lemma iteration_fit (rf : RetrainCallable) (a : Args) (c : nat) (t : Z) (w : World St) :
  let r := iteration St M rf a c t w in
  match retrain_decision rf a c t (_fit_called (model w)) with
  | Ok true =>
      fit_counters (trace (fst r)) = fit_counters (trace w) ++ [c] /\
      (forall k, snd r = Ok k -> _fit_called (model (fst r)) = true)
  | _ =>
      fit_counters (trace (fst r)) = fit_counters (trace w) /\
      model (fst r) = model w
  end.
Proof.
  cbv zeta. unfold retrain_decision. unfold_eng.
  destruct (_fit_called (model w)) eqn:Hfc; simpl.
  - destruct (retrain_future_window rf a t) as [fw| |]; simpl; auto.
    destruct (call rf c t _ _ fw); simpl;
      repeat (break_match; simpl);
      rewrite ?fit_counters_app; simpl; rewrite ?app_nil_r;
      try (split; [reflexivity | intros; try discriminate; reflexivity]);
      auto.
  - repeat (break_match; simpl);
      rewrite ?fit_counters_app; simpl; rewrite ?app_nil_r;
      try (split; [reflexivity | intros; try discriminate; reflexivity]);
      auto.
Qed.


(** What an iteration keeps depends on [last_points_only] alone. *)
Lemma iteration_kept (rf : RetrainCallable) (a : Args) (c : nat) (t : Z) (w w' : World St)
    (k : Kept) :
  iteration St M rf a c t w = (w', Ok k) ->
  is_last_point k = last_points_only a.
Proof.
  unfold_eng.
  destruct (_fit_called (model w)) eqn:Hfc; simpl.
  - destruct (retrain_future_window rf a t) as [fw| |]; simpl; try discriminate.
    destruct (call rf c t _ _ fw); simpl;
      repeat (break_match; simpl); intros H; inversion H; reflexivity.
  - repeat (break_match; simpl); intros H; inversion H; reflexivity.
Qed.

(** ** The loop *)

Lemma walk_cons (rf : RetrainCallable) (a : Args) (c : nat) (t : Z) (rest : list Z)
    (w : World St) :
  walk St M rf a c (t :: rest) w =
  match iteration St M rf a c t w with
  | (w1, Ok k) =>
      match walk St M rf a (S c) rest w1 with
      | (w2, Ok ks) => (w2, Ok (k :: ks))
      | (w2, Raise e) => (w2, Raise e)
      | (w2, Diverge) => (w2, Diverge)
      end
  | (w1, Raise e) => (w1, Raise e)
  | (w1, Diverge) => (w1, Diverge)
  end.
Proof.
  simpl. unfold bind, ret.
  destruct (iteration St M rf a c t w) as [w1 [k|e|]]; reflexivity.
Qed.

Lemma walk_kept (rf : RetrainCallable) (a : Args) (pts : list Z) :
  forall (c : nat) (w w' : World St) (ks : list Kept),
    walk St M rf a c pts w = (w', Ok ks) ->
    List.length ks = List.length pts /\
    Forall (fun k => is_last_point k = last_points_only a) ks.
Proof.
  induction pts as [|t rest IH]; intros c w w' ks H.
  - simpl in H. unfold ret in H. injection H as <- <-. split; [reflexivity | constructor].
  - rewrite walk_cons in H.
    destruct (iteration St M rf a c t w) as [w1 [k|e|]] eqn:Hit; try discriminate.
    destruct (walk St M rf a (S c) rest w1) as [w2 [ks'|e|]] eqn:Hw; try discriminate.
    injection H as <- <-.
    apply IH in Hw. destruct Hw as [Hlen Hall].
    apply iteration_kept in Hit.
    split; [simpl; congruence | constructor; assumption].
Qed.


End IterationFacts.

(** ** Retrain policies *)

Section Policies.

Variable St : Type.
Variable M : ForecastingModel St.

(** A boolean or an integer [retrain] decides by the counter alone. *)
Lemma lambda_decision (r : Retrain) (rf : RetrainCallable) (a : Args) (c : nat) (t : Z)
    (fitted : bool) :
  is_callable r = false ->
  make_retrain_func r = Ok rf ->
  retrain_decision rf a c t fitted = Ok (negb fitted || retrain_lambda r c).
Proof.
  intros Hc Hrf. unfold retrain_decision.
  destruct fitted; simpl; [|reflexivity].
  assert (H : takes_future_covariates rf = false /\
              forall tr pw fw, call rf c t tr pw fw = retrain_lambda r c).
  { destruct r as [b|k|f]; simpl in *; try discriminate.
    - injection Hrf as <-. auto.
    - destruct (0 <=? k); [|discriminate]. injection Hrf as <-. auto. }
  destruct H as [Hfut Hcall].
  unfold retrain_future_window.
  destruct (future_covariates a) as [fc|]; rewrite ?Hfut, ?andb_false_r; simpl;
    rewrite Hcall; reflexivity.
Qed.

(** A model that has never been fit is fit, whatever the policy. *)
Lemma iteration_forced_fit (rf : RetrainCallable) (a : Args) (c : nat) (t : Z)
    (w : World St) :
  _fit_called (model w) = false ->
  exists evs,
    trace (fst (iteration St M rf a c t w)) =
    trace w ++
    FitCall c t (build_train (series a) (train_length a) t)
      (past_covariates a) (future_covariates a) :: evs.
Proof.
  intros Hfc. unfold_eng. rewrite Hfc. simpl.
  repeat (break_match; simpl); rewrite <- ?app_assoc; simpl;
    eexists; reflexivity.
Qed.

(** With [retrain = k], [k >= 1], the loop fits at the counters that are
    multiples of [k]; it leaves the model fit. *)
Lemma walk_every_k (k : Z) (rf : RetrainCallable) (a : Args) (pts : list Z) :
  1 <= k ->
  make_retrain_func (RetrainInt k) = Ok rf ->
  forall (c : nat) (w w' : World St) (ks : list Kept),
    _fit_called (model w) = true \/ Z.of_nat c mod k = 0 ->
    walk St M rf a c pts w = (w', Ok ks) ->
    fit_counters (trace w') =
    fit_counters (trace w) ++
    filter (fun i => Z.of_nat i mod k =? 0) (seq c (List.length pts)).
Proof.
  intros Hk Hrf. induction pts as [|t rest IH]; intros c w w' ks Hinv H.
  - simpl in H. unfold ret in H. injection H as <- <-. simpl.
    now rewrite app_nil_r.
  - rewrite walk_cons in H.
    pose proof (iteration_fit St M rf a c t w) as Hit. cbv zeta in Hit.
    rewrite (lambda_decision (RetrainInt k) rf a c t _ eq_refl Hrf) in Hit.
    destruct (iteration St M rf a c t w) as [w1 [k1|e|]] eqn:Eit; try discriminate.
    destruct (walk St M rf a (S c) rest w1) as [w2 [ks'|e|]] eqn:Ew; try discriminate.
    injection H as <- <-. simpl in Hit.
    assert (Hlam : retrain_lambda (RetrainInt k) c = (Z.of_nat c mod k =? 0)).
    { unfold retrain_lambda. simpl. replace (k =? 0) with false by lia. reflexivity. }
    assert (Hdec : negb (_fit_called (model w)) || retrain_lambda (RetrainInt k) c
                   = (Z.of_nat c mod k =? 0)).
    { rewrite Hlam. destruct Hinv as [Hf|Hm]; [rewrite Hf; reflexivity|].
      rewrite Hm. simpl. apply orb_true_r. }
    rewrite Hdec in Hit.
    assert (Hfit1 : _fit_called (model w1) = true).
    { destruct (Z.of_nat c mod k =? 0) eqn:Hmod.
      - destruct Hit as [_ Hf]. eapply Hf; reflexivity.
      - destruct Hit as [_ Hm]. rewrite Hm.
        destruct Hinv as [Hf|Hz]; [exact Hf | lia]. }
    rewrite (IH (S c) w1 w2 ks' (or_introl Hfit1) Ew).
    simpl. destruct (Z.of_nat c mod k =? 0) eqn:Hmod.
    + destruct Hit as [-> _]. rewrite <- app_assoc. reflexivity.
    + destruct Hit as [-> _]. reflexivity.
Qed.

(** A policy that never asks for a fit leaves a fitted model alone,
    whatever the outcome of the loop. *)
Lemma walk_never_fitted (rf : RetrainCallable) (a : Args) (pts : list Z) :
  (forall c t fitted, retrain_decision rf a c t fitted = Ok (negb fitted)) ->
  forall (c : nat) (w : World St),
    _fit_called (model w) = true ->
    model (fst (walk St M rf a c pts w)) = model w /\
    fit_counters (trace (fst (walk St M rf a c pts w))) = fit_counters (trace w).
Proof.
  intros Hdec. induction pts as [|t rest IH]; intros c w Hf.
  - simpl. auto.
  - rewrite walk_cons.
    pose proof (iteration_fit St M rf a c t w) as Hit. cbv zeta in Hit.
    rewrite Hdec, Hf in Hit. simpl in Hit. destruct Hit as [Hc Hm].
    destruct (iteration St M rf a c t w) as [w1 [k1|e|]] eqn:Eit; simpl in *; auto.
    assert (Hf1 : _fit_called (model w1) = true) by (rewrite Hm; exact Hf).
    destruct (IH (S c) w1 Hf1) as [Hm2 Hc2].
    destruct (walk St M rf a (S c) rest w1) as [w2 [ks|e|]]; simpl in *;
      split; congruence.
Qed.

(** Under such a policy the only fit is the forced one, at the first
    iteration of a model that had never been fit. *)
Lemma walk_never_first (rf : RetrainCallable) (a : Args) (pts : list Z) (c : nat)
    (w : World St) :
  (forall c t fitted, retrain_decision rf a c t fitted = Ok (negb fitted)) ->
  exists l,
    fit_counters (trace (fst (walk St M rf a c pts w))) = fit_counters (trace w) ++ l /\
    (l = [] \/ (l = [c] /\ _fit_called (model w) = false)).
Proof.
  intros Hdec. destruct pts as [|t rest].
  - exists []. simpl. rewrite app_nil_r. auto.
  - destruct (_fit_called (model w)) eqn:Hf.
    + exists []. rewrite app_nil_r.
      split; [apply (walk_never_fitted rf a (t :: rest) Hdec c w Hf) | auto].
    + rewrite walk_cons.
      pose proof (iteration_fit St M rf a c t w) as Hit. cbv zeta in Hit.
      rewrite Hdec, Hf in Hit. simpl in Hit. destruct Hit as [Hc Hfit].
      exists [c]. split; [|auto].
      destruct (iteration St M rf a c t w) as [w1 [k1|e|]] eqn:Eit; simpl in *; auto.
      assert (Hf1 : _fit_called (model w1) = true) by (eapply Hfit; reflexivity).
      destruct (walk_never_fitted rf a rest Hdec (S c) w1 Hf1) as [_ Hc2].
      destruct (walk St M rf a (S c) rest w1) as [w2 [ks|e|]]; simpl in *;
        congruence.
Qed.

(** ** From the loop to the run *)

(** A run either stops in its checks, with the model untouched and nothing
    logged, or is the loop over its prediction times followed by the
    assembly. *)
Lemma run_inv (a : Args) (m : ModelState St) :
  let r := run_historical_forecasts St M a m in
  (fst r = mkWorld m [] /\ forall fs, snd r <> Ok fs) \/
  exists rf pts,
    check_retrain_supported St M a = Ok tt /\
    make_retrain_func (retrain a) = Ok rf /\
    scheduled_pred_times a = Ok pts /\
    fst r = fst (walk St M rf a 0 pts (mkWorld m [])) /\
    forall fs, snd r = Ok fs ->
      exists ks, snd (walk St M rf a 0 pts (mkWorld m [])) = Ok ks /\
                 assemble a ks = Ok fs.
Proof.
  cbv zeta.
  unfold run_historical_forecasts, historical_forecasts, historical_forecasts_body,
    bind, lift.
  destruct (_historical_forecasts_sanity_checks a) as [[]|e|];
    try (left; split; [reflexivity | discriminate]).
  destruct (check_retrain_supported St M a) as [[]|e|];
    try (left; split; [reflexivity | discriminate]).
  destruct (check_train_length St M a) as [[]|e|];
    try (left; split; [reflexivity | discriminate]).
  destruct (make_retrain_func (retrain a)) as [rf|e|];
    try (left; split; [reflexivity | discriminate]).
  destruct (scheduled_pred_times a) as [pts|e|];
    try (left; split; [reflexivity | discriminate]).
  right. exists rf, pts. repeat (split; [reflexivity|]).
  destruct (walk St M rf a 0 pts (mkWorld m [])) as [w1 [ks|e|]]; simpl;
    split; try reflexivity; try discriminate.
  intros fs Hfs. exists ks. auto.
Qed.

(** A run that returns is the loop, completed, and its assembly. *)
Lemma run_ok_inv (a : Args) (m : ModelState St) (w : World St) (fs : Forecasts) :
  run_historical_forecasts St M a m = (w, Ok fs) ->
  exists rf pts ks,
    make_retrain_func (retrain a) = Ok rf /\
    scheduled_pred_times a = Ok pts /\
    walk St M rf a 0 pts (mkWorld m []) = (w, Ok ks) /\
    assemble a ks = Ok fs.
Proof.
  intros Hrun.
  destruct (run_inv a m) as [[_ Hno]|(rf & pts & _ & Hrf & Hpts & Hw & Hfs)];
    rewrite Hrun in *; simpl in *.
  - exfalso. now apply (Hno fs).
  - destruct (Hfs fs eq_refl) as (ks & Hks & Hasm).
    exists rf, pts, ks. repeat split; try assumption.
    destruct (walk St M rf a 0 pts (mkWorld m [])) as [w1 o1].
    simpl in *. congruence.
Qed.

End Policies.

(** ** The model along the loop *)

Section ModelFacts.

Variable St : Type.
Variable M : ForecastingModel St.

(** An iteration that completes has fit the model as the retrain decision
    says, by the model's own [fit], and keeps what the model's [predict]
    returns for the model so obtained. *)
Lemma iteration_model (rf : RetrainCallable) (a : Args) (c : nat) (t : Z)
    (w w' : World St) (k : Kept) :
  iteration St M rf a c t w = (w', Ok k) ->
  model_after_fit M rf a c t (model w) = Ok (model w') /\
  _fit_called (model w') = true /\
  exists forecast, predicted_by M a (model w') t forecast /\ kept_of a forecast k.
Proof.
  unfold model_after_fit, retrain_decision, predicted_by, kept_of, omap. unfold_eng.
  destruct (_fit_called (model w)) eqn:Hfc; simpl.
  - destruct (retrain_future_window rf a t) as [fw| |]; simpl; try discriminate.
    destruct (call rf c t _ _ fw); simpl;
      repeat (break_match; simpl); intros H; inversion H; subst; simpl;
      (split; [reflexivity|]); (split; [assumption || reflexivity|]);
      eexists; (split; [eassumption|]); eauto.
  - repeat (break_match; simpl); intros H; inversion H; subst; simpl;
      (split; [reflexivity|]); (split; [reflexivity|]);
      eexists; (split; [eassumption|]); eauto.
Qed.

Lemma last_cons {A : Type} (x d : A) (l : list A) : last (x :: l) d = last l x.
Proof.
  revert x d. induction l as [|y l IH]; intros x d; [reflexivity|].
  change (last (x :: y :: l) d) with (last (y :: l) d).
  now rewrite (IH y d), (IH y x).
Qed.

(** The loop, when it completes: the model goes through [models_along],
    and what is kept comes from the model's [predict] on each of them. *)
Lemma walk_models (rf : RetrainCallable) (a : Args) (pts : list Z) :
  forall (c : nat) (w w' : World St) (ks : list Kept),
    walk St M rf a c pts w = (w', Ok ks) ->
    exists ms forecasts,
      models_along M rf a c pts (model w) = Ok ms /\
      model w' = last ms (model w) /\
      Forall2 (fun mt forecast => predicted_by M a (fst mt) (snd mt) forecast)
        (combine ms pts) forecasts /\
      Forall2 (kept_of a) forecasts ks.
Proof.
  induction pts as [|t rest IH]; intros c w w' ks H.
  - simpl in H. unfold ret in H. injection H as <- <-.
    exists [], []. repeat split; constructor.
  - rewrite walk_cons in H.
    destruct (iteration St M rf a c t w) as [w1 [k1|e|]] eqn:Eit; try discriminate.
    destruct (walk St M rf a (S c) rest w1) as [w2 [ks'|e|]] eqn:Ew; try discriminate.
    injection H as <- <-.
    apply iteration_model in Eit. destruct Eit as (Hm & _ & f & Hf & Hk).
    apply IH in Ew. destruct Ew as (ms & fcs & Hms & Hlast & Hp & Hks).
    exists (model w1 :: ms), (f :: fcs). repeat split.
    + simpl. rewrite Hm. simpl. rewrite Hms. reflexivity.
    + rewrite last_cons. exact Hlast.
    + simpl. constructor; assumption.
    + constructor; assumption.
Qed.

(** When the retrain decisions of a run are those of [dec], the model at
    the end is the model at the start, fit at the iterations [dec]
    selects. *)
Lemma models_along_fit_at (dec : nat * Z -> bool) (rf : RetrainCallable) (a : Args)
    (pts : list Z) :
  (forall c t go, retrain_decision rf a c t true = Ok go -> go = dec (c, t)) ->
  forall (c : nat) (m : ModelState St) (ms : list (ModelState St)),
    (forall t go, retrain_decision rf a c t (_fit_called m) = Ok go -> go = dec (c, t)) ->
    models_along M rf a c pts m = Ok ms ->
    fit_at M a (filter dec (combine (seq c (List.length pts)) pts)) (learnt m)
      = Ok (learnt (last ms m)) /\
    (pts <> [] -> _fit_called (last ms m) = true).
Proof.
  intros Hlater. induction pts as [|t rest IH]; intros c m ms Hfirst H.
  - simpl in H. injection H as <-. simpl. split; [reflexivity | congruence].
  - simpl in H. unfold model_after_fit in H.
    destruct (retrain_decision rf a c t (_fit_called m)) as [go| |] eqn:Hdec;
      try discriminate.
    pose proof (Hfirst t go Hdec) as Hgo. simpl in H.
    assert (Hstep : exists m1 ms',
               ms = m1 :: ms' /\ _fit_called m1 = true /\
               models_along M rf a (S c) rest m1 = Ok ms' /\
               (if dec (c, t)
                then fit_wrapper M (learnt m)
                       (build_train (series a) (train_length a) t)
                       (past_covariates a) (future_covariates a) = Ok (learnt m1)
                else m1 = m)).
    { rewrite <- Hgo. destruct go.
      - unfold omap in H.
        destruct (fit_wrapper M (learnt m) _ _ _) as [s'| |]; try discriminate.
        simpl in H.
        destruct (models_along M rf a (S c) rest _) as [ms'| |] eqn:Hms; try discriminate.
        injection H as <-. eexists; eexists. repeat split; eauto.
      - unfold omap in H. simpl in H.
        destruct (models_along M rf a (S c) rest m) as [ms'| |] eqn:Hms; try discriminate.
        injection H as <-. exists m, ms'. repeat split; auto.
        unfold retrain_decision in Hdec.
        destruct (_fit_called m); [reflexivity | discriminate]. }
    destruct Hstep as (m1 & ms' & -> & Hf1 & Hms & Hm1).
    assert (Hfirst1 : forall t' go',
               retrain_decision rf a (S c) t' (_fit_called m1) = Ok go' ->
               go' = dec (S c, t')).
    { rewrite Hf1. intros t' go'. apply Hlater. }
    destruct (IH (S c) m1 ms' Hfirst1 Hms) as [Hfit Hflag].
    rewrite last_cons. split.
    + cbn [List.length seq combine filter].
      destruct (dec (c, t)).
      * cbn [fit_at]. rewrite Hm1. simpl. exact Hfit.
      * subst m1. exact Hfit.
    + intros _. destruct rest as [|t' rest'].
      * simpl in Hms. injection Hms as <-. exact Hf1.
      * apply Hflag. discriminate.
Qed.

(** The first [fit] of a model: its outcome is the outcome of the
    iteration when it fails, and the model of the iteration when it
    succeeds. *)
Lemma iteration_first_fit (rf : RetrainCallable) (a : Args) (c : nat) (t : Z)
    (w : World St) :
  _fit_called (model w) = false ->
  let fit := fit_wrapper M (learnt (model w))
               (build_train (series a) (train_length a) t)
               (past_covariates a) (future_covariates a) in
  (forall e, fit = Raise e -> snd (iteration St M rf a c t w) = Raise e) /\
  (forall w' k, iteration St M rf a c t w = (w', Ok k) ->
                fit = Ok (learnt (model w')) /\ _fit_called (model w') = true).
Proof.
  intros Hfc. cbv zeta. split.
  - intros e He. unfold_eng. rewrite Hfc. simpl. rewrite He. reflexivity.
  - intros w' k Hit. apply iteration_model in Hit.
    destruct Hit as (Hm & Hf & _). split; [|exact Hf].
    unfold model_after_fit, retrain_decision in Hm. rewrite Hfc in Hm. simpl in Hm.
    unfold omap in Hm.
    destruct (fit_wrapper M (learnt (model w)) _ _ _) as [s'| |]; try discriminate.
    simpl in Hm. injection Hm as <-. reflexivity.
Qed.

End ModelFacts.

(** ** The claims about retraining *)

(** C3: with an integer [retrain = k], [k >= 1], a run that completes has
    fit the model exactly at the iterations [0, k, 2k, ...]: these are the
    calls to [fit] of the run, and the model it leaves is the model it
    found, fit by the model's own [fit] at these iterations, in order, each
    time on the training series of the prediction time.  And an iteration
    that finds the model never fit fits it, whatever the retrain function
    is: [fit] is called, its error is the error of the iteration, and when
    the iteration completes the model is what [fit] returned. *)
Theorem retrain_every_k {St : Type} (M : ForecastingModel St) (a : Args)
    (m : ModelState St) (k : Z) (w : World St) (fs : Forecasts) (pts : list Z) :
  1 <= k ->
  retrain a = RetrainInt k ->
  run_historical_forecasts St M a m = (w, Ok fs) ->
  scheduled_pred_times a = Ok pts ->
  fit_counters (trace w) =
    filter (fun i => Z.of_nat i mod k =? 0) (seq 0 (List.length pts))
  /\
  fit_at M a
    (filter (fun ct => Z.of_nat (fst ct) mod k =? 0)
       (combine (seq 0 (List.length pts)) pts))
    (learnt m) = Ok (learnt (model w))
  /\
  (pts <> [] -> _fit_called (model w) = true)
  /\
  (forall (rf : RetrainCallable) (a' : Args) (c : nat) (t : Z) (w0 : World St),
      _fit_called (model w0) = false ->
      let fit := fit_wrapper M (learnt (model w0))
                   (build_train (series a') (train_length a') t)
                   (past_covariates a') (future_covariates a') in
      (exists evs,
          trace (fst (iteration St M rf a' c t w0)) =
          trace w0 ++
          FitCall c t (build_train (series a') (train_length a') t)
            (past_covariates a') (future_covariates a') :: evs) /\
      (forall e, fit = Raise e -> snd (iteration St M rf a' c t w0) = Raise e) /\
      (forall w1 k1, iteration St M rf a' c t w0 = (w1, Ok k1) ->
                     fit = Ok (learnt (model w1)) /\ _fit_called (model w1) = true)).
Proof.
  intros Hk Hr Hrun Hpts.
  assert (Hforced :
    forall (rf : RetrainCallable) (a' : Args) (c : nat) (t : Z) (w0 : World St),
      _fit_called (model w0) = false ->
      let fit := fit_wrapper M (learnt (model w0))
                   (build_train (series a') (train_length a') t)
                   (past_covariates a') (future_covariates a') in
      (exists evs,
          trace (fst (iteration St M rf a' c t w0)) =
          trace w0 ++
          FitCall c t (build_train (series a') (train_length a') t)
            (past_covariates a') (future_covariates a') :: evs) /\
      (forall e, fit = Raise e -> snd (iteration St M rf a' c t w0) = Raise e) /\
      (forall w1 k1, iteration St M rf a' c t w0 = (w1, Ok k1) ->
                     fit = Ok (learnt (model w1)) /\ _fit_called (model w1) = true)).
  { intros rf a' c t w0 Hfc. cbv zeta.
    split; [now apply iteration_forced_fit|].
    exact (iteration_first_fit St M rf a' c t w0 Hfc). }
  destruct (run_ok_inv St M a m w fs Hrun) as (rf & pts' & ks & Hrf & Hpts' & Hw & _).
  rewrite Hpts in Hpts'. injection Hpts' as <-. rewrite Hr in Hrf.
  assert (Hlam : forall c, retrain_lambda (RetrainInt k) c = (Z.of_nat c mod k =? 0)).
  { intros c. unfold retrain_lambda. simpl.
    replace (k =? 0) with false by lia. reflexivity. }
  split; [|split; [|split; [|exact Hforced]]].
  - apply (walk_every_k St M k rf a pts Hk Hrf) in Hw; [exact Hw|].
    right. reflexivity.
  - apply walk_models in Hw. destruct Hw as (ms & fcs & Hms & Hlast & _).
    simpl in Hms, Hlast. rewrite Hlast.
    refine (proj1 (models_along_fit_at St M _ rf a pts _ 0%nat m ms _ Hms)).
    + intros c t go Hgo.
      rewrite (lambda_decision (RetrainInt k) rf a c t true eq_refl Hrf) in Hgo.
      injection Hgo as <-. simpl. apply Hlam.
    + intros t go Hgo.
      rewrite (lambda_decision (RetrainInt k) rf a 0%nat t _ eq_refl Hrf) in Hgo.
      injection Hgo as <-. rewrite Hlam. simpl.
      apply orb_true_r.
  - apply walk_models in Hw. destruct Hw as (ms & fcs & Hms & Hlast & _).
    simpl in Hms, Hlast. rewrite Hlast.
    refine (proj2 (models_along_fit_at St M
                     (fun ct => Z.of_nat (fst ct) mod k =? 0) rf a pts _ 0%nat m ms _ Hms)).
    + intros c t go Hgo.
      rewrite (lambda_decision (RetrainInt k) rf a c t true eq_refl Hrf) in Hgo.
      injection Hgo as <-. simpl. apply Hlam.
    + intros t go Hgo.
      rewrite (lambda_decision (RetrainInt k) rf a 0%nat t _ eq_refl Hrf) in Hgo.
      injection Hgo as <-. rewrite Hlam. simpl.
      apply orb_true_r.
Qed.

(** C9: with [retrain = False] on a model that has been fit, a run never
    fits and leaves the model as it found it, so that running again on the
    same arguments gives the same log and the same result. *)
Theorem no_retrain_idempotent {St : Type} (M : ForecastingModel St) (a : Args)
    (m : ModelState St) (w : World St) (out : Outcome Forecasts) :
  retrain a = RetrainBool false ->
  _fit_called m = true ->
  run_historical_forecasts St M a m = (w, out) ->
  model w = m /\
  fit_counters (trace w) = [] /\
  run_historical_forecasts St M a (model w) = (w, out).
Proof.
  intros Hr Hf Hrun.
  assert (H : model w = m /\ fit_counters (trace w) = []).
  { destruct (run_inv St M a m) as [[Hw _]|(rf & pts & _ & Hrf & _ & Hw & _)];
      rewrite Hrun in Hw; simpl in Hw.
    - subst w. auto.
    - rewrite Hr in Hrf.
      assert (Hdec : forall c t fitted,
                 retrain_decision rf a c t fitted = Ok (negb fitted)).
      { intros c t fitted.
        rewrite (lambda_decision (RetrainBool false) rf a c t fitted eq_refl Hrf).
        unfold retrain_lambda. simpl. now rewrite orb_false_r. }
      destruct (walk_never_fitted St M rf a pts Hdec 0%nat (mkWorld m []) Hf)
        as [Hm Hc].
      rewrite <- Hw in Hm, Hc. auto. }
  destruct H as [Hm Hc]. repeat split; try assumption.
  rewrite Hm. exact Hrun.
Qed.

Lemma iteration_with_retrain {St : Type} (M : ForecastingModel St) (rf : RetrainCallable)
    (a : Args) (r : Retrain) (c : nat) (t : Z) (w : World St) :
  iteration St M rf (with_retrain a r) c t w = iteration St M rf a c t w.
Proof. reflexivity. Qed.

Lemma walk_with_retrain {St : Type} (M : ForecastingModel St) (rf : RetrainCallable)
    (a : Args) (r : Retrain) (pts : list Z) :
  forall (c : nat) (w : World St),
    walk St M rf (with_retrain a r) c pts w = walk St M rf a c pts w.
Proof.
  induction pts as [|t rest IH]; intros c w; [reflexivity|].
  rewrite !walk_cons, iteration_with_retrain.
  destruct (iteration St M rf a c t w) as [w1 [k|e|]]; try reflexivity.
  now rewrite IH.
Qed.

(** C10: on a model that supports historical forecasts without retraining,
    [retrain = 0] passes the checks on [retrain] and the run is the run of
    [retrain = False]: the model is fit at the first iteration if it had
    never been fit, and at no other. *)
Theorem retrain_zero_is_false {St : Type} (M : ForecastingModel St) (a : Args)
    (m : ModelState St) :
  _supports_non_retrainable_historical_forecasts M = true ->
  retrain a = RetrainInt 0 ->
  check_retrain_supported St M a = Ok tt /\
  (exists rf, make_retrain_func (retrain a) = Ok rf) /\
  run_historical_forecasts St M a m =
    run_historical_forecasts St M (with_retrain a (RetrainBool false)) m /\
  (forall c, In c (fit_counters (trace (fst (run_historical_forecasts St M a m)))) ->
             c = 0%nat /\ _fit_called m = false).
Proof.
  intros Hsup Hr.
  assert (Hchk : check_retrain_supported St M a = Ok tt).
  { unfold check_retrain_supported. rewrite Hr, Hsup. reflexivity. }
  split; [exact Hchk|]. split; [rewrite Hr; simpl; eauto|]. split.
  - unfold run_historical_forecasts, historical_forecasts, historical_forecasts_body.
    unfold bind, lift.
    change (_historical_forecasts_sanity_checks (with_retrain a (RetrainBool false)))
      with (_historical_forecasts_sanity_checks a).
    destruct (_historical_forecasts_sanity_checks a) as [[]|e|]; try reflexivity.
    rewrite Hchk.
    replace (check_retrain_supported St M (with_retrain a (RetrainBool false)))
      with (@Ok unit tt)
      by (unfold check_retrain_supported; simpl; now rewrite Hsup).
    change (check_train_length St M (with_retrain a (RetrainBool false)))
      with (check_train_length St M a).
    destruct (check_train_length St M a) as [[]|e|]; try reflexivity.
    rewrite Hr. simpl.
    change (scheduled_pred_times (with_retrain a (RetrainBool false)))
      with (scheduled_pred_times a).
    destruct (scheduled_pred_times a) as [pts|e|]; try reflexivity.
    rewrite walk_with_retrain.
    destruct (walk St M _ a 0 pts (mkWorld m [])) as [w1 [ks|e|]]; reflexivity.
  - intros c Hin.
    destruct (run_inv St M a m) as [[Hw _]|(rf & pts & _ & Hrf & _ & Hw & _)];
      rewrite Hw in Hin; simpl in Hin; [contradiction|].
    rewrite Hr in Hrf.
    assert (Hdec : forall c t fitted,
               retrain_decision rf a c t fitted = Ok (negb fitted)).
    { intros c' t fitted.
      rewrite (lambda_decision (RetrainInt 0) rf a c' t fitted eq_refl Hrf).
      unfold retrain_lambda. simpl. now rewrite orb_false_r. }
    destruct (walk_never_first St M rf a pts 0%nat (mkWorld m []) Hdec)
      as (l & Hl & Hcases).
    rewrite Hl in Hin. simpl in Hin.
    destruct Hcases as [->|[-> Hf]]; simpl in Hin; [contradiction|].
    destruct Hin as [<-|[]]. auto.
Qed.

(** ** Causality *)



(** ** The assembled series *)

Lemma kept_values_length (ks : list Kept) :
  Forall (fun k => is_last_point k = true) ks ->
  List.length (kept_values ks) = List.length ks.
Proof.
  induction 1 as [|k ks Hk _ IH]; [reflexivity|].
  destruct k; [|discriminate]. simpl. now rewrite IH.
Qed.

Lemma RangeIndex_step (first stop step : Z) (ix : TimeIndex) :
  RangeIndex first stop step = Ok ix -> ix_step ix = step.
Proof.
  unfold RangeIndex. destruct (step =? 0); [discriminate|].
  destruct (0 <? step); intros H; injection H as <-; reflexivity.
Qed.

Lemma DatetimeIndex_step (ts : list Z) (step : Z) (ix : TimeIndex) :
  DatetimeIndex ts step = Ok ix -> ix_step ix = step.
Proof.
  unfold DatetimeIndex. destruct (conforms step ts); [|discriminate].
  intros H; injection H as <-; reflexivity.
Qed.

(** C4: with [last_points_only = True] the series that a run returns has
    one point per prediction time, a step of [series.freq * stride], and
    the columns, static covariates and hierarchy of the input series. *)
Theorem last_points_series {St : Type} (M : ForecastingModel St) (a : Args)
    (m : ModelState St) (w : World St) (s : TimeSeries) (pts : list Z) :
  last_points_only a = true ->
  run_historical_forecasts St M a m = (w, Ok (Assembled s)) ->
  scheduled_pred_times a = Ok pts ->
  len s = Z.of_nat (List.length pts) /\
  freq s = freq (series a) * stride a /\
  columns s = columns (series a) /\
  static_covariates s = static_covariates (series a) /\
  hierarchy s = hierarchy (series a).
Proof.
  intros Hlp Hrun Hpts.
  destruct (run_inv St M a m) as [[_ Hno]|(rf & pts' & _ & _ & Hpts' & _ & Hfs)].
  - rewrite Hrun in Hno. exfalso. now apply (Hno (Assembled s)).
  - rewrite Hrun in Hfs. rewrite Hpts in Hpts'. injection Hpts' as <-.
    destruct (Hfs _ eq_refl) as (ks & Hks & Hasm).
    destruct (walk St M rf a 0 pts (mkWorld m [])) as [w1 o1] eqn:Ew.
    simpl in Hks. subst o1.
    apply walk_kept in Ew. destruct Ew as [Hlen Hall]. rewrite Hlp in Hall.
    apply kept_values_length in Hall.
    unfold assemble in Hasm. rewrite Hlp in Hasm.
    match type of Hasm with
    | obind ?o _ = _ => destruct o as [ix| |] eqn:Hix; simpl in Hasm; try discriminate
    end.
    unfold from_times_and_values in Hasm.
    destruct (Nat.eqb (ix_len ix) (List.length (kept_values ks))) eqn:Hn;
      simpl in Hasm; [|discriminate].
    injection Hasm as <-. unfold len. simpl.
    apply Nat.eqb_eq in Hn.
    repeat split.
    + congruence.
    + destruct (has_datetime_index (series a)).
      * now apply DatetimeIndex_step in Hix.
      * destruct (list_get (kept_times ks) 0) as [first| |];
          simpl in Hix; try discriminate.
        destruct (list_get (kept_times ks) (-1)) as [final| |];
          simpl in Hix; try discriminate.
        now apply RangeIndex_step in Hix.
Qed.

(** ** backtest *)

Lemma assemble_kind (a : Args) (ks : list Kept) (fc : Forecasts) :
  assemble a ks = Ok fc ->
  last_points_only a = match fc with Assembled _ => true | Segments _ => false end.
Proof.
  unfold assemble. destruct (last_points_only a).
  - match goal with
    | |- obind ?o _ = _ -> _ => destruct o as [ix| |]; simpl; try discriminate
    end.
    destruct (from_times_and_values _ _ _ _ _ _) as [s| |]; simpl; try discriminate.
    intros H; injection H as <-. reflexivity.
  - intros H; injection H as <-. reflexivity.
Qed.

Lemma run_kind {St : Type} (M : ForecastingModel St) (a : Args) (m : ModelState St)
    (w : World St) (fc : Forecasts) :
  run_historical_forecasts St M a m = (w, Ok fc) ->
  last_points_only a = match fc with Assembled _ => true | Segments _ => false end.
Proof.
  intros Hrun.
  destruct (run_inv St M a m) as [[_ Hno]|(rf & pts & _ & _ & _ & _ & Hfs)];
    rewrite Hrun in *; simpl in *.
  - exfalso. now apply (Hno fc).
  - destruct (Hfs fc eq_refl) as (ks & _ & Hasm). now apply assemble_kind in Hasm.
Qed.

Lemma backtest_run {St : Type} (M : ForecastingModel St) (a : Args) (m : ModelState St)
    (w : World St) (fc : Forecasts) (metric : MetricArg) (reduction : option (list Q -> Q)) :
  run_historical_forecasts St M a m = (w, Ok fc) ->
  backtest M a metric reduction (mkWorld m []) = (w, score_forecasts a metric reduction fc).
Proof.
  unfold run_historical_forecasts, backtest, bind, lift. now intros ->.
Qed.

(** C8, as amended: after a run that returned the forecasts, [backtest]
    with whole forecasts and two metrics returns the two reductions, one
    per metric, over the scores of the forecasts; without a reduction it
    returns the matrix of the scores, one row per forecast; with one metric
    it returns a single number when a reduction is applied or when only the
    last points are kept. *)
Theorem backtest_scores {St : Type} (M : ForecastingModel St) (a : Args)
    (m : ModelState St) (w : World St) (fc : Forecasts) :
  run_historical_forecasts St M a m = (w, Ok fc) ->
  (forall fcs m1 m2 red,
      fc = Segments fcs -> fcs <> [] ->
      backtest M a (MetricList [m1; m2]) (Some red) (mkWorld m []) =
        (w, Ok (Vector [red (map (m1 (series a)) fcs); red (map (m2 (series a)) fcs)])) /\
      backtest M a (MetricList [m1; m2]) None (mkWorld m []) =
        (w, Ok (Matrix (map (fun f => [m1 (series a) f; m2 (series a) f]) fcs))) /\
      backtest M a (OneMetric m1) (Some red) (mkWorld m []) =
        (w, Ok (Scalar (red (map (m1 (series a)) fcs))))) /\
  (forall s m1 reduction,
      fc = Assembled s ->
      backtest M a (OneMetric m1) reduction (mkWorld m []) =
        (w, Ok (Scalar (m1 (series a) s)))).
Proof.
  intros Hrun. pose proof (run_kind M a m w fc Hrun) as Hk.
  split.
  - intros fcs m1 m2 red -> Hne.
    rewrite !(backtest_run M a m w _ _ _ Hrun).
    unfold score_forecasts. rewrite Hk. simpl.
    destruct fcs as [|f fcs]; [contradiction|]. simpl.
    rewrite !map_map. repeat split.
  - intros s m1 reduction ->.
    rewrite (backtest_run M a m w _ _ _ Hrun).
    unfold score_forecasts. rewrite Hk. reflexivity.
Qed.

(** ** gridsearch *)

Lemma remove_nth_length {A : Type} (l : list A) (j : nat) (x : A) :
  nth_error l j = Some x -> List.length (remove_nth j l) = pred (List.length l).
Proof.
  revert j. induction l as [|h t IH]; intros j H.
  - destruct j; discriminate.
  - destruct j as [|j]; simpl; [reflexivity|].
    simpl in H. rewrite (IH j H).
    destruct t; [destruct j; discriminate | reflexivity].
Qed.

(** A draw of [k] elements from at least [k] has [k] elements. *)
Lemma draw_length {A : Type} (k : nat) :
  forall (rnd : list nat) (population : list A),
    (k <= List.length population)%nat ->
    List.length (draw rnd population k) = k.
Proof.
  induction k as [|k IH]; intros rnd population Hk; [reflexivity|].
  simpl.
  assert (Hj : (hd 0 rnd mod List.length population < List.length population)%nat)
    by (apply Nat.mod_upper_bound; lia).
  destruct (nth_error population (hd 0 rnd mod List.length population)%nat)
    as [x|] eqn:Hx.
  - simpl. f_equal. apply IH. rewrite (remove_nth_length _ _ _ Hx). lia.
  - apply nth_error_None in Hx. lia.
Qed.

(** *** The float product of a fraction and a count *)

Lemma py_round_nonneg (y : Q) : (0 <= y)%Q -> 0 <= py_round y.
Proof.
  intros Hy. unfold py_round.
  pose proof (Qfloor_resp_le _ _ Hy) as Hf. change (Qfloor 0) with 0 in Hf.
  destruct (y - inject_Z (Qfloor y) ?= 1 # 2)%Q; [destruct (Z.even (Qfloor y))|..]; lia.
Qed.

Lemma py_round_le_integer (y : Q) (M : Z) : (y <= inject_Z M)%Q -> py_round y <= M.
Proof.
  intros Hy. unfold py_round.
  pose proof (Qfloor_resp_le _ _ Hy) as Hf. rewrite Qfloor_Z in Hf.
  assert (Hstrict : (inject_Z (Qfloor y) < y)%Q -> Qfloor y + 1 <= M).
  { intros Hlt. assert (H : (inject_Z (Qfloor y) < inject_Z M)%Q)
      by (eapply Qlt_le_trans; eassumption).
    rewrite <- Zlt_Qlt in H. lia. }
  destruct (y - inject_Z (Qfloor y) ?= 1 # 2)%Q eqn:Hc.
  - destruct (Z.even (Qfloor y)); [lia|].
    apply Hstrict. apply Qeq_alt in Hc.
    apply Qlt_minus_iff. unfold Qminus in Hc. rewrite Hc. reflexivity.
  - lia.
  - apply Hstrict. apply Qgt_alt in Hc.
    apply Qlt_minus_iff. eapply Qlt_trans; [|exact Hc]. reflexivity.
Qed.

Lemma floor_log2_small (q : Q) (N : Z) :
  (0 < q)%Q -> (q <= inject_Z N)%Q -> N < 2 ^ 53 -> floor_log2 q <= 52.
Proof.
  destruct q as [n d]. unfold Qlt, Qle, floor_log2. cbn [Qnum Qden inject_Z].
  intros Hpos Hle HN.
  assert (Hn : 0 < n) by lia.
  pose proof (Z.log2_spec n Hn) as [Ha _].
  pose proof (Z.log2_spec (Z.pos d) (Pos2Z.is_pos d)) as [_ Hb].
  pose proof (Z.log2_nonneg (Z.pos d)) as Hb0.
  pose proof (Z.log2_nonneg n) as Ha0.
  assert (Hlt : n < 2 ^ (54 + Z.log2 (Z.pos d))).
  { replace (54 + Z.log2 (Z.pos d)) with (53 + Z.succ (Z.log2 (Z.pos d))) by lia.
    rewrite Z.pow_add_r by lia.
    assert (0 < 2 ^ 53) by (apply Z.pow_pos_nonneg; lia).
    nia. }
  apply Z.log2_lt_pow2 in Hlt; [|exact Hn].
  destruct (Qle_bool (unscale 1 (Z.log2 n - Z.log2 (Z.pos d))) (n # d)) eqn:Hc; [|lia].
  destruct (Z.eq_dec (Z.log2 n - Z.log2 (Z.pos d)) 53) as [He|He]; [|lia].
  rewrite He in Hc. apply Qle_bool_iff in Hc.
  unfold unscale in Hc. change (0 <? 53) with true in Hc. cbv iota in Hc.
  unfold Qle in Hc. cbn [Qnum Qden inject_Z] in Hc.
  assert (0 < 2 ^ 53) by (apply Z.pow_pos_nonneg; lia).
  nia.
Qed.

Lemma fl_pos_nonneg (q : Q) : (0 <= q)%Q -> (0 <= fl_pos q)%Q.
Proof.
  intros Hq. unfold fl_pos.
  set (p := Z.max (floor_log2 q - 52) (-1074)).
  assert (Hr : 0 <= py_round (scale q p)).
  { apply py_round_nonneg. unfold scale. destruct (0 <? p) eqn:Hp.
    - apply Qle_shift_div_l.
      + change 0%Q with (inject_Z 0). rewrite <- Zlt_Qlt.
        apply Z.pow_pos_nonneg; lia.
      + now rewrite Qmult_0_l.
    - apply Qmult_le_0_compat; [exact Hq|].
      change 0%Q with (inject_Z 0). rewrite <- Zle_Qle.
      apply Z.pow_nonneg; lia. }
  unfold unscale. destruct (0 <? p) eqn:Hp.
  - change 0%Q with (inject_Z 0). rewrite <- Zle_Qle.
    apply Z.mul_nonneg_nonneg; [exact Hr | apply Z.pow_nonneg; lia].
  - apply Qle_shift_div_l.
    + change 0%Q with (inject_Z 0). rewrite <- Zlt_Qlt.
      apply Z.pow_pos_nonneg; lia.
    + rewrite Qmult_0_l. change 0%Q with (inject_Z 0). now rewrite <- Zle_Qle.
Qed.

Lemma fl_pos_le_integer (q : Q) (N : Z) :
  (0 < q)%Q -> (q <= inject_Z N)%Q -> N < 2 ^ 53 -> (fl_pos q <= inject_Z N)%Q.
Proof.
  intros Hpos Hle HN. unfold fl_pos.
  pose proof (floor_log2_small q N Hpos Hle HN) as He.
  set (p := Z.max (floor_log2 q - 52) (-1074)).
  assert (Hp : (0 <? p) = false) by (apply Z.ltb_ge; lia).
  unfold scale, unscale. rewrite Hp.
  assert (HK : 0 < 2 ^ (- p)) by (apply Z.pow_pos_nonneg; lia).
  apply Qle_shift_div_r.
  - change 0%Q with (inject_Z 0). now rewrite <- Zlt_Qlt.
  - rewrite <- inject_Z_mult, <- Zle_Qle.
    apply py_round_le_integer. rewrite inject_Z_mult.
    apply Qmult_le_compat_r; [exact Hle|].
    change 0%Q with (inject_Z 0). rewrite <- Zle_Qle. lia.
Qed.

Lemma fl_nonneg (q : Q) : (0 <= q)%Q -> (0 <= fl q)%Q.
Proof.
  intros Hq. unfold fl. destruct (Qnum q) eqn:Hn.
  - apply Qle_refl.
  - now apply fl_pos_nonneg.
  - exfalso. unfold Qle in Hq. cbn in Hq. lia.
Qed.

Lemma fl_le_integer (q : Q) (N : Z) :
  (0 <= q)%Q -> (q <= inject_Z N)%Q -> N < 2 ^ 53 -> (fl q <= inject_Z N)%Q.
Proof.
  intros Hq Hle HN. unfold fl. destruct (Qnum q) eqn:Hn.
  - eapply Qle_trans; eassumption.
  - apply fl_pos_le_integer; try assumption.
    unfold Qlt. cbn. lia.
  - exfalso. unfold Qle in Hq. cbn in Hq. lia.
Qed.

(** The truncated float product is between 0 and the number of
    combinations, when that number is a float itself. *)
Lemma fraction_of_total (x : Q) (n : nat) :
  (0 < fl x)%Q -> (fl x <= 1)%Q -> Z.of_nat n < 2 ^ 53 ->
  0 <= py_int (fl (fl x * fl (inject_Z (Z.of_nat n)))) <= Z.of_nat n.
Proof.
  intros H0 H1 Hn.
  assert (Hn0 : (0 <= inject_Z (Z.of_nat n))%Q).
  { change 0%Q with (inject_Z 0). rewrite <- Zle_Qle. lia. }
  pose proof (fl_nonneg _ Hn0) as Ht0.
  pose proof (fl_le_integer _ _ Hn0 (Qle_refl _) Hn) as Ht1.
  assert (Hlo : (0 <= fl x * fl (inject_Z (Z.of_nat n)))%Q).
  { apply Qmult_le_0_compat; [now apply Qlt_le_weak | exact Ht0]. }
  assert (Hhi : (fl x * fl (inject_Z (Z.of_nat n)) <= inject_Z (Z.of_nat n))%Q).
  { eapply Qle_trans; [|exact Ht1].
    rewrite <- (Qmult_1_l (fl (inject_Z (Z.of_nat n)))) at 2.
    apply Qmult_le_compat_r; assumption. }
  pose proof (fl_nonneg _ Hlo) as Hf0.
  pose proof (fl_le_integer _ _ Hlo Hhi Hn) as Hf1.
  unfold py_int. apply Qle_bool_iff in Hf0 as Hb. rewrite Hb.
  split.
  - pose proof (Qfloor_resp_le _ _ Hf0) as H. exact H.
  - pose proof (Qfloor_resp_le _ _ Hf1) as H. rewrite Qfloor_Z in H. exact H.
Qed.

Lemma remove_nth_map {A B : Type} (f : A -> B) (j : nat) (l : list A) :
  remove_nth j (map f l) = map f (remove_nth j l).
Proof.
  revert j. induction l as [|h t IH]; intros j; simpl; [now destruct j|].
  destruct j as [|j]; simpl; [reflexivity | now rewrite IH].
Qed.

(** A draw depends on the positions only. *)
Lemma draw_map {A B : Type} (f : A -> B) (k : nat) :
  forall (rnd : list nat) (population : list A),
    draw rnd (map f population) k = map f (draw rnd population k).
Proof.
  induction k as [|k IH]; intros rnd population; simpl; [reflexivity|].
  rewrite length_map, nth_error_map.
  destruct (nth_error population _) as [x|]; simpl; [|reflexivity].
  now rewrite remove_nth_map, IH.
Qed.

Lemma remove_nth_In {A : Type} (j : nat) (l : list A) (x : A) :
  In x (remove_nth j l) -> In x l.
Proof.
  revert j. induction l as [|h t IH]; intros j; simpl; [destruct j; auto|].
  destruct j as [|j]; simpl; [auto|].
  intros [->|Hin]; [auto | right; eauto].
Qed.

Lemma remove_nth_NoDup {A : Type} (l : list A) :
  forall (j : nat) (x : A),
    NoDup l -> nth_error l j = Some x ->
    NoDup (remove_nth j l) /\ ~ In x (remove_nth j l).
Proof.
  induction l as [|h t IH]; intros j x Hnd Hx; [destruct j; discriminate|].
  inversion Hnd as [|? ? Hh Ht]; subst.
  destruct j as [|j]; simpl in *.
  - injection Hx as <-. auto.
  - destruct (IH j x Ht Hx) as [Hnd' Hnot]. split.
    + constructor; [|exact Hnd']. intros Hin. apply Hh. eapply remove_nth_In; eauto.
    + intros [->|Hin]; [|auto]. apply Hh. eapply nth_error_In; eauto.
Qed.

Lemma draw_In {A : Type} (k : nat) :
  forall (rnd : list nat) (population : list A) (x : A),
    In x (draw rnd population k) -> In x population.
Proof.
  induction k as [|k IH]; intros rnd population x; simpl; [tauto|].
  destruct (nth_error population _) as [y|] eqn:Hy; simpl; [|tauto].
  intros [<-|Hin].
  - eapply nth_error_In; eauto.
  - apply IH in Hin. eapply remove_nth_In; eauto.
Qed.

(** A draw takes no element twice. *)
Lemma draw_NoDup {A : Type} (k : nat) :
  forall (rnd : list nat) (population : list A),
    NoDup population -> NoDup (draw rnd population k).
Proof.
  induction k as [|k IH]; intros rnd population Hnd; simpl; [constructor|].
  destruct (nth_error population _) as [x|] eqn:Hx; [|constructor].
  destruct (remove_nth_NoDup _ _ _ Hnd Hx) as [Hnd' Hnot].
  constructor; [|now apply IH].
  intros Hin. apply Hnot. eapply draw_In; eauto.
Qed.

Lemma combine_seq_nth_error {A : Type} (l : list A) :
  forall (s i : nat) (x : A),
    In (i, x) (combine (seq s (List.length l)) l) ->
    (s <= i)%nat /\ nth_error l (i - s) = Some x.
Proof.
  induction l as [|h t IH]; intros s i x; simpl; [tauto|].
  intros [H|H].
  - injection H as <- <-. split; [lia|]. now rewrite Nat.sub_diag.
  - apply IH in H. destruct H as [Hs Hx]. split; [lia|].
    replace (i - s)%nat with (S (i - S s)) by lia. exact Hx.
Qed.

Lemma Forall2_fst_snd {A B : Type} (P : A -> B -> Prop) (ps : list (A * B)) :
  (forall a b, In (a, b) ps -> P a b) -> Forall2 P (map fst ps) (map snd ps).
Proof.
  induction ps as [|[a b] ps IH]; intros H; simpl; constructor.
  - apply H. now left.
  - apply IH. intros a' b' Hin. apply H. now right.
Qed.

(** What a draw returns are the elements at distinct positions of the
    population. *)
Lemma draw_drawn_from {A : Type} (rnd : list nat) (population : list A) (k : nat) :
  drawn_from population (draw rnd population k).
Proof.
  set (pairs := combine (seq 0 (List.length population)) population).
  assert (Hfst : map fst pairs = seq 0 (List.length population)).
  { unfold pairs. clear. generalize 0%nat.
    induction population as [|h t IH]; intros s; simpl; [reflexivity|].
    now rewrite IH. }
  assert (Hsnd : map snd pairs = population).
  { unfold pairs. clear. generalize 0%nat.
    induction population as [|h t IH]; intros s; simpl; [reflexivity|].
    now rewrite IH. }
  exists (map fst (draw rnd pairs k)). split.
  - rewrite <- draw_map, Hfst. apply draw_NoDup, seq_NoDup.
  - replace (draw rnd population k) with (map snd (draw rnd pairs k))
      by (now rewrite <- draw_map, Hsnd).
    apply Forall2_fst_snd. intros i x Hin.
    apply draw_In in Hin. apply combine_seq_nth_error in Hin.
    destruct Hin as [_ Hx]. now rewrite Nat.sub_0_r in Hx.
Qed.

Lemma sample_drawn_from {A : Type} (rnd : list nat) (population : list A) (k : Z) :
  0 <= k <= Z.of_nat (List.length population) ->
  exists l, sample rnd population k = Ok l /\ Z.of_nat (List.length l) = k /\
            drawn_from population l.
Proof.
  intros Hk. unfold sample.
  replace ((0 <=? k) && (k <=? Z.of_nat (List.length population))) with true
    by (symmetry; apply andb_true_iff; lia).
  eexists. split; [reflexivity|]. split.
  - rewrite draw_length; lia.
  - apply draw_drawn_from.
Qed.

(** C7, as amended: an integer [n_random_samples] in [(0, total]] selects
    exactly that many combinations; a float in [(0, 1]] selects
    [int(fraction * total)] of them, where the product is the float product
    and [int] drops its fractional part, for fewer than [2^53] combinations;
    what is selected are combinations at distinct positions of the cross
    product; an integer outside [(0, total]] or a float outside [(0, 1]]
    raises an error. *)
Theorem sample_params_size {A : Type} (rnd : list nat) (params : list A) :
  let total := Z.of_nat (List.length params) in
  (forall n, 0 < n <= total ->
     exists l, _sample_params rnd params (NInt n) = Ok l /\
               Z.of_nat (List.length l) = n /\
               drawn_from params l) /\
  (forall n, ~ 0 < n <= total ->
     exists msg, _sample_params rnd params (NInt n) = Raise (ValueError msg)) /\
  (forall x, (0 < fl x)%Q /\ (fl x <= 1)%Q -> total < 2 ^ 53 ->
     exists l, _sample_params rnd params (NFloat x) = Ok l /\
               Z.of_nat (List.length l) = py_int (fl (fl x * fl (inject_Z total))) /\
               drawn_from params l) /\
  (forall x, ~ ((0 < fl x)%Q /\ (fl x <= 1)%Q) ->
     exists msg, _sample_params rnd params (NFloat x) = Raise (ValueError msg)).
Proof.
  cbv zeta. repeat split.
  - intros n Hn. cbn [_sample_params].
    replace ((0 <? n) && (n <=? Z.of_nat (List.length params))) with true
      by (symmetry; apply andb_true_iff; lia).
    apply sample_drawn_from. lia.
  - intros n Hn. cbn [_sample_params].
    replace ((0 <? n) && (n <=? Z.of_nat (List.length params))) with false
      by (symmetry; apply andb_false_iff; lia).
    eauto.
  - intros x [H0 H1] Htotal. cbn [_sample_params].
    assert (Hc : negb (Qle_bool (fl x) 0) && Qle_bool (fl x) 1 = true).
    { apply andb_true_iff. split.
      - apply negb_true_iff. destruct (Qle_bool (fl x) 0) eqn:Hx; [|reflexivity].
        apply Qle_bool_iff in Hx. exfalso. now apply (Qlt_not_le 0 (fl x)).
      - now apply Qle_bool_iff. }
    rewrite Hc.
    apply sample_drawn_from. now apply fraction_of_total.
  - intros x Hx. cbn [_sample_params].
    assert (Hc : negb (Qle_bool (fl x) 0) && Qle_bool (fl x) 1 = false).
    { destruct (negb (Qle_bool (fl x) 0) && Qle_bool (fl x) 1) eqn:Hb; [|reflexivity].
      exfalso. apply Hx. apply andb_true_iff in Hb. destruct Hb as [Hb0 Hb1].
      split.
      - apply Qnot_le_lt. intros Hle. apply Qle_bool_iff in Hle.
        rewrite Hle in Hb0. discriminate.
      - now apply Qle_bool_iff. }
    rewrite Hc. eauto.
Qed.

(** ** The forecast origins *)

Lemma end_time_spec (s : TimeSeries) (o : Z) :
  end_time s = Ok o <-> 1 <= len s /\ o = start_time s + (len s - 1) * freq s.
Proof.
  unfold end_time, time_index, py_index. split.
  - destruct ((0 <=? -1) && (-1 <? len s)) eqn:H1; [lia|].
    destruct ((- len s <=? -1) && (-1 <? 0)) eqn:H2; [|discriminate].
    intros H; injection H as <-. split; [lia | ring].
  - intros [Hl ->].
    replace ((0 <=? -1) && (-1 <? len s)) with false
      by (symmetry; apply andb_false_iff; left; now apply Z.leb_gt).
    replace ((- len s <=? -1) && (-1 <? 0)) with true
      by (symmetry; apply andb_true_iff; split; [apply Z.leb_le; lia | reflexivity]).
    reflexivity.
Qed.

(** The start of the prediction times is a timestamp of the series. *)
Lemma get_timestamp_on_grid (s : TimeSeries) (p : Start) (ts : Z) :
  get_timestamp_at_point s p = Ok ts ->
  exists k, 0 <= k < len s /\ ts = start_time s + k * freq s.
Proof.
  destruct p as [q|i|t]; simpl.
  - destruct (Qle_bool 0 q && Qle_bool q 1 && (0 <? len s)); [|discriminate].
    intros H. apply time_index_spec in H. destruct H as (j & Hj & ->).
    apply py_index_spec in Hj. exists j. split; [lia | reflexivity].
  - destruct ((0 <=? i) && (i <? len s)); [|discriminate].
    intros H. apply time_index_spec in H. destruct H as (j & Hj & ->).
    apply py_index_spec in Hj. exists j. split; [lia | reflexivity].
  - destruct (in_series s t) eqn:Hin; [|discriminate].
    intros H; injection H as <-.
    unfold in_series in Hin. apply existsb_exists in Hin.
    destruct Hin as (x & Hx & Heq). apply Z.eqb_eq in Heq. subst x.
    unfold times in Hx. apply in_map_iff in Hx. destruct Hx as (i & <- & Hi).
    apply in_seq in Hi. exists (Z.of_nat i). unfold len. split; [lia | reflexivity].
Qed.

Lemma cdiv_mul (m b : Z) : 0 < b -> cdiv (m * b) b = m.
Proof.
  intros Hb. unfold cdiv.
  replace (- (m * b)) with (- m * b) by ring.
  rewrite Z.div_mul by lia. lia.
Qed.

(** The trailing points of a series end where the series ends. *)
Lemma end_time_last_points (s : TimeSeries) (k o : Z) :
  end_time (last_points s k) = Ok o -> end_time s = Ok o.
Proof.
  intros H. apply end_time_spec in H. apply end_time_spec.
  unfold last_points, len in *. cbv zeta in H. simpl in H.
  rewrite length_skipn in H. destruct H as [Hl ->].
  split; [lia|].
  replace (Z.of_nat (List.length (values s) - Z.to_nat (Z.max 0 (Z.of_nat (List.length (values s)) - k))))
    with (Z.of_nat (List.length (values s)) - Z.max 0 (Z.of_nat (List.length (values s)) - k))
    by lia.
  ring.
Qed.

(** The prefix before the timestamp at position [m] ends one step before
    it. *)
Lemma end_time_drop_after (s : TimeSeries) (m o : Z) :
  0 < freq s -> m <= len s ->
  end_time (drop_after s (start_time s + m * freq s)) = Ok o ->
  o = start_time s + m * freq s - freq s.
Proof.
  intros Hf Hm H. apply end_time_spec in H.
  unfold drop_after, len in *. simpl in H.
  replace (start_time s + m * freq s - start_time s) with (m * freq s) in H by ring.
  rewrite cdiv_mul, length_firstn in H by exact Hf.
  destruct H as [Hl ->].
  replace (Z.of_nat (Nat.min (Z.to_nat m) (List.length (values s)))) with m by lia.
  ring.
Qed.

(** The training series of the prediction time at position [m] ends one
    step before it. *)
Lemma build_train_end (s : TimeSeries) (tl : option Z) (m o : Z) :
  0 < freq s -> m <= len s ->
  end_time (build_train s tl (start_time s + m * freq s)) = Ok o ->
  o = start_time s + m * freq s - freq s.
Proof.
  intros Hf Hm. unfold build_train.
  destruct tl as [l|]; [|now apply end_time_drop_after].
  destruct (negb (l =? 0) && (len (drop_after s (start_time s + m * freq s)) >? l)).
  - intros H. apply end_time_last_points in H. now apply end_time_drop_after in H.
  - now apply end_time_drop_after.
Qed.

(** C2: with [overlap_end = false], every forecast origin [o] of the run,
    the end of the training window of a prediction time, satisfies
    [o + forecast_horizon * step <= series.end], where [series.end] is the
    last timestamp; and the origin of the last valid prediction time is
    [forecast_horizon] steps before the series end. *)
Theorem forecast_origins_within_series (a : Args) (l : list Z) (e : Z) :
  overlap_end a = false ->
  0 < freq (series a) ->
  0 < forecast_horizon a ->
  scheduled_pred_times a = Ok l ->
  end_time (series a) = Ok e ->
  (exists last_valid,
      _get_last_prediction_time (series a) (forecast_horizon a) (overlap_end a)
        = Ok last_valid /\
      forecast_origin a last_valid = e - forecast_horizon a * freq (series a)) /\
  Forall (fun pred_time =>
            (forall o,
                end_time (build_train (series a) (train_length a) pred_time) = Ok o ->
                o = forecast_origin a pred_time) /\
            forecast_origin a pred_time + forecast_horizon a * freq (series a) <= e) l.
Proof.
  intros Hov Hf Hh Hs He.
  apply scheduled_pred_times_spec in Hs.
  destruct Hs as (ts & lv & Hts & Hlv & Hb).
  pose proof (build_pred_times_bound _ _ _ _ Hb) as Hbound.
  pose proof (build_pred_times_progression _ _ _ _ Hb) as Hprog.
  apply get_timestamp_on_grid in Hts. destruct Hts as (k & Hk & ->).
  apply end_time_spec in He. destruct He as [Hlen ->].
  assert (Hlast : lv = start_time (series a)
                       + (len (series a) - forecast_horizon a) * freq (series a)).
  { unfold _get_last_prediction_time in Hlv. rewrite Hov in Hlv.
    apply time_index_spec in Hlv. destruct Hlv as (j & Hj & ->).
    apply py_index_spec in Hj.
    assert (Hjn : j = len (series a) - forecast_horizon a) by lia.
    now rewrite Hjn. }
  unfold forecast_origin. split.
  - exists lv. split; [exact Hlv|]. rewrite Hlast. ring.
  - rewrite Forall_forall in *. intros t Ht.
    pose proof (Hbound t Ht) as Hle.
    rewrite Hprog in Ht. apply in_map_iff in Ht. destruct Ht as (i & <- & _).
    set (m := k + Z.of_nat i * stride a).
    assert (Ht : start_time (series a) + k * freq (series a)
                 + Z.of_nat i * (freq (series a) * stride a)
                 = start_time (series a) + m * freq (series a))
      by (unfold m; ring).
    rewrite Ht in *.
    assert (Hm : m <= len (series a) - forecast_horizon a) by nia.
    split.
    + intros o Ho. apply build_train_end in Ho; [exact Ho | exact Hf | lia].
    + nia.
Qed.

(** * The properties on concrete runs *)

Import Examples.



Lemma forecast_origins_within_series_witness :
  (exists last_valid,
      _get_last_prediction_time (series args_horizon2) (forecast_horizon args_horizon2)
        (overlap_end args_horizon2) = Ok last_valid /\
      forecast_origin args_horizon2 last_valid = 4 - 2 * 1) /\
  Forall (fun pred_time =>
            (forall o,
                end_time (build_train (series args_horizon2) (train_length args_horizon2)
                            pred_time) = Ok o ->
                o = forecast_origin args_horizon2 pred_time) /\
            forecast_origin args_horizon2 pred_time + 2 * 1 <= 4) [1; 2; 3].
Proof.
  apply (forecast_origins_within_series args_horizon2 [1; 2; 3] 4);
    [reflexivity | simpl; lia | simpl; lia | reflexivity | reflexivity].
Defined.

Lemma retrain_every_k_witness :
  exists w fs,
    run_historical_forecasts nat naive args_every2 unfitted = (w, Ok fs) /\
    fit_counters (trace w) = [0; 2]%nat /\
    learnt (model w) = 2%nat /\
    _fit_called (model w) = true.
Proof.
  assert (H : exists w fs,
             run_historical_forecasts nat naive args_every2 unfitted = (w, Ok fs))
    by (vm_compute; eauto).
  destruct H as (w & fs & H). exists w, fs. split; [exact H|].
  destruct (retrain_every_k naive args_every2 unfitted 2 w fs [1; 2; 3; 4]
              ltac:(lia) eq_refl H eq_refl) as (Hc & Hs & Hf & _).
  split; [rewrite Hc; reflexivity|]. split.
  - vm_compute in Hs. now injection Hs.
  - apply Hf. discriminate.
Defined.

Lemma last_points_series_witness :
  exists w s,
    run_historical_forecasts nat naive args0 unfitted = (w, Ok (Assembled s)) /\
    len s = 3 /\ freq s = 1 /\ columns s = ["y"%string].
Proof.
  assert (H : exists w s,
             run_historical_forecasts nat naive args0 unfitted = (w, Ok (Assembled s)))
    by (vm_compute; eauto).
  destruct H as (w & s & H). exists w, s. split; [exact H|].
  destruct (last_points_series naive args0 unfitted w s [2; 3; 4] eq_refl H eq_refl)
    as (Hl & Hf & Hc & _).
  repeat split; assumption.
Defined.

Lemma empty_schedule_raises_witness :
  scheduled_pred_times args_late = Ok [] /\
  run_historical_forecasts nat naive args_late unfitted =
    (mkWorld unfitted [], Raise EmptyForecastRange).
Proof.
  split; [reflexivity|].
  apply (empty_schedule_raises naive args_late unfitted);
    [simpl; lia | simpl; lia | reflexivity].
Defined.

Lemma build_train_window_witness :
  check_train_length nat naive args_window = Ok tt /\
  len (drop_after (series args_window) 4) = 4 /\
  len (build_train (series args_window) (train_length args_window) 4) = 2 /\
  times (build_train (series args_window) (train_length args_window) 4) = [2; 3].
Proof.
  split; [reflexivity|]. split; [reflexivity|].
  destruct (build_train_window naive args_window 4 eq_refl) as (Hl & _ & Ht).
  split; [exact Hl | exact Ht].
Defined.

(** C7, as stated, fails: half of three combinations is one combination,
    where rounding would give two. *)
Lemma sample_fraction_not_rounded :
  exists l,
    _sample_params [2; 0; 1]%nat [10; 20; 30] (NFloat (1 # 2)) = Ok l /\
    Z.of_nat (List.length l) = 1 /\
    py_round (fl (fl (1 # 2) * fl (inject_Z 3))) = 2.
Proof. exists [30]. repeat split. Qed.

Lemma sample_params_size_witness :
  (exists l,
    _sample_params [2; 0; 1]%nat [10; 20; 30] (NInt 2) = Ok l /\
    Z.of_nat (List.length l) = 2 /\
    drawn_from [10; 20; 30] l) /\
  (exists l,
    _sample_params [2; 0; 1]%nat [10; 20; 30] (NFloat (7 # 10)) = Ok l /\
    Z.of_nat (List.length l) = py_int (fl (fl (7 # 10) * fl (inject_Z 3))) /\
    drawn_from [10; 20; 30] l).
Proof.
  destruct (sample_params_size [2; 0; 1]%nat [10; 20; 30]) as (Hint & _ & Hfloat & _).
  split.
  - apply (Hint 2). simpl. lia.
  - apply (Hfloat (7 # 10)).
    + split; vm_compute; [reflexivity | discriminate].
    + vm_compute. reflexivity.
Defined.

(** The product is the product of floats: of a hundred combinations,
    [0.29] selects 28, where the exact product is 29. *)
Lemma sample_fraction_float_product :
  py_int (fl (fl (29 # 100) * fl (inject_Z 100))) = 28 /\
  Qfloor ((29 # 100) * inject_Z 100) = 29 /\
  exists l,
    _sample_params [] (seq 0 100) (NFloat (29 # 100)) = Ok l /\
    List.length l = 28%nat.
Proof.
  split; [vm_compute; reflexivity|]. split; [vm_compute; reflexivity|].
  eexists. split; vm_compute; reflexivity.
Qed.

(** C8, as stated, fails: with one metric and no reduction, [backtest] on
    whole forecasts returns the row of the first forecast, a list. *)
Lemma backtest_one_metric_not_scalar :
  snd (backtest naive args_segments (OneMetric first_value) None (mkWorld unfitted []))
    = Ok (Vector [inject_Z 11]) /\
  ~ exists x,
      snd (backtest naive args_segments (OneMetric first_value) None (mkWorld unfitted []))
      = Ok (Scalar x).
Proof.
  assert (H : snd (backtest naive args_segments (OneMetric first_value) None
                     (mkWorld unfitted [])) = Ok (Vector [inject_Z 11]))
    by (vm_compute; reflexivity).
  split; [exact H|]. intros [x Hx]. rewrite H in Hx. discriminate.
Qed.

Lemma backtest_scores_witness :
  exists w fcs,
    run_historical_forecasts nat naive args_segments unfitted = (w, Ok (Segments fcs)) /\
    backtest naive args_segments (MetricList [first_value; point_count]) (Some np_mean)
      (mkWorld unfitted []) =
    (w, Ok (Vector [np_mean (map (first_value (series args_segments)) fcs);
                    np_mean (map (point_count (series args_segments)) fcs)])).
Proof.
  assert (H : exists w f fcs,
             run_historical_forecasts nat naive args_segments unfitted =
             (w, Ok (Segments (f :: fcs))))
    by (vm_compute; eauto).
  destruct H as (w & f & fcs & H). exists w, (f :: fcs). split; [exact H|].
  destruct (backtest_scores naive args_segments unfitted w _ H) as [Hseg _].
  destruct (Hseg (f :: fcs) first_value point_count np_mean eq_refl
              ltac:(discriminate)) as (Hv & _).
  exact Hv.
Defined.

Lemma no_retrain_idempotent_witness :
  exists w out,
    run_historical_forecasts nat naive args_never fitted = (w, out) /\
    model w = fitted /\
    fit_counters (trace w) = [] /\
    run_historical_forecasts nat naive args_never (model w) = (w, out).
Proof.
  destruct (run_historical_forecasts nat naive args_never fitted) as [w out] eqn:H.
  exists w, out. split; [reflexivity|].
  apply (no_retrain_idempotent naive args_never fitted w out eq_refl eq_refl H).
Defined.

Lemma retrain_zero_is_false_witness :
  run_historical_forecasts nat naive args_zero unfitted =
  run_historical_forecasts nat naive args_never unfitted /\
  fit_counters (trace (fst (run_historical_forecasts nat naive args_zero unfitted)))
    = [0%nat].
Proof.
  destruct (retrain_zero_is_false naive args_zero unfitted eq_refl eq_refl)
    as (_ & _ & Heq & _).
  split; [exact Heq | reflexivity].
Defined.

(** * Further properties of the code *)

(** ** The prediction times, continued *)

(** When the loop stops, its last time has reached the last valid one. *)
Lemma extend_pred_times_last (fuel : nat) (step last_valid cur : Z) (rest : list Z) :
  extend_pred_times fuel step last_valid cur = Some rest ->
  last_valid <= last (cur :: rest) 0.
Proof.
  revert cur rest. induction fuel as [|fuel IH]; intros cur rest H; simpl in H.
  - destruct (cur <? last_valid) eqn:Hc; [discriminate|]. injection H as <-.
    simpl. lia.
  - destruct (cur <? last_valid) eqn:Hc.
    + destruct (extend_pred_times fuel step last_valid (cur + step)) as [r|] eqn:Hr;
        [|discriminate].
      injection H as <-. apply IH in Hr. exact Hr.
    + injection H as <-. simpl. lia.
Qed.

(** With a step of zero or less, a start before the last valid time is
    never left. *)
Lemma extend_pred_times_stuck (fuel : nat) (step last_valid cur : Z) :
  step <= 0 -> cur < last_valid ->
  extend_pred_times fuel step last_valid cur = None.
Proof.
  intros Hs. revert cur. induction fuel as [|fuel IH]; intros cur Hc; simpl.
  - replace (cur <? last_valid) with true by lia. reflexivity.
  - replace (cur <? last_valid) with true by lia.
    rewrite IH by lia. reflexivity.
Qed.

Lemma last_map_seq (f : nat -> Z) (n : nat) :
  last (map f (seq 0 (S n))) 0 = f n.
Proof.
  rewrite seq_S, map_app. simpl. apply last_last.
Qed.

(** The number of prediction times, for a positive step and a start that is
    not too late. *)
Lemma build_pred_times_count (step last_valid start : Z) (l : list Z) :
  0 < step -> start <= last_valid ->
  build_pred_times step last_valid start = Ok l ->
  Z.of_nat (List.length l) = (last_valid - start) / step + 1.
Proof.
  intros Hs Hle. unfold build_pred_times.
  destruct (extend_pred_times _ step last_valid start) as [rest|] eqn:He;
    [|discriminate].
  pose proof (extend_pred_times_last _ _ _ _ _ He) as Hlast.
  pose proof (extend_pred_times_bound _ _ _ _ _ He) as Hb.
  apply extend_pred_times_progression in He. cbv zeta.
  remember (List.length rest) as k eqn:Hk.
  remember (start :: rest) as pts eqn:Hpts. clear Hpts Hk rest.
  subst pts. rewrite last_map_seq in *.
  assert (Hrl : removelast (map (fun i => start + Z.of_nat i * step) (seq 0 (S k))) =
                map (fun i => start + Z.of_nat i * step) (seq 0 k)).
  { rewrite seq_S, map_app. cbn [map]. apply removelast_last. }
  rewrite Hrl in *.
  assert (Hfull : List.length (map (fun i => start + Z.of_nat i * step) (seq 0 (S k)))
                  = S k) by (rewrite length_map, length_seq; reflexivity).
  remember (map (fun i => start + Z.of_nat i * step) (seq 0 (S k))) as full eqn:Hf.
  clear Hf Hrl.
  assert (Hprev : (0 < k)%nat -> start + Z.of_nat (k - 1) * step < last_valid).
  { intros Hk. rewrite Forall_forall in Hb. apply Hb.
    apply in_map_iff. exists (k - 1)%nat. split; [reflexivity|].
    apply in_seq. lia. }
  destruct (start + Z.of_nat k * step >? last_valid) eqn:Hg;
    intros H; injection H as <-.
  - rewrite length_map, length_seq.
    assert (Hk : (0 < k)%nat) by (destruct k; [simpl in Hg; lia | lia]).
    specialize (Hprev Hk).
    assert (Hq : (last_valid - start) / step = Z.of_nat (k - 1)).
    { symmetry. apply Z.div_unique with (r := last_valid - start - Z.of_nat (k - 1) * step).
      - left. nia.
      - lia. }
    rewrite Hq. lia.
  - rewrite Hfull.
    assert (Hq : (last_valid - start) / step = Z.of_nat k).
    { symmetry. apply Z.div_unique with (r := 0); [left; lia | lia]. }
    rewrite Hq. lia.
Qed.

(** X1: the prediction times of a run form the arithmetic progression that
    starts at the resolved [start] and advances by [series.freq * stride]. *)
Theorem pred_times_progression (a : Args) (l : list Z) :
  scheduled_pred_times a = Ok l ->
  exists start_ts,
    get_timestamp_at_point (series a) (start a) = Ok start_ts /\
    l = map (fun i => start_ts + Z.of_nat i * (freq (series a) * stride a))
          (seq 0 (List.length l)).
Proof.
  intros H. apply scheduled_pred_times_spec in H.
  destruct H as (ts & lv & Hts & _ & Hb).
  exists ts. split; [exact Hts|]. exact (build_pred_times_progression _ lv ts l Hb).
Qed.

(** X2: for a positive step and a start not after the last valid prediction
    time, the run has [(last_valid - start) div step + 1] prediction times:
    every admissible time on the grid of the stride is visited. *)
Theorem pred_times_count (a : Args) (start_ts last_valid : Z) :
  0 < freq (series a) * stride a ->
  get_timestamp_at_point (series a) (start a) = Ok start_ts ->
  _get_last_prediction_time (series a) (forecast_horizon a) (overlap_end a)
    = Ok last_valid ->
  start_ts <= last_valid ->
  exists l,
    scheduled_pred_times a = Ok l /\
    Z.of_nat (List.length l) =
      (last_valid - start_ts) / (freq (series a) * stride a) + 1.
Proof.
  intros Hs Hts Hlv Hle.
  unfold scheduled_pred_times. rewrite Hts, Hlv. simpl.
  destruct (build_pred_times_terminates _ last_valid start_ts Hs) as [l Hl].
  exists l. split; [exact Hl|]. now apply build_pred_times_count.
Qed.

(** X3: the loop that builds the prediction times ends exactly when the
    step is positive or the start is not before the last valid time; a
    stride of zero or less on an earlier start makes it run forever. *)
Theorem pred_times_loop_diverges (step last_valid start : Z) :
  build_pred_times step last_valid start = Diverge <->
  step <= 0 /\ start < last_valid.
Proof.
  split.
  - intros H.
    destruct (Z_lt_le_dec 0 step) as [Hs|Hs].
    + destruct (build_pred_times_terminates step last_valid start Hs) as [l Hl].
      rewrite Hl in H. discriminate.
    + split; [exact Hs|].
      destruct (Z_lt_le_dec start last_valid) as [Hlt|Hge]; [exact Hlt|].
      unfold build_pred_times in H.
      replace (Z.to_nat (last_valid - start)) with O in H by lia. simpl in H.
      replace (start <? last_valid) with false in H by lia. discriminate.
  - intros [Hs Hlt]. unfold build_pred_times.
    now rewrite extend_pred_times_stuck.
Qed.


(** ** The checks before the loop *)

(** X5: a model that does not support historical forecasts without
    retraining refuses every [retrain] other than [True] and [1] with a
    [ValueError], before the model is touched. *)
Theorem retrain_unsupported_raises {St : Type} (M : ForecastingModel St) (a : Args)
    (w : World St) :
  _supports_non_retrainable_historical_forecasts M = false ->
  retrain a <> RetrainBool true ->
  retrain a <> RetrainInt 1 ->
  exists msg, historical_forecasts_body St M a w = (w, Raise (ValueError msg)).
Proof.
  intros Hsup Hb Hi.
  unfold historical_forecasts_body, bind, lift, check_retrain_supported.
  rewrite Hsup.
  assert (Hc : is_callable (retrain a) || negb (int_of_retrain (retrain a) =? 1) = true).
  { destruct (retrain a) as [[|]|k|f]; simpl; try reflexivity.
    - contradiction.
    - destruct (k =? 1) eqn:Hk; [|reflexivity].
      exfalso. apply Hi. f_equal. lia. }
  rewrite Hc. simpl. eauto.
Qed.

(** X6: a negative integer [retrain] is refused with a [ValueError] by
    every model, before the model is touched. *)
Theorem retrain_negative_raises {St : Type} (M : ForecastingModel St) (a : Args)
    (w : World St) (k : Z) :
  retrain a = RetrainInt k ->
  k < 0 ->
  exists msg, historical_forecasts_body St M a w = (w, Raise (ValueError msg)).
Proof.
  intros Hr Hk.
  unfold historical_forecasts_body, bind, lift.
  destruct (check_retrain_supported St M a) as [[]|e|] eqn:Hc.
  - unfold check_train_length.
    destruct (train_length a) as [l|].
    + destruct (l <? 1); [eauto|].
      destruct (l <? min_train_series_length M); [eauto|].
      rewrite Hr. simpl. replace (0 <=? k) with false by lia. eauto.
    + rewrite Hr. simpl. replace (0 <=? k) with false by lia. eauto.
  - unfold check_retrain_supported in Hc.
    destruct (_ && _); [|discriminate]. injection Hc as <-. eauto.
  - unfold check_retrain_supported in Hc.
    destruct (_ && _); discriminate.
Qed.

(** X7: a [train_length] below 1, or below the minimum training length of
    the model, is refused with a [ValueError] before the first iteration. *)
Theorem train_length_too_small_raises {St : Type} (M : ForecastingModel St) (a : Args)
    (w : World St) (l : Z) :
  train_length a = Some l ->
  l < 1 \/ l < min_train_series_length M ->
  exists msg, historical_forecasts_body St M a w = (w, Raise (ValueError msg)).
Proof.
  intros Hl Hsmall.
  unfold historical_forecasts_body, bind, lift.
  destruct (check_retrain_supported St M a) as [[]|e|] eqn:Hc.
  - unfold check_train_length. rewrite Hl.
    destruct (l <? 1) eqn:H1; [eauto|].
    replace (l <? min_train_series_length M) with true by lia. eauto.
  - unfold check_retrain_supported in Hc.
    destruct (_ && _); [|discriminate]. injection Hc as <-. eauto.
  - unfold check_retrain_supported in Hc.
    destruct (_ && _); discriminate.
Qed.

(** ** The calls of a completed run *)

Lemma predict_calls_app (l1 l2 : list Event) :
  predict_calls (l1 ++ l2) = predict_calls l1 ++ predict_calls l2.
Proof. unfold predict_calls. apply flat_map_app. Qed.

Section RunFacts.

Variable St : Type.
Variable M : ForecastingModel St.

(** An iteration that completes has called [predict] once. *)
Lemma iteration_predict (rf : RetrainCallable) (a : Args) (c : nat) (t : Z)
    (w w' : World St) (k : Kept) :
  iteration St M rf a c t w = (w', Ok k) ->
  predict_calls (trace w') =
  predict_calls (trace w) ++
  [(c, t, forecast_horizon a, build_train (series a) (train_length a) t)].
Proof.
  unfold_eng.
  destruct (_fit_called (model w)) eqn:Hfc; simpl.
  - destruct (retrain_future_window rf a t) as [fw| |]; simpl; try discriminate.
    destruct (call rf c t _ _ fw); simpl;
      repeat (break_match; simpl); intros H; inversion H; subst; simpl;
      rewrite ?predict_calls_app; simpl; rewrite ?app_nil_r; reflexivity.
  - repeat (break_match; simpl); intros H; inversion H; subst; simpl;
      rewrite ?predict_calls_app; simpl; rewrite ?app_nil_r; reflexivity.
Qed.

Lemma walk_predict (rf : RetrainCallable) (a : Args) (pts : list Z) :
  forall (c : nat) (w w' : World St) (ks : list Kept),
    walk St M rf a c pts w = (w', Ok ks) ->
    predict_calls (trace w') =
    predict_calls (trace w) ++
    map (fun ct => (fst ct, snd ct, forecast_horizon a,
                    build_train (series a) (train_length a) (snd ct)))
        (combine (seq c (List.length pts)) pts).
Proof.
  induction pts as [|t rest IH]; intros c w w' ks H.
  - simpl in H. unfold ret in H. injection H as <- <-. simpl. now rewrite app_nil_r.
  - rewrite walk_cons in H.
    destruct (iteration St M rf a c t w) as [w1 [k1|e|]] eqn:Eit; try discriminate.
    destruct (walk St M rf a (S c) rest w1) as [w2 [ks'|e|]] eqn:Ew; try discriminate.
    injection H as <- <-.
    rewrite (IH _ _ _ _ Ew), (iteration_predict _ _ _ _ _ _ _ Eit).
    simpl. rewrite <- app_assoc. reflexivity.
Qed.

(** A policy that always asks for a fit is followed at every iteration. *)
Lemma walk_always (rf : RetrainCallable) (a : Args) (pts : list Z) :
  (forall c t fitted, retrain_decision rf a c t fitted = Ok true) ->
  forall (c : nat) (w w' : World St) (ks : list Kept),
    walk St M rf a c pts w = (w', Ok ks) ->
    fit_counters (trace w') = fit_counters (trace w) ++ seq c (List.length pts).
Proof.
  intros Hdec. induction pts as [|t rest IH]; intros c w w' ks H.
  - simpl in H. unfold ret in H. injection H as <- <-. simpl. now rewrite app_nil_r.
  - rewrite walk_cons in H.
    pose proof (iteration_fit St M rf a c t w) as Hit. cbv zeta in Hit.
    rewrite Hdec in Hit. destruct Hit as [Hc _].
    destruct (iteration St M rf a c t w) as [w1 [k1|e|]] eqn:Eit; try discriminate.
    destruct (walk St M rf a (S c) rest w1) as [w2 [ks'|e|]] eqn:Ew; try discriminate.
    injection H as <- <-.
    rewrite (IH _ _ _ _ Ew). simpl in Hc. rewrite Hc, <- app_assoc. reflexivity.
Qed.

(** On a model that has been fit, the fits are the iterations at which the
    retrain function says so. *)
Lemma walk_callable (rf : RetrainCallable) (a : Args) (pts : list Z) :
  forall (c : nat) (w w' : World St) (ks : list Kept),
    _fit_called (model w) = true ->
    walk St M rf a c pts w = (w', Ok ks) ->
    fit_counters (trace w') =
    fit_counters (trace w) ++
    map fst (filter (callable_says rf a) (combine (seq c (List.length pts)) pts)).
Proof.
  induction pts as [|t rest IH]; intros c w w' ks Hf H.
  - simpl in H. unfold ret in H. injection H as <- <-. simpl. now rewrite app_nil_r.
  - rewrite walk_cons in H.
    pose proof (iteration_fit St M rf a c t w) as Hit. cbv zeta in Hit.
    rewrite Hf in Hit.
    destruct (iteration St M rf a c t w) as [w1 [k1|e|]] eqn:Eit; try discriminate.
    destruct (walk St M rf a (S c) rest w1) as [w2 [ks'|e|]] eqn:Ew; try discriminate.
    injection H as <- <-. simpl in Hit.
    assert (H1 : _fit_called (model w1) = true /\
                 fit_counters (trace w1) =
                 fit_counters (trace w) ++
                 (if callable_says rf a (c, t) then [c] else [])).
    { unfold callable_says. simpl.
      destruct (retrain_decision rf a c t true) as [[|]| |].
      - destruct Hit as [Hc Hfit]. split; [eapply Hfit; reflexivity | exact Hc].
      - destruct Hit as [Hc Hm]. rewrite Hm, app_nil_r. auto.
      - destruct Hit as [Hc Hm]. rewrite Hm, app_nil_r. auto.
      - destruct Hit as [Hc Hm]. rewrite Hm, app_nil_r. auto. }
    destruct H1 as [Hf1 Hc1].
    rewrite (IH _ _ _ _ Hf1 Ew), Hc1. simpl.
    destruct (callable_says rf a (c, t)); simpl; rewrite <- app_assoc; reflexivity.
Qed.

Lemma kept_forecasts_length (ks : list Kept) :
  Forall (fun k => is_last_point k = false) ks ->
  List.length (kept_forecasts ks) = List.length ks.
Proof.
  induction 1 as [|k ks Hk _ IH]; [reflexivity|].
  destruct k; [discriminate|]. simpl. now rewrite IH.
Qed.

Lemma filter_all {A : Type} (l : list A) : filter (fun _ => true) l = l.
Proof. induction l as [|x l IH]; simpl; congruence. Qed.

Lemma models_along_length (rf : RetrainCallable) (a : Args) (pts : list Z) :
  forall (c : nat) (m : ModelState St) (ms : list (ModelState St)),
    models_along M rf a c pts m = Ok ms -> List.length ms = List.length pts.
Proof.
  induction pts as [|t rest IH]; intros c m ms H; simpl in H.
  - injection H as <-. reflexivity.
  - destruct (model_after_fit M rf a c t m) as [m1| |]; try discriminate.
    simpl in H. unfold omap in H.
    destruct (models_along M rf a (S c) rest m1) as [ms'| |] eqn:Hms; try discriminate.
    injection H as <-. simpl. f_equal. eapply IH; eauto.
Qed.

(** What a run returns is made of what its iterations kept. *)
Lemma assemble_kept (a : Args) (ks : list Kept) (fs : Forecasts) :
  assemble a ks = Ok fs ->
  match fs with
  | Segments l => last_points_only a = false /\ l = kept_forecasts ks
  | Assembled s => last_points_only a = true /\ values s = kept_values ks
  end.
Proof.
  unfold assemble. destruct (last_points_only a).
  - match goal with
    | |- obind ?o _ = _ -> _ => destruct o as [ix| |]; simpl; try discriminate
    end.
    unfold from_times_and_values.
    destruct (Nat.eqb _ _); simpl; [|discriminate].
    intros H; injection H as <-. auto.
  - intros H; injection H as <-. auto.
Qed.

Lemma kept_of_forecasts (a : Args) (forecasts : list TimeSeries) (ks : list Kept) :
  last_points_only a = false ->
  Forall2 (kept_of a) forecasts ks -> kept_forecasts ks = forecasts.
Proof.
  intros Hlp. unfold kept_of. rewrite Hlp.
  induction 1 as [|f k fcs ks' Hk _ IH]; [reflexivity|].
  subst k. simpl. now rewrite IH.
Qed.

Lemma kept_of_values (a : Args) (forecasts : list TimeSeries) (ks : list Kept) :
  last_points_only a = true ->
  Forall2 (kept_of a) forecasts ks ->
  Forall2 (fun forecast v => list_get (values forecast) (-1) = Ok v)
    forecasts (kept_values ks).
Proof.
  intros Hlp. unfold kept_of. rewrite Hlp.
  induction 1 as [|f k fcs ks' Hk _ IH]; [constructor|].
  destruct Hk as (t & v & -> & _ & Hv). simpl. constructor; assumption.
Qed.

End RunFacts.

(** X8: with [retrain = True] a run that completes has fit the model at
    every iteration, whatever the state of the model at the start: [fit] is
    called at every iteration, and the model the run leaves is the model it
    found, fit by the model's own [fit] at every prediction time in turn, on
    the training series of that time. *)
Theorem retrain_true_fits_always {St : Type} (M : ForecastingModel St) (a : Args)
    (m : ModelState St) (w : World St) (fs : Forecasts) (pts : list Z) :
  retrain a = RetrainBool true ->
  run_historical_forecasts St M a m = (w, Ok fs) ->
  scheduled_pred_times a = Ok pts ->
  fit_counters (trace w) = seq 0 (List.length pts) /\
  fit_at M a (combine (seq 0 (List.length pts)) pts) (learnt m) = Ok (learnt (model w)).
Proof.
  intros Hr Hrun Hpts.
  destruct (run_ok_inv St M a m w fs Hrun) as (rf & pts' & ks & Hrf & Hpts' & Hw & _).
  rewrite Hpts in Hpts'. injection Hpts' as <-. rewrite Hr in Hrf.
  assert (Hdec : forall c t fitted, retrain_decision rf a c t fitted = Ok true).
  { intros c t fitted.
    rewrite (lambda_decision (RetrainBool true) rf a c t fitted eq_refl Hrf).
    unfold retrain_lambda. simpl. rewrite Z.mod_1_r. simpl. now rewrite orb_true_r. }
  split.
  - apply (walk_always St M rf a pts) in Hw; [exact Hw | exact Hdec].
  - apply walk_models in Hw. destruct Hw as (ms & fcs & Hms & Hlast & _).
    simpl in Hms, Hlast. rewrite Hlast.
    rewrite <- (filter_all (combine (seq 0 (List.length pts)) pts)).
    refine (proj1 (models_along_fit_at St M _ rf a pts _ 0%nat m ms _ Hms)).
    + intros c t go Hgo. rewrite Hdec in Hgo. now injection Hgo as <-.
    + intros t go Hgo. rewrite Hdec in Hgo. now injection Hgo as <-.
Qed.

(** X9: a run that completes has called [predict] exactly once per
    prediction time, in the order of the prediction times, each time for
    [forecast_horizon] steps on the training series of that time; and what
    it returns is what the model's own [predict] returned at each
    prediction time, on the model as the iteration had fit it: the
    forecasts themselves, or the last point of each. *)
Theorem predict_once_per_pred_time {St : Type} (M : ForecastingModel St) (a : Args)
    (m : ModelState St) (w : World St) (fs : Forecasts) (pts : list Z)
    (rf : RetrainCallable) :
  run_historical_forecasts St M a m = (w, Ok fs) ->
  scheduled_pred_times a = Ok pts ->
  make_retrain_func (retrain a) = Ok rf ->
  predict_calls (trace w) =
  map (fun ct => (fst ct, snd ct, forecast_horizon a,
                  build_train (series a) (train_length a) (snd ct)))
      (combine (seq 0 (List.length pts)) pts)
  /\
  exists (ms : list (ModelState St)) (forecasts : list TimeSeries),
    models_along M rf a 0 pts m = Ok ms /\
    List.length ms = List.length pts /\
    List.length forecasts = List.length pts /\
    Forall2 (fun mt forecast => predicted_by M a (fst mt) (snd mt) forecast)
      (combine ms pts) forecasts /\
    match fs with
    | Segments l => l = forecasts
    | Assembled s =>
        Forall2 (fun forecast v => list_get (values forecast) (-1) = Ok v)
          forecasts (values s)
    end.
Proof.
  intros Hrun Hpts Hrf.
  destruct (run_ok_inv St M a m w fs Hrun) as (rf' & pts' & ks & Hrf' & Hpts' & Hw & Hasm).
  rewrite Hpts in Hpts'. injection Hpts' as <-.
  rewrite Hrf in Hrf'. injection Hrf' as <-.
  split; [apply walk_predict in Hw; exact Hw|].
  apply walk_models in Hw. destruct Hw as (ms & fcs & Hms & _ & Hp & Hks).
  simpl in Hms.
  pose proof (models_along_length St M rf a pts _ _ _ Hms) as Hlen.
  exists ms, fcs. split; [exact Hms|]. split; [exact Hlen|]. split.
  - apply Forall2_length in Hp. rewrite length_combine in Hp. lia.
  - split; [exact Hp|].
    apply assemble_kept in Hasm. destruct fs as [s|l]; destruct Hasm as [Hlp ->].
    + now apply (kept_of_values a).
    + now apply (kept_of_forecasts a).
Qed.

(** X10: with [last_points_only = False] a run returns one forecast per
    prediction time. *)
Theorem segments_one_per_pred_time {St : Type} (M : ForecastingModel St) (a : Args)
    (m : ModelState St) (w : World St) (fcs : list TimeSeries) (pts : list Z) :
  run_historical_forecasts St M a m = (w, Ok (Segments fcs)) ->
  scheduled_pred_times a = Ok pts ->
  List.length fcs = List.length pts.
Proof.
  intros Hrun Hpts.
  destruct (run_ok_inv St M a m w _ Hrun) as (rf & pts' & ks & _ & Hpts' & Hw & Hasm).
  rewrite Hpts in Hpts'. injection Hpts' as <-.
  pose proof (assemble_kind a ks _ Hasm) as Hk. simpl in Hk.
  apply walk_kept in Hw. destruct Hw as [Hlen Hall]. rewrite Hk in Hall.
  unfold assemble in Hasm. rewrite Hk in Hasm. injection Hasm as <-.
  rewrite kept_forecasts_length by exact Hall. exact Hlen.
Qed.

(** X11: with a callable [retrain] on a model that has been fit, a run that
    completes has fit the model exactly at the iterations for which the
    callable returned [True]: these are the calls to [fit] of the run, and
    the model it leaves is the model it found, fit by the model's own [fit]
    at these iterations, in order. *)
Theorem retrain_callable_decides {St : Type} (M : ForecastingModel St) (a : Args)
    (m : ModelState St) (w : World St) (fs : Forecasts) (pts : list Z)
    (f : RetrainCallable) :
  retrain a = RetrainFn f ->
  _fit_called m = true ->
  run_historical_forecasts St M a m = (w, Ok fs) ->
  scheduled_pred_times a = Ok pts ->
  fit_counters (trace w) =
  map fst (filter (callable_says f a) (combine (seq 0 (List.length pts)) pts))
  /\
  fit_at M a (filter (callable_says f a) (combine (seq 0 (List.length pts)) pts))
    (learnt m) = Ok (learnt (model w)).
Proof.
  intros Hr Hf Hrun Hpts.
  destruct (run_ok_inv St M a m w fs Hrun) as (rf & pts' & ks & Hrf & Hpts' & Hw & _).
  rewrite Hpts in Hpts'. injection Hpts' as <-.
  rewrite Hr in Hrf. simpl in Hrf. injection Hrf as <-.
  assert (Hsays : forall c t go,
             retrain_decision f a c t true = Ok go -> go = callable_says f a (c, t)).
  { intros c t go Hgo. unfold callable_says. simpl. rewrite Hgo. now destruct go. }
  split.
  - apply (walk_callable St M f a pts 0%nat (mkWorld m []) w ks Hf) in Hw. exact Hw.
  - apply walk_models in Hw. destruct Hw as (ms & fcs & Hms & Hlast & _).
    simpl in Hms, Hlast. rewrite Hlast.
    refine (proj1 (models_along_fit_at St M _ f a pts Hsays 0%nat m ms _ Hms)).
    rewrite Hf. intros t go. apply Hsays.
Qed.

(** ** backtest, continued *)

(** X12: with [last_points_only = True], [backtest] with several metrics
    returns the value of each metric on the assembled series; the reduction
    is not applied. *)
Theorem backtest_last_points_ignores_reduction {St : Type} (M : ForecastingModel St)
    (a : Args) (m : ModelState St) (w : World St) (s : TimeSeries) (ms : list Metric)
    (reduction : option (list Q -> Q)) :
  run_historical_forecasts St M a m = (w, Ok (Assembled s)) ->
  (1 < List.length ms)%nat ->
  backtest M a (MetricList ms) reduction (mkWorld m []) =
    (w, Ok (Vector (map (fun metric_f => metric_f (series a) s) ms))).
Proof.
  intros Hrun Hms.
  rewrite (backtest_run M a m w _ _ _ Hrun).
  unfold score_forecasts. rewrite (run_kind M a m w _ Hrun). simpl.
  apply Nat.ltb_lt in Hms. rewrite Hms. reflexivity.
Qed.

(** X13: with one metric, whole forecasts and [reduction = None],
    [backtest] returns a list with a single score, that of the first
    forecast; the scores of the later forecasts are not returned. *)
Theorem backtest_one_metric_unreduced {St : Type} (M : ForecastingModel St)
    (a : Args) (m : ModelState St) (w : World St) (f : TimeSeries)
    (fcs : list TimeSeries) (m1 : Metric) :
  run_historical_forecasts St M a m = (w, Ok (Segments (f :: fcs))) ->
  backtest M a (OneMetric m1) None (mkWorld m []) =
    (w, Ok (Vector [m1 (series a) f])).
Proof.
  intros Hrun.
  rewrite (backtest_run M a m w _ _ _ Hrun).
  unfold score_forecasts. rewrite (run_kind M a m w _ Hrun). reflexivity.
Qed.

(** ** ModelMeta *)

Module ModelMetaFacts.
Import ModelMeta.

Section Facts.

Variable V : Type.
Implicit Types (d : OrderedDict V) (k : string) (v : option V).

Lemma od_get_set_eq k v d : od_get k (od_set k v d) = Some v.
Proof.
  induction d as [|[k' v'] t IH]; simpl.
  - now rewrite String.eqb_refl.
  - destruct (String.eqb k k') eqn:E; simpl.
    + now rewrite String.eqb_refl.
    + now rewrite E.
Qed.

Lemma od_get_set_neq k k' v d :
  k <> k' -> od_get k (od_set k' v d) = od_get k d.
Proof.
  intros Hne. induction d as [|[k2 v2] t IH]; simpl.
  - apply String.eqb_neq in Hne. now rewrite Hne.
  - destruct (String.eqb k' k2) eqn:E; simpl.
    + apply String.eqb_eq in E. subst k2.
      apply String.eqb_neq in Hne. now rewrite Hne.
    + destruct (String.eqb k k2); [reflexivity | exact IH].
Qed.

Lemma od_set_keys_in k v d :
  od_get k d <> None -> map fst (od_set k v d) = map fst d.
Proof.
  induction d as [|[k' v'] t IH]; simpl; [congruence|].
  destruct (String.eqb k k') eqn:E; simpl.
  - intros _. apply String.eqb_eq in E. now subst.
  - intros H. now rewrite IH.
Qed.

Lemma od_get_in_keys k d : od_get k d <> None <-> In k (map fst d).
Proof.
  induction d as [|[k' v'] t IH]; simpl; [tauto|].
  destruct (String.eqb k k') eqn:E.
  - apply String.eqb_eq in E. subst. split; [auto | discriminate].
  - apply String.eqb_neq in E. rewrite IH. split; [auto|].
    intros [H|H]; [congruence | exact H].
Qed.

Lemma od_get_pop_eq k d : NoDup (map fst d) -> od_get k (od_pop k d) = None.
Proof.
  induction d as [|[k' v'] t IH]; simpl; [reflexivity|].
  intros Hnd. inversion Hnd as [|? ? Hnotin Hnd']; subst.
  destruct (String.eqb k k') eqn:E; simpl.
  - apply String.eqb_eq in E. subst k'.
    destruct (od_get k t) eqn:G; [|reflexivity].
    exfalso. apply Hnotin. apply od_get_in_keys. congruence.
  - rewrite E. now apply IH.
Qed.

Lemma od_get_pop_neq k k' d : k <> k' -> od_get k (od_pop k' d) = od_get k d.
Proof.
  intros Hne. induction d as [|[k2 v2] t IH]; simpl; [reflexivity|].
  destruct (String.eqb k' k2) eqn:E; simpl.
  - apply String.eqb_eq in E. subst k2.
    apply String.eqb_neq in Hne. now rewrite Hne.
  - destruct (String.eqb k k2); [reflexivity | exact IH].
Qed.

Lemma od_pop_keys_nodup k d : NoDup (map fst d) -> NoDup (map fst (od_pop k d)).
Proof.
  induction d as [|[k' v'] t IH]; simpl; [auto|].
  intros Hnd. inversion Hnd as [|? ? Hnotin Hnd']; subst.
  destruct (String.eqb k k'); [exact Hnd'|].
  simpl. constructor; [|now apply IH].
  intros Hin. apply Hnotin.
  apply od_get_in_keys. apply od_get_in_keys in Hin.
  destruct (String.eqb_spec k' k) as [->|Hne].
  - rewrite od_get_pop_eq in Hin by exact Hnd'. congruence.
  - now rewrite od_get_pop_neq in Hin.
Qed.

(** Popping a list of keys. *)
Lemma od_get_pop_all (ks : list string) :
  forall d k,
    NoDup (map fst d) ->
    od_get k (fold_left (fun d param => od_pop param d) ks d) =
    if in_dec string_dec k ks then None else od_get k d.
Proof.
  induction ks as [|k0 ks IH]; intros d k Hnd; [reflexivity|].
  cbn [fold_left]. rewrite IH by now apply od_pop_keys_nodup.
  destruct (in_dec string_dec k (k0 :: ks)) as [Hin'|Hnin'];
    destruct (in_dec string_dec k ks) as [Hin|Hnin]; try reflexivity.
  - destruct Hin' as [->|Hc]; [|contradiction]. now apply od_get_pop_eq.
  - exfalso. apply Hnin'. now right.
  - apply od_get_pop_neq. intros ->. apply Hnin'. now left.
Qed.

(** The keyword arguments, applied in order. *)
Lemma od_get_update (kwargs : list (string * V)) :
  forall d k,
    od_get k (fold_left (fun d kv => od_set (fst kv) (Some (snd kv)) d) kwargs d) =
    match kw_get k (rev kwargs) with
    | Some v => Some (Some v)
    | None => od_get k d
    end.
Proof.
  induction kwargs as [|[k0 v0] kw IH] using rev_ind; intros d k; simpl; [reflexivity|].
  rewrite fold_left_app, rev_app_distr. simpl.
  destruct (String.eqb_spec k k0) as [->|Hne].
  - now rewrite od_get_set_eq.
  - rewrite od_get_set_neq by exact Hne. apply IH.
Qed.

Lemma kw_get_in (kwargs : list (string * V)) k (x : V) :
  NoDup (map fst kwargs) -> In (k, x) kwargs -> kw_get k kwargs = Some x.
Proof.
  induction kwargs as [|[k0 v0] kw IH]; simpl; [tauto|].
  intros Hnd Hin. inversion Hnd as [|? ? Hnotin Hnd']; subst.
  destruct Hin as [Heq|Hin].
  - injection Heq as -> ->. now rewrite String.eqb_refl.
  - destruct (String.eqb_spec k k0) as [->|Hne]; [|now apply IH].
    exfalso. apply Hnotin. change k0 with (fst (k0, x)). now apply in_map.
Qed.

Lemma kw_get_none_iff (kwargs : list (string * V)) k :
  kw_get k kwargs = None <-> ~ In k (map fst kwargs).
Proof.
  induction kwargs as [|[k0 v0] kw IH]; simpl; [tauto|].
  destruct (String.eqb k k0) eqn:E.
  - apply String.eqb_eq in E. split; [discriminate | intros H; exfalso; auto].
  - apply String.eqb_neq in E. rewrite IH. split.
    + intros H [Hc|Hc]; [congruence | auto].
    + intros H Hc. apply H. now right.
Qed.

Lemma kw_get_none_rev (kwargs : list (string * V)) k :
  kw_get k kwargs = None -> kw_get k (rev kwargs) = None.
Proof.
  rewrite !kw_get_none_iff, map_rev. intros H Hc. apply H. now apply in_rev.
Qed.

(** The positional arguments, assigned to the first parameters. *)
Lemma od_get_positional (ks : list string) :
  forall (args : list V) d k i,
    NoDup ks ->
    (forall k', In k' ks -> od_get k' d <> None) ->
    nth_error ks i = Some k ->
    od_get k (fold_left (fun d pa => od_set (fst pa) (Some (snd pa)) d)
                (combine ks args) d) =
    match nth_error args i with
    | Some x => Some (Some x)
    | None => od_get k d
    end.
Proof.
  induction ks as [|k0 ks IH]; intros args d k i Hnd Hkeys Hi.
  - destruct i; discriminate.
  - inversion Hnd as [|? ? Hnotin Hnd']; subst.
    destruct args as [|x args]; simpl.
    + now destruct i.
    + destruct i as [|i]; simpl in Hi.
      * injection Hi as ->.
        assert (Hstay : forall (l : list (string * V)) d',
                   ~ In k (map fst l) ->
                   od_get k (fold_left (fun d pa => od_set (fst pa) (Some (snd pa)) d) l d')
                   = od_get k d').
        { induction l as [|[k1 x1] l IHl]; intros d' Hn; simpl; [reflexivity|].
          rewrite IHl by (simpl in Hn; tauto).
          apply od_get_set_neq. simpl in Hn. intros ->. tauto. }
        rewrite Hstay.
        -- simpl. apply od_get_set_eq.
        -- intros Hin. apply Hnotin. clear -Hin.
           revert args Hin. induction ks as [|k1 ks IHk]; intros [|x1 args] Hin;
             simpl in *; try tauto.
           destruct Hin as [->|Hin]; [auto | right; eauto].
      * assert (Hne : k <> k0).
        { intros ->. apply Hnotin. eapply nth_error_In; eauto. }
        rewrite (IH args (od_set k0 (Some x) d) k i Hnd').
        -- simpl. destruct (nth_error args i); [reflexivity|].
           now apply od_get_set_neq.
        -- intros k' Hk'.
           destruct (String.eqb_spec k' k0) as [->|Hne'].
           ++ rewrite od_get_set_eq. discriminate.
           ++ rewrite od_get_set_neq by exact Hne'. apply Hkeys. now right.
        -- exact Hi.
Qed.

Lemma od_get_of_list (l : list (string * option V)) k v i :
  NoDup (map fst l) -> nth_error l i = Some (k, v) -> od_get k l = Some v.
Proof.
  revert i. induction l as [|[k0 v0] l IH]; intros i Hnd Hi.
  - destruct i; discriminate.
  - inversion Hnd as [|? ? Hnotin Hnd']; subst.
    destruct i as [|i]; simpl in *.
    + injection Hi as -> ->. now rewrite String.eqb_refl.
    + destruct (String.eqb_spec k k0) as [->|Hne]; [|eauto].
      exfalso. apply Hnotin. apply nth_error_In in Hi.
      change k0 with (fst (k0, v)). now apply in_map.
Qed.

Lemma set_all_keys (l : list (string * V)) :
  forall d,
    (forall k, In k (map fst l) -> od_get k d <> None) ->
    map fst (fold_left (fun d pa => od_set (fst pa) (Some (snd pa)) d) l d) = map fst d.
Proof.
  induction l as [|[k0 x0] l IH]; intros d Hk; simpl; [reflexivity|].
  rewrite IH.
  - apply od_set_keys_in. apply Hk. now left.
  - intros k Hin. simpl.
    destruct (String.eqb_spec k k0) as [->|Hne].
    + rewrite od_get_set_eq. discriminate.
    + rewrite od_get_set_neq by exact Hne. apply Hk. now right.
Qed.

Lemma in_combine_keys (ks : list string) (args : list V) k :
  In k (map fst (combine ks args)) -> In k ks.
Proof.
  revert args. induction ks as [|k0 ks IH]; intros [|x args]; simpl; try tauto.
  intros [->|H]; [auto | right; eauto].
Qed.

Lemma filter_keys_nodup (f : string * option V -> bool) (l : list (string * option V)) :
  NoDup (map fst l) -> NoDup (map fst (filter f l)).
Proof.
  induction l as [|[k v] l IH]; simpl; [auto|].
  intros Hnd. inversion Hnd as [|? ? Hnotin Hnd']; subst.
  destruct (f (k, v)); [|now apply IH].
  simpl. constructor; [|now apply IH].
  intros Hin. apply Hnotin. apply in_map_iff in Hin.
  destruct Hin as ([k' v'] & Hk & Hin). simpl in Hk. subst k'.
  apply filter_In in Hin. destruct Hin as [Hin _].
  change k with (fst (k, v')). now apply in_map.
Qed.

Lemma od_get_some_in d k v : od_get k d = Some v -> In (k, v) d.
Proof.
  induction d as [|[k0 v0] t IH]; simpl; [discriminate|].
  destruct (String.eqb_spec k k0) as [->|Hne].
  - intros H; injection H as ->. now left.
  - intros H. right. now apply IH.
Qed.

Lemma in_od_get d k v : NoDup (map fst d) -> In (k, v) d -> od_get k d = Some v.
Proof.
  intros Hnd Hin. apply In_nth_error in Hin. destruct Hin as [i Hi].
  now apply (od_get_of_list d k v i).
Qed.

(** The state of [all_params] after steps 1 to 3. *)
Lemma od_get_before_kwargs (sig : list (string * option V)) (args : list V) k dflt i :
  NoDup (map fst sig) ->
  nth_error (parameters sig) i = Some (k, dflt) ->
  let filled :=
    fold_left (fun d pa => od_set (fst pa) (Some (snd pa)) d)
      (combine (map fst (parameters sig)) args) (parameters sig) in
  od_get k
    (fold_left (fun d param => od_pop param d)
       (map fst (filter (fun kv => is_empty (snd kv)) filled)) filled) =
  match nth_error args i with
  | Some x => Some (Some x)
  | None => match dflt with Some x => Some (Some x) | None => None end
  end.
Proof.
  intros Hnd Hi. cbv zeta.
  assert (Hndp : NoDup (map fst (parameters sig))) by now apply filter_keys_nodup.
  set (filled := fold_left (fun d pa => od_set (fst pa) (Some (snd pa)) d)
                   (combine (map fst (parameters sig)) args) (parameters sig)).
  assert (Hkeys : map fst filled = map fst (parameters sig)).
  { unfold filled. apply set_all_keys. intros k' Hin.
    apply in_combine_keys in Hin. now apply od_get_in_keys. }
  assert (Hget : od_get k filled =
                 match nth_error args i with
                 | Some x => Some (Some x)
                 | None => Some dflt
                 end).
  { unfold filled.
    rewrite (od_get_positional (map fst (parameters sig)) args (parameters sig) k i Hndp).
    - destruct (nth_error args i); [reflexivity|].
      now apply (od_get_of_list _ k dflt i).
    - intros k' Hin. now apply od_get_in_keys.
    - rewrite nth_error_map, Hi. reflexivity. }
  assert (Hndf : NoDup (map fst filled)) by (rewrite Hkeys; exact Hndp).
  rewrite od_get_pop_all by exact Hndf.
  destruct (in_dec string_dec k
              (map fst (filter (fun kv => is_empty (snd kv)) filled))) as [Hin|Hnin].
  - apply in_map_iff in Hin. destruct Hin as ([k' v'] & Hk & Hin). simpl in Hk. subst k'.
    apply filter_In in Hin. destruct Hin as [Hin Hemp]. simpl in Hemp.
    apply (in_od_get filled k v' Hndf) in Hin. rewrite Hin in Hget.
    destruct v' as [x|]; [discriminate|].
    destruct (nth_error args i); [discriminate|].
    injection Hget as <-. reflexivity.
  - rewrite Hget. destruct (nth_error args i) as [x|]; [reflexivity|].
    destruct dflt as [x|]; [reflexivity|].
    exfalso. apply Hnin. apply in_map_iff. exists (k, None). split; [reflexivity|].
    apply filter_In. split; [|reflexivity].
    apply od_get_some_in. exact Hget.
Qed.

(** X14: a parameter of the signature that is not given by keyword is
    recorded with the positional argument at its position, else with its
    default; a parameter without default that is not passed is not
    recorded at all. *)
Theorem call_records_parameter (sig : list (string * option V)) (args : list V)
    (kwargs : list (string * V)) k dflt i :
  NoDup (map fst sig) ->
  nth_error (parameters sig) i = Some (k, dflt) ->
  kw_get k kwargs = None ->
  od_get k (__call__ sig args kwargs) =
  match nth_error args i with
  | Some x => Some (Some x)
  | None => match dflt with Some x => Some (Some x) | None => None end
  end.
Proof.
  intros Hnd Hi Hkw. unfold __call__. cbv zeta.
  rewrite od_get_update, (kw_get_none_rev _ _ Hkw).
  exact (od_get_before_kwargs sig args k dflt i Hnd Hi).
Qed.

(** X15: a keyword argument is recorded with its value, whether or not the
    signature has a parameter of that name, and whatever was passed by
    position. *)
Theorem call_records_kwargs (sig : list (string * option V)) (args : list V)
    (kwargs : list (string * V)) k (x : V) :
  NoDup (map fst kwargs) ->
  In (k, x) kwargs ->
  od_get k (__call__ sig args kwargs) = Some (Some x).
Proof.
  intros Hnd Hin. unfold __call__. cbv zeta.
  rewrite od_get_update.
  rewrite (kw_get_in (rev kwargs) k x).
  - reflexivity.
  - rewrite map_rev. now apply NoDup_rev.
  - now apply in_rev in Hin.
Qed.

End Facts.

End ModelMetaFacts.

(** ** gridsearch, continued *)

Module GridsearchFacts.
Import Gridsearch.

Lemma Qle_bool_false (x y : Q) : Qle_bool x y = false -> (y <= x)%Q.
Proof.
  intros H. apply Qlt_le_weak. apply Qnot_le_lt. intros Hle.
  apply Qle_bool_iff in Hle. congruence.
Qed.

(** A combination takes one value from each list. *)
Lemma product_spec {A : Type} (lists : list (list A)) :
  forall c, In c (product lists) -> Forall2 (fun x l => In x l) c lists.
Proof.
  induction lists as [|l rest IH]; intros c; simpl.
  - intros [<-|[]]. constructor.
  - intros Hin. apply in_flat_map in Hin. destruct Hin as (x & Hx & Hc).
    apply in_map_iff in Hc. destruct Hc as (c' & <- & Hc').
    constructor; [exact Hx | now apply IH].
Qed.


(** The combinations that are evaluated are combinations of the grid. *)
Lemma gridsearch_combinations_incl {A : Type} (rnd : list nat) (pcp : list A)
    (n : option NRandomSamples) (l : list A) (x : A) :
  gridsearch_combinations rnd pcp n = Ok l -> In x l -> In x pcp.
Proof.
  unfold gridsearch_combinations, _sample_params, sample.
  destruct n as [[k|q]|].
  - destruct ((0 <? k) && (k <=? Z.of_nat (List.length pcp))); [|discriminate].
    destruct ((0 <=? k) && (k <=? Z.of_nat (List.length pcp))); [|discriminate].
    intros H; injection H as <-. apply draw_In.
  - destruct (negb (Qle_bool (fl q) 0) && Qle_bool (fl q) 1); [|discriminate].
    destruct ((0 <=? _) && (_ <=? Z.of_nat (List.length pcp))); [|discriminate].
    intros H; injection H as <-. apply draw_In.
  - intros H; injection H as <-. auto.
Qed.


Section Facts.

Variable V : Type.
Variable truthy_value : V -> bool.
Variable stamp : V -> V.
Variable St : Type.
Variable model_class : ModelClass V St.
Variable parameters : list (string * list V).
Variable series : TimeSeries.
Variable past_covariates future_covariates : option TimeSeries.
Variable forecast_horizon : option Z.
Variable stride : Z.
Variable start : Start.
Variable last_points_only : bool.
Variable val_series : option TimeSeries.
Variable use_fitted_values : bool.
Variable metric : Metric.
Variable reduction : option (list Q -> Q).
Variable n_random_samples : option NRandomSamples.
Variable rnd : list nat.

Local Abbreviation search :=
  (gridsearch V truthy_value stamp St model_class parameters series past_covariates
     future_covariates forecast_horizon stride start last_points_only val_series
     use_fitted_values metric reduction n_random_samples rnd).

Local Abbreviation evaluate :=
  (_evaluate_combination V truthy_value stamp St model_class parameters series
     past_covariates future_covariates forecast_horizon stride start last_points_only
     val_series use_fitted_values metric reduction).

(** A search that returns has gone through every step. *)
Lemma gridsearch_inv (m : ForecastingModel St) (best : list (string * V)) (err : Q) :
  search = Ok (m, best, err) ->
  exists combos errors i c,
    gridsearch_combinations rnd (product (map snd parameters)) n_random_samples
      = Ok combos /\
    _parallel_apply evaluate combos = Ok errors /\
    py_min errors = Ok err /\
    py_list_index err errors = Ok i /\
    nth_error combos i = Some c /\
    best = param_dict V parameters c /\
    m = construct model_class best.
Proof.
  unfold gridsearch.
  destruct (negb (Nat.eqb _ 1)); [discriminate|].
  match goal with
  | |- obind ?chk _ = _ -> _ => destruct chk as [[]|e|]; simpl; try discriminate
  end.
  destruct (gridsearch_combinations rnd _ n_random_samples) as [combos|e|] eqn:Hc;
    simpl; try discriminate.
  destruct (_parallel_apply evaluate combos) as [errors|e|] eqn:He;
    simpl; try discriminate.
  destruct (py_min errors) as [mn|e|] eqn:Hm; simpl; try discriminate.
  destruct (py_list_index mn errors) as [i|e|] eqn:Hi; simpl; try discriminate.
  unfold list_get.
  destruct (py_index _ (Z.of_nat i)) as [j|] eqn:Hj; [|discriminate].
  destruct (nth_error combos (Z.to_nat j)) as [c|] eqn:Hn; simpl; [|discriminate].
  intros H. injection H as <- <- <-.
  apply py_index_spec in Hj.
  assert (Hji : Z.to_nat j = i) by lia. rewrite Hji in Hn.
  exists combos, errors, i, c. repeat split; assumption.
Qed.

(** Unless exactly one of [forecast_horizon], [val_series] and
    [use_fitted_values] is given, the search raises a [ValueError]. *)
Lemma gridsearch_one_mode :
  modes_selected forecast_horizon val_series use_fitted_values <> 1%nat ->
  exists msg, search = Raise (ValueError msg).
Proof.
  intros H. unfold gridsearch.
  apply Nat.eqb_neq in H. rewrite H. simpl. eauto.
Qed.

(** X17: the parameters that the search returns give to every
    hyper-parameter of the grid, in the order of the grid, one of its
    candidate values. *)
Theorem gridsearch_best_from_grid (m : ForecastingModel St)
    (best : list (string * V)) (err : Q) :
  search = Ok (m, best, err) ->
  Forall2 (fun p kv => fst kv = fst p /\ In (snd kv) (snd p)) parameters best.
Proof.
  intros H. apply gridsearch_inv in H.
  destruct H as (combos & errors & i & c & Hc & _ & _ & _ & Hn & -> & _).
  apply nth_error_In in Hn.
  apply (gridsearch_combinations_incl _ _ _ _ _ Hc) in Hn.
  apply product_spec in Hn. unfold param_dict.
  clear -Hn. revert c Hn.
  induction parameters as [|[k cands] ps IH]; intros c Hn; simpl in *.
  - inversion Hn. constructor.
  - inversion Hn as [|x l c' ls Hx Hrest]; subst. simpl.
    constructor; [simpl; auto | now apply IH].
Qed.


End Facts.

End GridsearchFacts.

(** ** The model classes *)

Module FutureCovariatesLocalFacts.
Import FutureCovariatesLocal.

Section Facts.

Variable St : Type.
Variable has_same_time_as : TimeSeries -> TimeSeries -> bool.
Variable slice_intersect : TimeSeries -> TimeSeries -> TimeSeries.
Variable slice_times : TimeSeries -> Z -> Z -> TimeSeries.
Variable C : Subclass St.

Local Abbreviation fit := (fit St has_same_time_as slice_intersect C).
Local Abbreviation predict := (predict St slice_times C).
Local Abbreviation model_of_class :=
  (as_forecasting_model St has_same_time_as slice_intersect slice_times C).

(** A series that is too short makes [fit] raise. *)
Lemma fit_short (self : Self.t St) (series : TimeSeries) (fc : option TimeSeries) :
  len series < min_train_series_length C ->
  exists self' msg,
    fit self series fc = (self', Raise (ValueError msg)) /\
    Self._fit_called self' = Self._fit_called self.
Proof.
  intros Hshort. unfold FutureCovariatesLocal.fit, base_fit.
  replace (len series <? min_train_series_length C) with true by lia.
  destruct fc as [fc|]; [|simpl; eauto].
  destruct (has_same_time_as series
              (if negb (has_same_time_as series fc) then slice_intersect fc series else fc));
    simpl; eauto.
Qed.

(** The cases of a [fit] that returns. *)
Ltac fit_returns Hmin :=
  unfold FutureCovariatesLocal.fit, base_fit;
  match goal with
  | |- context [len ?series <? min_train_series_length ?C] =>
      destruct (len series <? min_train_series_length C) eqn:Hlen;
      [ | assert (Hmin : min_train_series_length C <= len series) by lia ]
  end;
  repeat (break_match; simpl; try discriminate);
  try (intros H; injection H as <-; simpl; auto).

Lemma fit_ok_flags (self self' : Self.t St) (series : TimeSeries)
    (fc : option TimeSeries) :
  fit self series fc = (self', Ok tt) ->
  Self._fit_called self' = true /\
  Self._expect_covariate self' =
    Gridsearch.is_some fc || Self._expect_covariate self.
Proof. fit_returns Hmin. Qed.

(** X19: a [fit] that returns has recorded the series, which has at least
    [min_train_series_length] points, and has marked the model as fit; the
    model expects future covariates from then on exactly when it was given
    some or already expected them. *)
Theorem fit_records (self self' : Self.t St) (series : TimeSeries)
    (fc : option TimeSeries) :
  fit self series fc = (self', Ok tt) ->
  Self._fit_called self' = true /\
  Self.training_series self' = Some series /\
  min_train_series_length C <= len series /\
  Self._expect_covariate self' =
    Gridsearch.is_some fc || Self._expect_covariate self.
Proof.
  unfold FutureCovariatesLocal.fit, base_fit.
  destruct (len series <? min_train_series_length C) eqn:Hlen.
  - destruct fc as [fc|]; simpl.
    + destruct (has_same_time_as series _); simpl; discriminate.
    + discriminate.
  - assert (Hmin : min_train_series_length C <= len series) by lia.
    destruct fc as [fc|]; simpl.
    + destruct (has_same_time_as series _); simpl; [|discriminate].
      destruct (negb (has_datetime_index series)).
      * destruct (_supports_range_index C); simpl; try discriminate.
        destruct (_fit C _ series _); simpl; try discriminate.
        intros H; injection H as <-. simpl. auto.
      * destruct (_fit C _ series _); simpl; try discriminate.
        intros H; injection H as <-. simpl. auto.
    + destruct (negb (has_datetime_index series)).
      * destruct (_supports_range_index C); simpl; try discriminate.
        destruct (_fit C _ series _); simpl; try discriminate.
        intros H; injection H as <-. simpl. auto.
      * destruct (_fit C _ series _); simpl; try discriminate.
        intros H; injection H as <-. simpl. auto.
Qed.

(** [predict] on a model that has not been fit raises a [ValueError]. *)
Lemma predict_before_fit (self : Self.t St) (n : Z) (fc : option TimeSeries)
    (num_samples : Z) :
  Self._fit_called self = false ->
  exists msg, predict self n fc num_samples = Raise (ValueError msg).
Proof.
  intros H. unfold FutureCovariatesLocal.predict, base_predict. rewrite H. simpl. eauto.
Qed.

(** X20: the covariates of [predict] must match those of [fit]: after a
    [fit] with future covariates, [predict] without them raises a
    [ValueError]; after a [fit] without them, on a model that expected
    none, [predict] with future covariates raises a [ValueError]. *)
Theorem predict_covariates_as_fit (self self' : Self.t St) (series : TimeSeries)
    (fc : option TimeSeries) (n num_samples : Z) :
  fit self series fc = (self', Ok tt) ->
  (forall c, fc = Some c ->
     exists msg, predict self' n None num_samples = Raise (ValueError msg)) /\
  (fc = None -> Self._expect_covariate self = false ->
     forall c, exists msg, predict self' n (Some c) num_samples = Raise (ValueError msg)).
Proof.
  intros Hfit. destruct (fit_ok_flags self self' series fc Hfit) as (Hf & He).
  unfold FutureCovariatesLocal.predict, base_predict. rewrite Hf, He. simpl.
  split.
  - intros c ->. simpl.
    destruct (negb (_is_probabilistic C) && (num_samples >? 1)); simpl; eauto.
  - intros -> Hex c. rewrite Hex. simpl.
    destruct (negb (_is_probabilistic C) && (num_samples >? 1)); simpl; eauto.
Qed.

(** An iteration whose fit raises stops there, without predicting. *)
Lemma iteration_fit_raises {S' : Type} (M : ForecastingModel S') (rf : RetrainCallable)
    (a : Args) (c : nat) (t : Z) (w : World S') (e : Error) :
  retrain_decision rf a c t (_fit_called (model w)) = Ok true ->
  fit_wrapper M (learnt (model w)) (build_train (series a) (train_length a) t)
    (past_covariates a) (future_covariates a) = Raise e ->
  exists w',
    iteration S' M rf a c t w = (w', Raise e) /\
    predict_calls (trace w') = predict_calls (trace w).
Proof.
  unfold retrain_decision. unfold_eng.
  destruct (_fit_called (model w)) eqn:Hfc; simpl.
  - destruct (retrain_future_window rf a t) as [fw| |]; simpl; try discriminate.
    intros Hcall Hfit. injection Hcall as Hcall. rewrite Hcall. simpl.
    rewrite Hfit. simpl. eexists. split; [reflexivity|].
    simpl. rewrite !predict_calls_app. simpl. now rewrite !app_nil_r.
  - intros _ Hfit. rewrite Hfit. simpl. eexists. split; [reflexivity|].
    simpl. rewrite !predict_calls_app. simpl. now rewrite !app_nil_r.
Qed.

(** X21: in a walk-forward run on a model of this class with
    [retrain = True], a first training series with fewer points than
    [min_train_series_length] makes the run raise a [ValueError] before any
    prediction is made. *)
Theorem short_first_window_raises (a : Args) (m : ModelState (Self.t St))
    (t0 : Z) (rest : list Z) :
  retrain a = RetrainBool true ->
  0 < forecast_horizon a ->
  0 < stride a ->
  scheduled_pred_times a = Ok (t0 :: rest) ->
  len (build_train (series a) (train_length a) t0) < min_train_series_length C ->
  exists w msg,
    run_historical_forecasts (Self.t St) model_of_class a m
      = (w, Raise (ValueError msg)) /\
    predict_calls (trace w) = [].
Proof.
  intros Hr Hh Hs Hsch Hshort.
  destruct (scheduled_pred_times_spec a _ Hsch) as (ts & lv & Hts & Hlv & Hb).
  assert (Hle : ~ lv < ts).
  { intros Hlt.
    apply (proj2 (build_pred_times_empty (freq (series a) * stride a) lv ts)) in Hlt.
    congruence. }
  unfold run_historical_forecasts, historical_forecasts, bind, lift,
    _historical_forecasts_sanity_checks.
  replace (forecast_horizon a <=? 0) with false by lia.
  replace (stride a <=? 0) with false by lia.
  rewrite Hts. simpl. rewrite Hlv.
  replace (ts >? lv) with false by lia.
  unfold historical_forecasts_body, bind, lift, check_retrain_supported.
  rewrite Hr. simpl.
  destruct (check_train_length (Self.t St) model_of_class a) as [[]|e|] eqn:Hc.
  - rewrite Hsch.
    rewrite walk_cons.
    set (rf := _retrain_wrapper
                 (mkRetrainCallable false false
                    (fun counter _ _ _ _ => retrain_lambda (RetrainBool true) counter))).
    set (w0 := mkWorld m []).
    assert (Hdec : retrain_decision rf a 0 t0 (_fit_called (model w0)) = Ok true).
    { rewrite (lambda_decision (RetrainBool true) rf a 0%nat t0 _ eq_refl eq_refl).
      unfold retrain_lambda. simpl. now rewrite orb_true_r. }
    destruct (fit_short (learnt (model w0))
                (build_train (series a) (train_length a) t0)
                (future_covariates a) Hshort) as (self' & msg & Hfit & _).
    assert (Hfw : fit_wrapper model_of_class (learnt (model w0))
                    (build_train (series a) (train_length a) t0)
                    (past_covariates a) (future_covariates a)
                  = Raise (ValueError msg)).
    { unfold as_forecasting_model. cbn [fit_wrapper]. rewrite Hfit. reflexivity. }
    destruct (iteration_fit_raises model_of_class rf a 0%nat t0 w0 _ Hdec Hfw)
      as (w' & Hit & Hp).
    rewrite Hit. exists w', msg. split; [reflexivity | exact Hp].
  - unfold check_train_length in Hc.
    destruct (train_length a) as [l|]; [|discriminate].
    destruct (l <? 1); [injection Hc as <-; eauto|].
    destruct (l <? _); [injection Hc as <-; eauto | discriminate].
  - unfold check_train_length in Hc.
    destruct (train_length a) as [l|]; [|discriminate].
    destruct (l <? 1); [discriminate|].
    destruct (l <? _); discriminate.
Qed.

End Facts.

End FutureCovariatesLocalFacts.

Module GlobalModelFacts.
Import GlobalModel.

(** A [fit] never clears what the model expects. *)
Lemma fit_keeps_expectations (self self' : Self.t) (series : SeriesArg)
    (pc fc : option SeriesArg) :
  fit self series pc fc = Ok self' ->
  Self._fit_called self' = true /\
  (Self._expect_past_covariates self = true ->
   Self._expect_past_covariates self' = true) /\
  (Self._expect_future_covariates self = true ->
   Self._expect_future_covariates self' = true).
Proof.
  unfold fit. destruct series as [s|l].
  - intros H; injection H as <-. simpl. auto.
  - destruct (list_get l 0) as [first| |]; simpl; try discriminate.
    intros H; injection H as <-. simpl.
    repeat split; intros ->; apply orb_true_r.
Qed.

Lemma fits_keep_expectations (calls : list (SeriesArg * option SeriesArg * option SeriesArg)) :
  forall self self',
    fits self calls = Ok self' ->
    Self._fit_called self = true ->
    Self._fit_called self' = true /\
    (Self._expect_past_covariates self = true ->
     Self._expect_past_covariates self' = true) /\
    (Self._expect_future_covariates self = true ->
     Self._expect_future_covariates self' = true).
Proof.
  induction calls as [|[[series pc] fc] rest IH]; intros self self'; simpl.
  - intros H; injection H as <-. auto.
  - destruct (fit self series pc fc) as [s1| |] eqn:Hfit; simpl; try discriminate.
    intros Hrest _.
    destruct (fit_keeps_expectations _ _ _ _ _ Hfit) as (Hf1 & Hp1 & Hq1).
    destruct (IH s1 self' Hrest Hf1) as (Hf & Hp & Hq). auto.
Qed.

(** X22: once a model has been fit on several series with past covariates
    (or with future covariates), [predict] without them raises a
    [ValueError], also after any number of later calls to [fit]: no [fit]
    clears the expectation. *)
Theorem predict_expects_covariates (is_probabilistic : bool) (self s1 s2 : Self.t)
    (l : list TimeSeries) (pc fc : option SeriesArg)
    (calls : list (SeriesArg * option SeriesArg * option SeriesArg))
    (n num_samples : Z) (series : option SeriesArg) (pc' fc' : option SeriesArg) :
  fit self (Several l) pc fc = Ok s1 ->
  fits s1 calls = Ok s2 ->
  (pc <> None ->
   exists msg, predict is_probabilistic s2 n series None fc' num_samples
               = Raise (ValueError msg)) /\
  (fc <> None ->
   exists msg, predict is_probabilistic s2 n series pc' None num_samples
               = Raise (ValueError msg)).
Proof.
  intros Hfit Hfits.
  assert (H1 : Self._fit_called s1 = true /\
               (pc <> None -> Self._expect_past_covariates s1 = true) /\
               (fc <> None -> Self._expect_future_covariates s1 = true)).
  { unfold fit in Hfit.
    destruct (list_get l 0) as [first| |]; simpl in Hfit; try discriminate.
    injection Hfit as <-. simpl.
    repeat split; intros Hne; [destruct pc | destruct fc]; simpl; congruence. }
  destruct H1 as (Hf1 & Hp1 & Hq1).
  destruct (fits_keep_expectations calls s1 s2 Hfits Hf1) as (Hf & Hp & Hq).
  unfold predict. rewrite Hf. simpl. split; intros Hne.
  - rewrite (Hp (Hp1 Hne)). simpl.
    destruct (negb is_probabilistic && (num_samples >? 1)); eauto.
  - rewrite (Hq (Hq1 Hne)). simpl.
    destruct (negb is_probabilistic && (num_samples >? 1)); [eauto|].
    destruct (Self._expect_past_covariates s2 && negb (Gridsearch.is_some pc'));
      eauto.
Qed.

End GlobalModelFacts.

(** ** ModelMeta, continued *)

Lemma combine_firstn_length {A B : Type} (l : list A) (l' : list B) :
  combine l (firstn (List.length l) l') = combine l l'.
Proof.
  revert l'. induction l as [|x l IH]; intros [|y l']; simpl; try reflexivity.
  now rewrite IH.
Qed.

(** X23: positional arguments beyond the parameters of the signature are
    not recorded: the call records what it would record without them. *)
Theorem call_drops_surplus_args {V : Type} (sig : list (string * option V))
    (args : list V) (kwargs : list (string * V)) :
  ModelMeta.__call__ sig args kwargs =
  ModelMeta.__call__ sig (firstn (List.length (ModelMeta.parameters sig)) args) kwargs.
Proof.
  unfold ModelMeta.__call__, ModelMeta.parameters. cbv zeta.
  set (params := filter (fun p => negb (String.eqb (fst p) "self")) sig).
  rewrite <- (length_map fst params), combine_firstn_length. reflexivity.
Qed.

(** * The further properties on concrete inputs *)

Import MoreExamples.

Lemma pred_times_progression_witness :
  [2; 3; 4] = map (fun i => 2 + Z.of_nat i * (freq (series args0) * stride args0))
                (seq 0 3).
Proof.
  destruct (pred_times_progression args0 [2; 3; 4] eq_refl) as (ts & Hts & Hl).
  injection Hts as <-. exact Hl.
Defined.

Lemma pred_times_count_witness :
  exists l,
    scheduled_pred_times args0 = Ok l /\
    Z.of_nat (List.length l) = (4 - 2) / (freq (series args0) * stride args0) + 1.
Proof.
  apply (pred_times_count args0 2 4); [simpl; lia | reflexivity | reflexivity | lia].
Defined.


Lemma retrain_unsupported_raises_witness :
  exists msg,
    historical_forecasts_body nat naive_local args_never (mkWorld fitted [])
    = (mkWorld fitted [], Raise (ValueError msg)).
Proof.
  apply (retrain_unsupported_raises naive_local args_never (mkWorld fitted []));
    [reflexivity | discriminate | discriminate].
Defined.

Lemma retrain_negative_raises_witness :
  exists msg,
    historical_forecasts_body nat naive args_negative (mkWorld fitted [])
    = (mkWorld fitted [], Raise (ValueError msg)).
Proof.
  apply (retrain_negative_raises naive args_negative (mkWorld fitted []) (-1));
    [reflexivity | lia].
Defined.

Lemma train_length_too_small_raises_witness :
  exists msg,
    historical_forecasts_body nat naive args_no_window (mkWorld fitted [])
    = (mkWorld fitted [], Raise (ValueError msg)).
Proof.
  apply (train_length_too_small_raises naive args_no_window (mkWorld fitted []) 0);
    [reflexivity | left; lia].
Defined.

Lemma retrain_true_fits_always_witness :
  exists w fs,
    run_historical_forecasts nat naive args0 fitted = (w, Ok fs) /\
    fit_counters (trace w) = [0; 1; 2]%nat /\
    learnt (model w) = 4%nat.
Proof.
  assert (H : exists w fs, run_historical_forecasts nat naive args0 fitted = (w, Ok fs))
    by (vm_compute; eauto).
  destruct H as (w & fs & H). exists w, fs. split; [exact H|].
  destruct (retrain_true_fits_always naive args0 fitted w fs [2; 3; 4] eq_refl H eq_refl)
    as [Hc Hs].
  split; [exact Hc|]. vm_compute in Hs. now injection Hs.
Defined.

Lemma predict_once_per_pred_time_witness :
  exists w l,
    run_historical_forecasts nat naive args_segments fitted = (w, Ok (Segments l)) /\
    map (fun call => fst (fst (fst call))) (predict_calls (trace w)) = [0; 1; 2]%nat /\
    exists ms,
      models_along naive always args_segments 0 [2; 3; 4] fitted = Ok ms /\
      Forall2 (fun mt forecast => predicted_by naive args_segments (fst mt) (snd mt) forecast)
        (combine ms [2; 3; 4]) l.
Proof.
  assert (H : exists w l,
             run_historical_forecasts nat naive args_segments fitted
             = (w, Ok (Segments l)))
    by (vm_compute; eauto).
  destruct H as (w & l & H). exists w, l. split; [exact H|].
  destruct (predict_once_per_pred_time naive args_segments fitted w (Segments l)
              [2; 3; 4] always H eq_refl eq_refl)
    as (Hc & ms & fcs & Hms & _ & _ & Hp & Hl).
  split; [rewrite Hc; reflexivity|].
  exists ms. subst l. split; assumption.
Defined.

Lemma segments_one_per_pred_time_witness :
  exists w fcs,
    run_historical_forecasts nat naive args_segments fitted = (w, Ok (Segments fcs)) /\
    List.length fcs = 3%nat.
Proof.
  assert (H : exists w fcs,
             run_historical_forecasts nat naive args_segments fitted
             = (w, Ok (Segments fcs)))
    by (vm_compute; eauto).
  destruct H as (w & fcs & H). exists w, fcs. split; [exact H|].
  exact (segments_one_per_pred_time naive args_segments fitted w fcs [2; 3; 4] H eq_refl).
Defined.

Lemma retrain_callable_decides_witness :
  exists w fs,
    run_historical_forecasts nat naive args_at_odd fitted = (w, Ok fs) /\
    fit_counters (trace w) = [1; 3]%nat /\
    learnt (model w) = 3%nat.
Proof.
  assert (H : exists w fs,
             run_historical_forecasts nat naive args_at_odd fitted = (w, Ok fs))
    by (vm_compute; eauto).
  destruct H as (w & fs & H). exists w, fs. split; [exact H|].
  destruct (retrain_callable_decides naive args_at_odd fitted w fs [1; 2; 3; 4] at_odd
              eq_refl eq_refl H eq_refl) as [Hc Hs].
  split; [rewrite Hc; reflexivity|]. vm_compute in Hs. now injection Hs.
Defined.

Lemma backtest_last_points_ignores_reduction_witness :
  exists w s,
    run_historical_forecasts nat naive args0 fitted = (w, Ok (Assembled s)) /\
    backtest naive args0 (MetricList [first_value; point_count]) (Some np_mean)
      (mkWorld fitted []) =
    (w, Ok (Vector [first_value (series args0) s; point_count (series args0) s])).
Proof.
  assert (H : exists w s,
             run_historical_forecasts nat naive args0 fitted = (w, Ok (Assembled s)))
    by (vm_compute; eauto).
  destruct H as (w & s & H). exists w, s. split; [exact H|].
  apply (backtest_last_points_ignores_reduction naive args0 fitted w s
           [first_value; point_count] (Some np_mean) H).
  simpl. lia.
Defined.

Lemma backtest_one_metric_unreduced_witness :
  exists w f fcs,
    run_historical_forecasts nat naive args_segments fitted
      = (w, Ok (Segments (f :: fcs))) /\
    fcs <> [] /\
    backtest naive args_segments (OneMetric first_value) None (mkWorld fitted []) =
    (w, Ok (Vector [first_value (series args_segments) f])).
Proof.
  assert (H : exists w f f' fcs,
             run_historical_forecasts nat naive args_segments fitted
             = (w, Ok (Segments (f :: f' :: fcs))))
    by (vm_compute; eauto 6).
  destruct H as (w & f & f' & fcs & H). exists w, f, (f' :: fcs).
  split; [exact H|]. split; [discriminate|].
  exact (backtest_one_metric_unreduced naive args_segments fitted w f (f' :: fcs)
           first_value H).
Defined.

Lemma call_records_parameter_witness :
  ModelMeta.od_get "lags" (ModelMeta.__call__ signature [5] [("model"%string, 9)])
    = Some (Some 5) /\
  ModelMeta.od_get "output_chunk_length"
    (ModelMeta.__call__ signature [5] [("model"%string, 9)]) = Some (Some 1) /\
  ModelMeta.od_get "lags" (ModelMeta.__call__ signature [] [("model"%string, 9)])
    = None.
Proof.
  split; [|split].
  - apply (ModelMetaFacts.call_records_parameter Z signature [5] [("model"%string, 9)]
             "lags" None 0); [|reflexivity | reflexivity].
    repeat constructor; simpl; intuition discriminate.
  - apply (ModelMetaFacts.call_records_parameter Z signature [5] [("model"%string, 9)]
             "output_chunk_length" (Some 1) 1); [|reflexivity | reflexivity].
    repeat constructor; simpl; intuition discriminate.
  - apply (ModelMetaFacts.call_records_parameter Z signature [] [("model"%string, 9)]
             "lags" None 0); [|reflexivity | reflexivity].
    repeat constructor; simpl; intuition discriminate.
Defined.

Lemma call_records_kwargs_witness :
  ModelMeta.od_get "lags"
    (ModelMeta.__call__ signature [5] [("lags"%string, 8); ("model"%string, 9)])
  = Some (Some 8).
Proof.
  apply (ModelMetaFacts.call_records_kwargs Z signature [5]
           [("lags"%string, 8); ("model"%string, 9)] "lags" 8).
  - repeat constructor; simpl; intuition discriminate.
  - simpl. auto.
Defined.

Lemma gridsearch_best_from_grid_witness :
  exists m err,
    search_expanding grid = Ok (m, [("shift"%string, 1); ("unused"%string, 7)], err) /\
    Forall2 (fun p kv => fst kv = fst p /\ In (snd kv) (snd p)) grid
      [("shift"%string, 1); ("unused"%string, 7)].
Proof.
  assert (H : exists m err,
             search_expanding grid
             = Ok (m, [("shift"%string, 1); ("unused"%string, 7)], err))
    by (vm_compute; eauto).
  destruct H as (m & err & H). exists m, err. split; [exact H|].
  exact (GridsearchFacts.gridsearch_best_from_grid _ _ _ _ _ _ _ _ _ _ _ _ _
           _ _ _ _ _ _ m _ err H).
Defined.


Lemma fit_records_witness :
  exists self',
    FutureCovariatesLocal.fit unit same_time on_times_of last_value_class
      new_instance ts5 (Some cov5) = (self', Ok tt) /\
    FutureCovariatesLocal.Self._fit_called self' = true /\
    FutureCovariatesLocal.Self._expect_covariate self' = true.
Proof.
  destruct (FutureCovariatesLocal.fit unit same_time on_times_of last_value_class
              new_instance ts5 (Some cov5)) as [self' o] eqn:H.
  assert (Ho : o = Ok tt) by (vm_compute in H; congruence).
  subst o. exists self'. split; [reflexivity|].
  destruct (FutureCovariatesLocalFacts.fit_records unit same_time on_times_of
              last_value_class new_instance self' ts5 (Some cov5) H)
    as (Hf & _ & _ & He).
  split; [exact Hf | exact He].
Defined.

Lemma predict_covariates_as_fit_witness :
  exists self' msg,
    FutureCovariatesLocal.fit unit same_time on_times_of last_value_class
      new_instance ts5 (Some cov5) = (self', Ok tt) /\
    FutureCovariatesLocal.predict unit between last_value_class self' 1 None 1
    = Raise (ValueError msg).
Proof.
  destruct (FutureCovariatesLocal.fit unit same_time on_times_of last_value_class
              new_instance ts5 (Some cov5)) as [self' o] eqn:H.
  assert (Ho : o = Ok tt) by (vm_compute in H; congruence).
  subst o.
  destruct (FutureCovariatesLocalFacts.predict_covariates_as_fit unit same_time
              on_times_of between last_value_class new_instance self' ts5 (Some cov5)
              1 1 H) as [Hwith _].
  destruct (Hwith cov5 eq_refl) as [msg Hmsg].
  exists self', msg. split; [reflexivity | exact Hmsg].
Defined.

Lemma short_first_window_raises_witness :
  exists w msg,
    run_historical_forecasts (FutureCovariatesLocal.Self.t unit)
      (FutureCovariatesLocal.as_forecasting_model unit same_time on_times_of between
         last_value_class)
      args0 (mkModelState false new_instance)
    = (w, Raise (ValueError msg)) /\
    predict_calls (trace w) = [].
Proof.
  apply (FutureCovariatesLocalFacts.short_first_window_raises unit same_time
           on_times_of between last_value_class args0
           (mkModelState false new_instance) 2 [3; 4]);
    [reflexivity | simpl; lia | simpl; lia | reflexivity | vm_compute; reflexivity].
Defined.

Lemma predict_expects_covariates_witness :
  exists s1 msg,
    GlobalModel.fit new_global (GlobalModel.Several [ts5])
      (Some (GlobalModel.Several [cov5])) None = Ok s1 /\
    GlobalModel.predict false s1 1 (Some (GlobalModel.Single ts5)) None None 1
    = Raise (ValueError msg).
Proof.
  destruct (GlobalModel.fit new_global (GlobalModel.Several [ts5])
              (Some (GlobalModel.Several [cov5])) None) as [s1| |] eqn:H;
    try (vm_compute in H; discriminate).
  destruct (GlobalModelFacts.predict_expects_covariates false new_global s1 s1 [ts5]
              (Some (GlobalModel.Several [cov5])) None [] 1 1
              (Some (GlobalModel.Single ts5)) None None H eq_refl) as [Hp _].
  destruct (Hp ltac:(discriminate)) as [msg Hmsg].
  exists s1, msg. split; [reflexivity | exact Hmsg].
Defined.
